(** * npm-probe plugin: the aggregation transforms of [plugins/npm-probe.js]

    A shallow embedding of the three transforms of the plugin
    ([movingAverage], [groupPerDay] with [timeUnit], [groupPerDay] with
    [percentage]) and the properties their specification states.

    Conventions of the embedding.
    - A JavaScript number is an exact rational, an infinity or NaN
      ([jsnum]); rounding of binary64 arithmetic and the sign of zero are
      not modelled.
    - Objects that the code mutates in place (the day states that
      [groupPerDay] folds over and the template they are cloned from) live
      in an explicit store ([heap]); probes are never written to by the
      code and are plain values.
    - What the plugin imports ([pagelet.intervals], [pagelet.day],
      [Collector.probes.publish.interval], the local time zone behind
      [Date.prototype.setHours]) is gathered in the class [Config].
    - Of the server, the part that computes is embedded: the loop of
      [fetched] and the listener [ran], for the probes of one type at a
      time (the three types have results of different shapes), on a state
      that holds the cache, the data and what was written to the
      websockets. The queries to CouchDB ([list]) and the wiring of the
      event emitters are left out. *)

From Stdlib Require Import ZArith QArith Qcanon Qround Lia.
From stdpp Require Import base numbers option list strings gmap sorting.

#[local] Open Scope Z_scope.

(** ** JavaScript numbers *)

Inductive jsnum : Type :=
  | Fin (q : Qc)
  | PInf
  | NInf
  | NaN.

#[global] Instance jsnum_eq_dec : EqDecision jsnum.
Proof. solve_decision. Defined.

#[global] Instance jsnum_inhabited : Inhabited jsnum := populate NaN.

Definition of_Z (z : Z) : jsnum := Fin (Qc_of_Z z).

(** The infinity with the sign of [a], NaN when [a] is zero: the value of
    [a * Infinity] and of [a / 0]. *)
Definition signed_inf (a : Qc) : jsnum :=
  match (a ?= 0)%Qc with
  | Eq => NaN
  | Gt => PInf
  | Lt => NInf
  end.

Definition jsneg (x : jsnum) : jsnum :=
  match x with
  | Fin a => Fin (- a)%Qc
  | PInf => NInf
  | NInf => PInf
  | NaN => NaN
  end.

Definition jsadd (x y : jsnum) : jsnum :=
  match x, y with
  | NaN, _ | _, NaN => NaN
  | Fin a, Fin b => Fin (a + b)%Qc
  | PInf, NInf | NInf, PInf => NaN
  | PInf, _ | _, PInf => PInf
  | NInf, _ | _, NInf => NInf
  end.

Definition jsmul (x y : jsnum) : jsnum :=
  match x, y with
  | NaN, _ | _, NaN => NaN
  | Fin a, Fin b => Fin (a * b)%Qc
  | Fin a, PInf | PInf, Fin a => signed_inf a
  | Fin a, NInf | NInf, Fin a => jsneg (signed_inf a)
  | PInf, PInf | NInf, NInf => PInf
  | PInf, NInf | NInf, PInf => NInf
  end.

Definition jsdiv (x y : jsnum) : jsnum :=
  match x, y with
  | NaN, _ | _, NaN => NaN
  | Fin a, Fin b => if decide (b = 0%Qc) then signed_inf a else Fin (a / b)%Qc
  | Fin _, (PInf | NInf) => Fin 0%Qc
  | PInf, Fin b => if decide (b < 0)%Qc then NInf else PInf
  | NInf, Fin b => if decide (b < 0)%Qc then PInf else NInf
  | (PInf | NInf), (PInf | NInf) => NaN
  end.

(** [x <= y] of JavaScript: false as soon as one side is NaN. *)
Definition jsle (x y : jsnum) : bool :=
  match x, y with
  | NaN, _ | _, NaN => false
  | Fin a, Fin b => bool_decide (a ≤ b)%Qc
  | NInf, _ | _, PInf => true
  | _, _ => false
  end.

Definition jslt (x y : jsnum) : bool :=
  match x, y with
  | NaN, _ | _, NaN => false
  | Fin a, Fin b => bool_decide (a < b)%Qc
  | PInf, _ | _, NInf => false
  | _, _ => true
  end.

(** [x > y] *)
Definition jsgt (x y : jsnum) : bool := jslt y x.

(** ToBoolean on a number: [0] and [NaN] are falsy. *)
Definition truthy (x : jsnum) : bool :=
  match x with
  | Fin a => bool_decide (a ≠ 0%Qc)
  | PInf | NInf => true
  | NaN => false
  end.

(** [Math.floor] and [Math.round] (half-way cases go up). *)
Definition floor (x : jsnum) : jsnum :=
  match x with
  | Fin a => of_Z (Qfloor a)
  | _ => x
  end.

Definition half : Qc := Q2Qc (1 # 2).

Definition round (x : jsnum) : jsnum :=
  match x with
  | Fin a => of_Z (Qfloor (a + half)%Qc)
  | _ => x
  end.

(** ToNumber of a property read: a missing property is [undefined], and
    [undefined] in arithmetic is NaN. *)
Definition to_number (v : option jsnum) : jsnum := default NaN v.

Declare Scope js_scope.
Delimit Scope js_scope with js.
Bind Scope js_scope with jsnum.
Infix "+" := jsadd : js_scope.
Infix "*" := jsmul : js_scope.
Infix "/" := jsdiv : js_scope.
Arguments jsdiv : simpl never.

(** ** Probes and aggregate points *)

(** A probe as the collector hands it over; [R] is the type of the
    [results] of the probe's kind. Only the fields the transforms read. *)
Record probe (R : Type) : Type := Probe { start : Z; results : R }.
Arguments Probe {R} _ _.
Arguments start {R} _.
Arguments results {R} _.

(** What a transform emits: [{ t: ..., values: ... }]. *)
Record point (V : Type) : Type := Point { t : Z; values : V }.
Arguments Point {V} _ _.
Arguments t {V} _.
Arguments values {V} _.

(** The results of a ping probe: numeric metrics by name. *)
Abbreviation metrics := (gmap string jsnum).

(** ** [movingAverage] *)

(** [n = n || 5] *)
Definition steps (n : Z) : Z := if decide (n = 0) then 5 else n.

(** The values [k] takes in the body of [while (++k < i)] when it starts
    from [i - n]: [i - n + 1], ..., [i - 1]. *)
Definition window (n i : Z) : list Z := seqZ (i - n + 1) (n - 1).

(** [original[k > 0 ? k : 0].results[data]]. The index is at most [i],
    so [original[...]] is never [undefined] (lemma [clamp_lt]). *)
Definition clamp (k : Z) : nat := Z.to_nat (if decide (0 < k) then k else 0).

Definition metric_at (original : list (probe metrics)) (k : Z) (data : string)
  : option jsnum :=
  original !! clamp k ≫= λ p, results p !! data.

(** One pass of the body of [for (var data in probe.results)] for the
    property [data], whose value in [probe.results] is [x]. *)
Definition accumulate (n : Z) (original : list (probe metrics)) (k : Z)
    (vals : metrics) (data : string) (x : jsnum) : metrics :=
  let seed :=
    match vals !! data with
    | Some v => if truthy v then v else (x / of_Z n)%js
    | None => (x / of_Z n)%js
    end in
  <[data := (seed + to_number (metric_at original k data) / of_Z n)%js]> vals.

Definition for_in (n : Z) (original : list (probe metrics)) (k : Z)
    (res : metrics) (vals : metrics) : metrics :=
  foldl (λ vals '(data, x), accumulate n original k vals data x) vals
        (map_to_list res).

(** The callback of [data.map]. *)
Definition average (n : Z) (original : list (probe metrics)) (i : nat)
    (p : probe metrics) : point metrics :=
  Point (start p)
        (foldl (λ vals k, for_in n original k (results p) vals) ∅
               (window n (Z.of_nat i))).

Definition movingAverage (n : Z) (data : list (probe metrics))
  : list (point metrics) :=
  let n := steps n in
  imap (average n data) data.

(** What section 4.2 of the specification describes instead: the mean over
    the [n] samples before index [i], index [i] excluded. *)
Definition sum_metric (original : list (probe metrics)) (data : string)
    (ks : list Z) : jsnum :=
  foldl (λ acc k, (acc + to_number (metric_at original k data))%js)
        (Fin 0%Qc) ks.

Definition preceding_mean (n : Z) (original : list (probe metrics))
    (i : nat) (data : string) : jsnum :=
  (sum_metric original data (seqZ (Z.of_nat i - n) n) / of_Z n)%js.

(** The mean over the [n] samples that end at index [i], index [i]
    included. *)
Definition trailing_mean (n : Z) (original : list (probe metrics))
    (i : nat) (data : string) : jsnum :=
  (sum_metric original data (seqZ (Z.of_nat i - n + 1) n) / of_Z n)%js.

(** ** Configuration: what the plugin imports *)

Class Config : Type := {
  (** [pagelet.intervals], as [(label, threshold)] pairs in the order of
      [Object.keys] *)
  intervals : list (string * jsnum);
  (** [pagelet.day] *)
  day : jsnum;
  (** [Collector.probes.publish.interval] *)
  publish_interval : jsnum;
  (** [new Date(ms).setHours(0, 0, 0, 0)]: the local midnight of the day of
      the instant [ms] *)
  midnight : Z → Z;
}.

(** [o[key]] on an object given by its properties in enumeration order. *)
Fixpoint property {K A} `{EqDecision K} (o : list (K * A)) (key : K) : option A :=
  match o with
  | [] => None
  | (k, v) :: o => if decide (k = key) then Some v else property o key
  end.

(** [o[key] = v]: an existing property keeps its place, a new one comes
    last. *)
Fixpoint assign {K A} `{EqDecision K} (key : K) (v : A) (o : list (K * A))
  : list (K * A) :=
  match o with
  | [] => [(key, v)]
  | (k, w) :: o =>
      if decide (k = key) then (k, v) :: o else (k, w) :: assign key v o
  end.

(** ** Results of the delta and publish probes *)

Record lag_t : Type := Lag { mean : jsnum }.

Record delta : Type := Delta {
  lag : option lag_t;
  (** [None] when [Array.isArray(probe.results.modules)] is false *)
  modules : option (list string);
}.

Record publish : Type := Publish { published : bool }.

(** ** Day states *)

(** A numeric property. [null] is what [JSON.stringify] turns NaN and the
    infinities into; in arithmetic it counts as 0. *)
Inductive jsval : Type :=
  | Num (x : jsnum)
  | Null.

Definition num_of (v : jsval) : jsnum :=
  match v with Num x => x | Null => Fin 0%Qc end.

(** The scalar properties of the two kinds of record that the templates of
    [transform] are made of. *)
Inductive fields : Type :=
  | Bucket (type : string) (days n : jsval)
  | Slot (type : string) (percentage total n lower : jsval).

Inductive field : Type := Days | N | Percentage | Total | Lower.

Definition get_field (f : field) (fs : fields) : option jsval :=
  match f, fs with
  | Days, Bucket _ d _ => Some d
  | N, Bucket _ _ n => Some n
  | Percentage, Slot _ p _ _ _ => Some p
  | Total, Slot _ _ t _ _ => Some t
  | N, Slot _ _ _ n _ => Some n
  | Lower, Slot _ _ _ _ l => Some l
  | _, _ => None
  end.

Definition set_field (f : field) (v : jsval) (fs : fields) : option fields :=
  match f, fs with
  | Days, Bucket ty _ n => Some (Bucket ty v n)
  | N, Bucket ty d _ => Some (Bucket ty d v)
  | Percentage, Slot ty _ t n l => Some (Slot ty v t n l)
  | Total, Slot ty p _ n l => Some (Slot ty p v n l)
  | N, Slot ty p t _ l => Some (Slot ty p t v l)
  | Lower, Slot ty p t n _ => Some (Slot ty p t n v)
  | _, _ => None
  end.

(** A record of a day state as a value: its scalar properties and the
    contents of its [modules] array, when it has one. This is also the
    abstract syntax of the JSON text of a record. *)
Record entry : Type := Entry {
  entry_modules : option (list string);
  entry_fields : fields;
}.

(** ** The store *)

Abbreviation loc := nat (only parsing).

Inductive cell : Type :=
  | Units (refs : list loc)      (** the array of a day state *)
  | Names (items : list string)  (** a [modules] array *)
  | Rec (mods : option loc) (fs : fields).

Abbreviation heap := (list cell) (only parsing).

(** How a call ends: it returns, it throws a [TypeError], or it leaves the
    fragment of JavaScript that the typed store describes. *)
Inductive res (A : Type) : Type :=
  | Ok (a : A)
  | Throw
  | Stuck.
Arguments Ok {A} _.
Arguments Throw {A}.
Arguments Stuck {A}.

(** Computations on a state [S]; the state is kept when a call throws. *)
Definition ST (S A : Type) : Type := S → res A * S.

#[global] Instance ST_ret {S} : MRet (ST S) := λ A a s, (Ok a, s).
#[global] Instance ST_bind {S} : MBind (ST S) := λ A B k m s,
  match m s with
  | (Ok a, s') => k a s'
  | (Throw, s') => (Throw, s')
  | (Stuck, s') => (Stuck, s')
  end.

Definition throw {S A} : ST S A := λ s, (Throw, s).
Definition stuck {S A} : ST S A := λ s, (Stuck, s).

Fixpoint forEach {S A B} (l : list A) (i : Z) (f : A → Z → B → ST S B) (b : B)
  : ST S B :=
  match l with
  | [] => mret b
  | x :: l => b' ← f x i b; forEach l (i + 1) f b'
  end.

Fixpoint reduce {S A B} (f : B → A → ST S B) (b : B) (l : list A) : ST S B :=
  match l with
  | [] => mret b
  | x :: l => b' ← f b x; reduce f b' l
  end.

Fixpoint map_ST {S A B} (f : A → ST S B) (l : list A) : ST S (list B) :=
  match l with
  | [] => mret []
  | x :: l => y ← f x; ys ← map_ST f l; mret (y :: ys)
  end.

(** ** The accumulators [timeUnit] and [percentage]

    Both are written against the four ways in which they touch [memo]:
    reading and writing a scalar property of [memo[i]], reading the
    [modules] array of [memo[i]] and pushing onto it. *)

Record accessors (S : Type) : Type := Accessors {
  (** [memo[i].f] *)
  get : Z → field → ST S jsval;
  (** [memo[i].f = v] *)
  set : Z → field → jsval → ST S unit;
  (** the elements of [memo[i].modules] *)
  modules_of : Z → ST S (list string);
  (** [Array.prototype.push.apply(memo[i].modules, xs)] *)
  push : Z → list string → ST S unit;
}.
Arguments get {S} _ _ _.
Arguments set {S} _ _ _ _.
Arguments modules_of {S} _ _.
Arguments push {S} _ _ _.

(** ToBoolean on the variable [interval], [undefined] or an index. *)
Definition found (interval : option Z) : bool :=
  match interval with
  | Some i => bool_decide (i ≠ 0)
  | None => false
  end.

(** [.filter(Boolean)] on an array of strings and [undefined]s. *)
Definition filter_Boolean (l : list (option string)) : list string :=
  omap (λ x, match x with
             | Some s => if decide (s = ""%string) then None else Some s
             | None => None
             end) l.

Section accumulators.
Context `{Config} {S : Type} (memo : accessors S).

(** The callback of [position.forEach]; [entry] is the pair of [key] and
    [pagelet.intervals[key]]. The variable [days] of [timeUnit] is never
    assigned, so [days || x] is [x]. *)
Definition each (probe : probe (option delta)) (entry : string * jsnum) (i : Z)
    (interval : option Z) : ST S (option Z) :=
  match results probe ≫= lag with
  | Some l =>
      d ← get memo i Days;
      set memo i Days (Num (num_of d + mean l / day)%js);;
      if found interval then mret interval
      else if jsle (mean l) entry.2 then mret (Some i)
      else mret interval
  | None => mret interval
  end.

Definition timeUnit_body (probe : probe (option delta)) : ST S unit :=
  interval ← forEach intervals 0 (each probe) None;
  let interval :=
    if found interval then default 0 interval
    else Z.of_nat (length intervals) - 1 in
  n ← get memo interval N;
  set memo interval N (Num (num_of n + of_Z 1)%js);;
  match results probe with
  | None => throw
  | Some r =>
      match modules r with
      | Some mods =>
          present ← modules_of memo interval;
          push memo interval
            (filter_Boolean
               ((λ module, if decide (module ∈ present) then None
                           else Some module) <$> mods))
      | None => mret ()
      end
  end.

(** [now] is the reading of the clock by [new Date()]. *)
Definition percentage_body (now : Z) (probe : probe publish) : ST S unit :=
  let day := midnight now in
  let diff :=
    if decide (day < start probe) then of_Z (start probe - day)
    else to_number (property intervals "day"%string) in
  let done := floor (diff / publish_interval)%js in
  let state := if published (results probe) then 1 else 0 in
  total ← get memo state Total;
  (if jsgt done (num_of total)
   then set memo 1 Total (Num done);; set memo 0 Total (Num done)
   else mret ());;
  n ← get memo state N;
  set memo state N (Num (num_of n + of_Z 1)%js);;
  n ← get memo state N;
  total ← get memo state Total;
  set memo state Percentage
    (Num (round (num_of n / num_of total * of_Z 100)%js));;
  success ← get memo 1 Percentage;
  set memo 0 Lower success.
End accumulators.

(** ** Access to a day state in the store *)

Definition read (l : loc) : ST heap cell := λ h,
  match h !! l with
  | Some c => (Ok c, h)
  | None => (Stuck, h)
  end.

Definition write (l : loc) (c : cell) : ST heap unit := λ h, (Ok (), <[l := c]> h).

Definition alloc (c : cell) : ST heap loc := λ h, (Ok (length h), h ++ [c]).

(** The object [memo[i]], for a property access: a [TypeError] when
    [memo[i]] is [undefined]. *)
Definition unit_at (memo : loc) (i : Z) : ST heap loc :=
  c ← read memo;
  match c with
  | Units refs =>
      if decide (0 ≤ i) then
        match refs !! Z.to_nat i with
        | Some r => mret r
        | None => throw
        end
      else throw
  | _ => stuck
  end.

Definition record_at (memo : loc) (i : Z) : ST heap (loc * option loc * fields) :=
  r ← unit_at memo i;
  c ← read r;
  match c with
  | Rec m fs => mret (r, m, fs)
  | _ => stuck
  end.

Definition names_at (m : loc) : ST heap (list string) :=
  c ← read m;
  match c with
  | Names items => mret items
  | _ => stuck
  end.

Definition in_store (memo : loc) : accessors heap := {|
  get i f :=
    '(_, _, fs) ← record_at memo i;
    match get_field f fs with
    | Some v => mret v
    | None => stuck
    end;
  set i f v :=
    '(r, m, fs) ← record_at memo i;
    match set_field f v fs with
    | Some fs' => write r (Rec m fs')
    | None => stuck
    end;
  modules_of i :=
    '(_, m, _) ← record_at memo i;
    match m with
    | Some m => names_at m
    | None => throw
    end;
  push i xs :=
    '(_, m, _) ← record_at memo i;
    match m with
    | Some m => items ← names_at m; write m (Names (items ++ xs))
    | None => throw
    end;
|}.

Definition timeUnit `{Config} (memo : loc) (probe : probe (option delta))
  : ST heap loc :=
  timeUnit_body (in_store memo) probe;; mret memo.

Definition percentage `{Config} (now : Z) (memo : loc) (probe : probe publish)
  : ST heap loc :=
  percentage_body (in_store memo) now probe;; mret memo.

(** ** Day states as values *)

(** The record that [r] refers to, with the contents of its [modules]
    array. *)
Definition view_unit (h : heap) (r : loc) : option entry :=
  match h !! r with
  | Some (Rec (Some m) fs) =>
      match h !! m with
      | Some (Names items) => Some (Entry (Some items) fs)
      | _ => None
      end
  | Some (Rec None fs) => Some (Entry None fs)
  | _ => None
  end.

Definition view_day (h : heap) (memo : loc) : option (list entry) :=
  match h !! memo with
  | Some (Units refs) => mapM (view_unit h) refs
  | _ => None
  end.

(** The cells that make up a record and a day state. *)
Definition unit_locs (h : heap) (r : loc) : list loc :=
  match h !! r with
  | Some (Rec (Some m) _) => [r; m]
  | _ => [r]
  end.

Definition day_locs (h : heap) (memo : loc) : list loc :=
  match h !! memo with
  | Some (Units refs) => memo :: (refs ≫= unit_locs h)
  | _ => [memo]
  end.

(** The same accessors on a day state held as a value. *)
Definition entry_at (i : Z) : ST (list entry) entry := λ es,
  if decide (0 ≤ i) then
    match es !! Z.to_nat i with
    | Some e => (Ok e, es)
    | None => (Throw, es)
    end
  else (Throw, es).

Definition put_entry (i : Z) (e : entry) : ST (list entry) unit := λ es,
  (Ok (), <[Z.to_nat i := e]> es).

Definition in_value : accessors (list entry) := {|
  get i f :=
    e ← entry_at i;
    match get_field f (entry_fields e) with
    | Some v => mret v
    | None => stuck
    end;
  set i f v :=
    e ← entry_at i;
    match set_field f v (entry_fields e) with
    | Some fs' => put_entry i (Entry (entry_modules e) fs')
    | None => stuck
    end;
  modules_of i :=
    e ← entry_at i;
    match entry_modules e with
    | Some items => mret items
    | None => throw
    end;
  push i xs :=
    e ← entry_at i;
    match entry_modules e with
    | Some items => put_entry i (Entry (Some (items ++ xs)) (entry_fields e))
    | None => throw
    end;
|}.

(** ** [clone] *)

(** A number in JSON text: NaN and the infinities are written [null]. *)
Definition json_val (v : jsval) : jsval :=
  match v with
  | Num (Fin q) => Num (Fin q)
  | _ => Null
  end.

Definition json_fields (fs : fields) : fields :=
  match fs with
  | Bucket ty d n => Bucket ty (json_val d) (json_val n)
  | Slot ty p t n l => Slot ty (json_val p) (json_val t) (json_val n) (json_val l)
  end.

Definition json_entry (e : entry) : entry :=
  Entry (entry_modules e) (json_fields (entry_fields e)).

(** [JSON.stringify(input)]: the text, as its syntax tree. *)
Definition stringify (input : loc) : ST heap (list entry) := λ h,
  match view_day h input with
  | Some es => (Ok (json_entry <$> es), h)
  | None => (Stuck, h)
  end.

(** Building the objects of an array of records, as [JSON.parse] and an
    array literal do: every object is new. *)
Definition build_entry (e : entry) : ST heap loc :=
  m ← match entry_modules e with
      | Some items => m ← alloc (Names items); mret (Some m)
      | None => mret None
      end;
  alloc (Rec m (entry_fields e)).

Definition build (es : list entry) : ST heap loc :=
  refs ← map_ST build_entry es;
  alloc (Units refs).

Definition clone (input : loc) : ST heap loc :=
  text ← stringify input;
  build text.

(** ** [groupPerDay] *)

(** [Object.keys(o)] for an object whose keys are numbers: the keys that
    are array indices come first, in ascending order, the others follow in
    the order in which they were created. *)
Definition is_index (k : Z) : Prop := 0 ≤ k < 2 ^ 32 - 1.

#[global] Instance is_index_dec k : Decision (is_index k).
Proof. unfold is_index. apply _. Defined.

Definition object_keys {A} (o : list (Z * A)) : list Z :=
  merge_sort Z.le (filter is_index o.*1) ++ filter (λ k, ¬ is_index k) o.*1.

Section group_per_day.
Context `{Config} {R : Type}.
Context (categorize : loc → probe R → ST heap loc) (base : loc).

(** The callback of [data.reduce]; [memo] is the object that maps a day to
    its state. *)
Definition per_day (memo : list (Z * loc)) (probe : probe R)
  : ST heap (list (Z * loc)) :=
  let n := midnight (start probe) in
  r ← match property memo n with
      | Some r => mret r
      | None => clone base
      end;
  let memo := assign n r memo in
  r' ← categorize r probe;
  mret (assign n r' memo).

(** The callback of [Object.keys(result).reduce]. *)
Definition maptoarray (result : list (Z * loc)) (stack : list (point loc))
    (dayn : Z) : ST heap (list (point loc)) :=
  match property result dayn with
  | Some r =>
      c ← read r;
      match c with
      | Units refs => mret (stack ++ (Point dayn <$> refs))
      | _ => stuck
      end
  | None => throw
  end.

Definition groupPerDay (data : list (probe R)) : ST heap (list (point loc)) :=
  result ← reduce per_day [] data;
  reduce (maptoarray result) [] (object_keys result).
End group_per_day.

(** The same on values: [accumulate] is the accumulator on a day state
    held as a value, [template] the value of the template. *)
Section group_per_day_value.
Context `{Config} {R : Type}.
Context (accumulate : probe R → ST (list entry) unit) (template : list entry).

Definition per_day_value (memo : list (Z * list entry)) (probe : probe R)
  : res (list (Z * list entry)) :=
  let n := midnight (start probe) in
  let es := default (json_entry <$> template) (property memo n) in
  match accumulate probe es with
  | (Ok _, es') => Ok (assign n es' memo)
  | (Throw, _) => Throw
  | (Stuck, _) => Stuck
  end.

Fixpoint reduce_value (memo : list (Z * list entry)) (data : list (probe R))
  : res (list (Z * list entry)) :=
  match data with
  | [] => Ok memo
  | probe :: data =>
      match per_day_value memo probe with
      | Ok memo' => reduce_value memo' data
      | Throw => Throw
      | Stuck => Stuck
      end
  end.

Definition flatten_value (result : list (Z * list entry)) : list (point entry) :=
  object_keys result ≫= λ dayn,
    Point dayn <$> default [] (property result dayn).

Definition groupPerDay_value (data : list (probe R)) : res (list (point entry)) :=
  match reduce_value [] data with
  | Ok result => Ok (flatten_value result)
  | Throw => Throw
  | Stuck => Stuck
  end.
End group_per_day_value.

(** ** [transform] *)

Section transform.
Context `{Config}.

Definition delta_template : list entry :=
  (λ key, Entry (Some []) (Bucket key (Num (of_Z 0)) (Num (of_Z 0))))
    <$> intervals.*1.

Definition publish_template : list entry :=
  let zero := Num (of_Z 0) in
  [Entry None (Slot "failure" zero zero zero zero);
   Entry None (Slot "success" zero zero zero zero)].

(** Evaluating the object literal of [transform] builds the two
    templates; the result is their references. *)
Definition load : ST heap (loc * loc) :=
  delta_base ← build delta_template;
  publish_base ← build publish_template;
  mret (delta_base, publish_base).

Definition transform_ping (data : list (probe metrics))
  : ST heap (list (point metrics)) :=
  mret (movingAverage 3 data).

(** [base] is the array that the literal of [transform] builds when the
    module is loaded. *)
Definition transform_delta (base : loc)
  : list (probe (option delta)) → ST heap (list (point loc)) :=
  groupPerDay timeUnit base.

Definition transform_publish (now : Z) (base : loc)
  : list (probe publish) → ST heap (list (point loc)) :=
  groupPerDay (percentage now) base.
End transform.

(** ** Definitions used in the proofs *)

(** *** Simulation of a computation on the store by one on the value *)

(** [m], run on a store in which [memo] is a day state without sharing,
    ends as [mv] does on the value of that day state, leaves [memo] with
    the value [mv] leaves, and writes to no cell outside the day state. *)
Definition sim {A} (memo : loc) (m : ST heap A) (mv : ST (list entry) A) : Prop :=
  ∀ (h : heap) es,
    view_day h memo = Some es → NoDup (day_locs h memo) →
    ∃ h' : heap,
      m h = ((mv es).1, h')
      ∧ view_day h' memo = Some (mv es).2
      ∧ day_locs h' memo = day_locs h memo
      ∧ length h' = length h
      ∧ ∀ l, l ∉ day_locs h memo → h' !! l = h !! l.

(** What holds of the object [memo] of [data.reduce] between two calls of
    its callback: the store still starts with [h0], and the day states are
    new objects that share nothing with each other. *)
Record inv (h0 : heap) (memo : list (Z * loc))
    (memo_v : list (Z * list entry)) (h : heap) : Prop := Inv {
  inv_prefix : h0 `prefix_of` h;
  inv_keys : NoDup memo.*1;
  inv_views :
    Forall2 (λ x y, x.1 = y.1 ∧ view_day h x.2 = Some y.2) memo memo_v;
  inv_nodup : NoDup (memo.*2 ≫= day_locs h);
  inv_fresh : ∀ l, l ∈ memo.*2 ≫= day_locs h → (length h0 ≤ l)%nat;
}.
Arguments inv_prefix {_ _ _ _} _.
Arguments inv_keys {_ _ _ _} _.
Arguments inv_views {_ _ _ _} _.
Arguments inv_nodup {_ _ _ _} _.
Arguments inv_fresh {_ _ _ _} _.

(** The array of the day state [r]. *)
Definition units_of (h : heap) (r : loc) : list loc :=
  match h !! r with
  | Some (Units refs) => refs
  | _ => []
  end.

(** *** The moving average under one key *)

(** The value that one pass of the [for ... in] body leaves under the key
    [data], from the value [v] found there before. *)
Definition key_step (n : Z) (original : list (probe metrics)) (data : string)
    (x : jsnum) (v : option jsnum) (k : Z) : option jsnum :=
  let seed :=
    match v with
    | Some v => if truthy v then v else (x / of_Z n)%js
    | None => (x / of_Z n)%js
    end in
  Some (seed + to_number (metric_at original k data) / of_Z n)%js.

(** The sample at (clamped) index [k] has a finite, non-negative value for
    the metric [data]. *)
Definition nonneg_at (original : list (probe metrics)) (data : string)
    (k : Z) : Prop :=
  ∃ q, metric_at original k data = Some (Fin q) ∧ (0 ≤ q)%Qc.

Definition fin_of (v : option jsnum) : Qc :=
  match v with Some (Fin q) => q | _ => 0%Qc end.

Definition Qcsum (qs : list Qc) : Qc := foldr Qcplus 0%Qc qs.

Definition contribution (n : Z) (original : list (probe metrics))
    (data : string) (k : Z) : Qc :=
  (fin_of (metric_at original k data) / Qc_of_Z n)%Qc.

Definition latency (x : Z) : metrics := {[ "latency"%string := of_Z x ]}.

Definition three_pings : list (probe metrics) :=
  [Probe 1000 (latency 10); Probe 2000 (latency 20); Probe 3000 (latency 30)].

(** *** What [timeUnit] does to a day state, in closed form *)

(** How the callback of [position.forEach] updates [interval]. *)
Definition settle (mean : jsnum) (entry : string * jsnum) (i : Z)
    (interval : option Z) : option Z :=
  if found interval then interval
  else if jsle mean entry.2 then Some i
  else interval.

Fixpoint scan (mean : jsnum) (l : list (string * jsnum)) (i : Z)
    (interval : option Z) : option Z :=
  match l with
  | [] => interval
  | entry :: l => scan mean l (i + 1) (settle mean entry i interval)
  end.

(** The index in [memo[interval].n++]. *)
Definition classified `{Config} (lag : option lag_t) : Z :=
  let interval :=
    match lag with
    | Some l => scan (mean l) intervals 0 None
    | None => None
    end in
  if found interval then default 0 interval
  else Z.of_nat (length intervals) - 1.

(** [memo[i].days += x] *)
Definition add_days (x : jsnum) (e : entry) : entry :=
  match entry_fields e with
  | Bucket ty d n => Entry (entry_modules e) (Bucket ty (Num (num_of d + x)%js) n)
  | Slot _ _ _ _ _ => e
  end.

(** The modules of the sample that are pushed onto a [modules] array whose
    elements are [present]. *)
Definition pushed (mods : option (list string)) (present : list string)
  : list string :=
  match mods with
  | Some mods =>
      filter_Boolean
        ((λ module, if decide (module ∈ present) then None else Some module)
           <$> mods)
  | None => []
  end.

(** [memo[interval].n++] and the push onto [memo[interval].modules]. *)
Definition counted (mods : option (list string)) (e : entry) : entry :=
  match e with
  | Entry (Some ms) (Bucket ty d n) =>
      Entry (Some (ms ++ pushed mods ms)) (Bucket ty d (Num (num_of n + of_Z 1)%js))
  | _ => e
  end.

Definition is_bucket (e : entry) : bool :=
  match e with
  | Entry (Some _) (Bucket _ _ _) => true
  | _ => false
  end.

(** *** What [percentage] does to a day state, in closed form *)

(** [done] in [percentage]. *)
Definition expected `{Config} (now : Z) (p : probe publish) : jsnum :=
  let day := midnight now in
  let diff :=
    if decide (day < start p) then of_Z (start p - day)
    else to_number (property intervals "day"%string) in
  floor (diff / publish_interval)%js.

(** [Math.round(n / total * 100)], on exact rationals: where the exact
    value lies half-way between two whole numbers, binary64 arithmetic can
    round to the other one, so the properties of the percentage speak of
    its range and its order, not of its value. *)
Definition percent (n total : jsval) : jsval :=
  Num (round (num_of n / num_of total * of_Z 100)%js).

Definition percentage_value `{Config} (now : Z) (p : probe publish)
    (es : list entry) : list entry :=
  match es with
  | Entry m0 (Slot ty0 p0 t0 n0 l0) :: Entry m1 (Slot ty1 p1 t1 n1 l1) :: es =>
      let done := expected now p in
      if published (results p) then
        let grow := jsgt done (num_of t1) in
        let t0' := if grow then Num done else t0 in
        let t1' := if grow then Num done else t1 in
        let n1' := Num (num_of n1 + of_Z 1)%js in
        let p1' := percent n1' t1' in
        Entry m0 (Slot ty0 p0 t0' n0 p1')
          :: Entry m1 (Slot ty1 p1' t1' n1' l1) :: es
      else
        let grow := jsgt done (num_of t0) in
        let t0' := if grow then Num done else t0 in
        let t1' := if grow then Num done else t1 in
        let n0' := Num (num_of n0 + of_Z 1)%js in
        let p0' := percent n0' t0' in
        Entry m0 (Slot ty0 p0' t0' n0' p1)
          :: Entry m1 (Slot ty1 p1 t1' n1 l1) :: es
  | _ => es
  end.

Definition is_slot (e : entry) : bool :=
  match entry_fields e with
  | Slot _ _ _ _ _ => true
  | Bucket _ _ _ => false
  end.

(** *** Decidable equality, to compare concrete outcomes *)

#[global] Instance jsval_eq_dec : EqDecision jsval.
Proof. solve_decision. Defined.
#[global] Instance fields_eq_dec : EqDecision fields.
Proof. solve_decision. Defined.
#[global] Instance entry_eq_dec : EqDecision entry.
Proof. solve_decision. Defined.
#[global] Instance cell_eq_dec : EqDecision cell.
Proof. solve_decision. Defined.
#[global] Instance res_eq_dec {A} `{EqDecision A} : EqDecision (res A).
Proof. solve_decision. Defined.
#[global] Instance point_eq_dec {V} `{EqDecision V} : EqDecision (point V).
Proof. solve_decision. Defined.

(** *** What a caller sees of the points of a day-grouped transform *)

(** A point with the record that its [values] refers to. *)
Definition point_value (h : heap) (p : point loc) : option (point entry) :=
  Point (t p) <$> view_unit h (values p).

(** The outcome of a call with, when it returns, the points as values. *)
Definition observe (run : res (list (point loc)) * heap)
  : res (list (point entry)) :=
  match run.1 with
  | Ok pts =>
      match mapM (point_value run.2) pts with
      | Some pts_v => Ok pts_v
      | None => Stuck
      end
  | Throw => Throw
  | Stuck => Stuck
  end.

(** Overwriting a cell of the record of one point changes neither the
    template nor the record of any other point. *)
Definition isolated (h : heap) (base : loc) (pts : list (point loc)) : Prop :=
  ∀ (i : nat) p l c,
    pts !! i = Some p → l ∈ unit_locs h (values p) →
    view_day (<[l := c]> h) base = view_day h base
    ∧ ∀ (j : nat) q, j ≠ i → pts !! j = Some q →
        view_unit (<[l := c]> h) (values q) = view_unit h (values q).

(** [run] is a call of [groupPerDay] on the store [h] with the template
    [base], whose value is [template]: no cell of [h] is written to, the
    template keeps its value, the call ends as the fold [folded] from the
    copies of the template's value does, and the records of its points are
    new objects that share nothing with each other or with the template. *)
Definition from_copies (h : heap) (base : loc) (template : list entry)
    (run : res (list (point loc)) * heap)
    (folded : res (list (point entry))) : Prop :=
  h `prefix_of` run.2
  ∧ view_day run.2 base = Some template
  ∧ observe run = folded
  ∧ ∀ pts, run.1 = Ok pts →
      NoDup (pts ≫= λ p, unit_locs run.2 (values p))
      ∧ (∀ l, l ∈ (pts ≫= λ p, unit_locs run.2 (values p))
              → (length h ≤ l)%nat)
      ∧ isolated run.2 base pts.

(** The frame of such a call alone: no cell of [h] is written to, the
    template keeps its value, and the records of the points are new
    objects that share nothing with each other or with the template. *)
Definition independent_copies (h : heap) (base : loc) (template : list entry)
    (run : res (list (point loc)) * heap) : Prop :=
  h `prefix_of` run.2
  ∧ view_day run.2 base = Some template
  ∧ ∀ pts, run.1 = Ok pts →
      NoDup (pts ≫= λ p, unit_locs run.2 (values p))
      ∧ (∀ l, l ∈ (pts ≫= λ p, unit_locs run.2 (values p))
              → (length h ≤ l)%nat)
      ∧ isolated run.2 base pts.

(** [run1] is a call on the store [h] with the template [base], whose
    value is [template], and [run2] a call on the store that [run1] has
    left: the second call ends as the first, with points of the same
    values; neither call writes to a cell that was there before it, so the
    template keeps its value and the points of the first call have, after
    the second, the values they had; and the records of the points of the
    first call are objects made by the first call, those of the second
    call objects that were not there at the first. *)
Definition repeated (h : heap) (base : loc) (template : list entry)
    (run1 run2 : res (list (point loc)) * heap) : Prop :=
  observe run2 = observe run1
  ∧ h `prefix_of` run1.2
  ∧ run1.2 `prefix_of` run2.2
  ∧ view_day run1.2 base = Some template
  ∧ view_day run2.2 base = Some template
  ∧ observe (run1.1, run2.2) = observe run1
  ∧ (∀ pts, run1.1 = Ok pts →
       ∀ l, l ∈ (pts ≫= λ p, unit_locs run1.2 (values p)) →
         (length h ≤ l < length run1.2)%nat)
  ∧ (∀ pts, run2.1 = Ok pts →
       ∀ l, l ∈ (pts ≫= λ p, unit_locs run2.2 (values p)) →
         (length run1.2 ≤ l)%nat).

(** What a call returns, when it does. *)
Definition returned {A} (r : res A) : option A :=
  match r with
  | Ok a => Some a
  | _ => None
  end.

(** *** The algorithm of section 4.3 of the specification

    These definitions follow the three steps of the specification, not
    the code: the samples are partitioned by day, the samples of each day
    are folded from the value of [emptyDayTemplate], which is the value of
    a deep copy of it, and the final states are flattened into points. *)
Section day_grouping.
Context `{Config} {R : Type}.
Context (accumulateFn : probe R → ST (list entry) unit).
Context (emptyDayTemplate : list entry).

(** Step 1: the samples of the day [d], in the order of arrival. *)
Definition samples_of_day (d : Z) (samples : list (probe R)) : list (probe R) :=
  filter (λ sample, midnight (start sample) = d) samples.

(** Step 2: the fold of the samples of a day from [dayState]; there is no
    final state when [accumulateFn] does not return on a sample. *)
Fixpoint fold_day (dayState : list entry) (samples : list (probe R))
  : option (list entry) :=
  match samples with
  | [] => Some dayState
  | sample :: samples =>
      match accumulateFn sample dayState with
      | (Ok _, dayState) => fold_day dayState samples
      | _ => None
      end
  end.

(** Step 3 for one day: a point for every unit of the final state. *)
Definition points_of_day (d : Z) (samples : list (probe R))
  : option (list (point entry)) :=
  match fold_day emptyDayTemplate (samples_of_day d samples) with
  | Some dayState => Some (Point d <$> dayState)
  | None => None
  end.

(** The three steps for the days [days], whose order the specification
    leaves open. *)
Definition day_grouping (days : list Z) (samples : list (probe R))
  : option (list (point entry)) :=
  match mapM (λ d, points_of_day d samples) days with
  | Some groups => Some (mjoin groups)
  | None => None
  end.
End day_grouping.

(** *** The classifier of section 4.1 of the specification *)

(** The index of the first pair whose threshold is at least the lag. *)
Fixpoint first_match_from (mean : jsnum) (l : list (string * jsnum)) (i : Z)
  : option Z :=
  match l with
  | [] => None
  | entry :: l =>
      if jsle mean entry.2 then Some i else first_match_from mean l (i + 1)
  end.

(** ... and the last index when there is none. *)
Definition first_match `{Config} (mean : jsnum) : Z :=
  default (Z.of_nat (length intervals) - 1) (first_match_from mean intervals 0).

(** *** The publish percentage of a slot *)

(** The properties [n], [total] and [percentage] of a slot. *)
Definition slot_n (e : entry) : jsval :=
  default Null (get_field N (entry_fields e)).
Definition slot_total (e : entry) : jsval :=
  default Null (get_field Total (entry_fields e)).
Definition slot_percentage (e : entry) : jsval :=
  default Null (get_field Percentage (entry_fields e)).

(** The index of the slot in which [percentage] counts a sample:
    [state]. *)
Definition state_of (p : probe publish) : nat :=
  if published (results p) then 1%nat else 0%nat.

(** The record at index [i] of the day state [memo] once [percentage] has
    been called on it for the samples [ps], one after the other, from the
    store [h], the clock showing [now]. *)
Definition slot_after `{Config} (now : Z) (ps : list (probe publish))
    (h : heap) (memo : loc) (i : nat) : option entry :=
  view_day (reduce (percentage now) memo ps h).2 memo ≫= (.!! i).

(** *** A configuration and samples to evaluate the code on *)

Definition example_config : Config := {|
  intervals := [("minute"%string, of_Z 60000); ("hour"%string, of_Z 3600000);
                ("day"%string, of_Z 86400000)];
  day := of_Z 86400000;
  publish_interval := of_Z 600000;
  midnight := λ ms, ms - ms `mod` 86400000;
|}.

(** The store after the module is loaded with [example_config]: the
    template of [transform.delta] is at 6, that of [transform.publish]
    at 9. *)
Definition example_store : heap := (@load example_config []).2.

Definition delta_sample (ms : Z) (mods : option (list string))
  : probe (option delta) :=
  Probe 1000 (Some (Delta (Some (Lag (of_Z ms))) mods)).

Definition publish_sample (ms : Z) (ok : bool) : probe publish :=
  Probe ms (Publish ok).

Definition bucket (ty : string) (ms : list string) (d n : Qc) : entry :=
  Entry (Some ms) (Bucket ty (Num (Fin d)) (Num (Fin n))).

Definition slot (ty : string) (p t n l : jsnum) : entry :=
  Entry None (Slot ty (Num p) (Num t) (Num n) (Num l)).

(** ** The server: [fetched] and the listener of ['probe::ran'] *)

(** [array.slice(-m)]: the last [m] elements, or all of them when there
    are fewer. *)
Definition slice_from_end {A} (m : nat) (l : list A) : list A :=
  drop (length l - m) l.

(** What [array.pop()] returns: the last element, [undefined] when the
    array is empty. *)
Definition pop {A} (l : list A) : option A := last l.

(** What [fetched] and the listener [ran] share for the probes of one type:
    [cache[type]] and [data[type]], objects keyed by registry (their
    properties in enumeration order); the parts handed to
    [pipe.primus.write]; and the store with the records of the day states.
    An element of [data[type][registry]] is a point or [undefined]. *)
Record served (R V : Type) : Type := Served {
  cache : list (string * list (probe R));
  data : list (string * list (option V));
  written : list (probe (option V));
  store : heap;
}.
Arguments Served {R V} _ _ _ _.
Arguments cache {R V} _.
Arguments data {R V} _.
Arguments written {R V} _.
Arguments store {R V} _.

Section server.
Context {R V : Type}.
(** [transform[type]] *)
Context (transform : list (probe R) → ST heap (list V)).

Definition call_transform (input : list (probe R))
  : ST (served R V) (list V) := λ s,
  let '(r, h) := transform input (store s) in
  (r, Served (cache s) (data s) (written s) h).

(** [cache[type][registry]] and [data[type][registry]] as the object of a
    method call: a [TypeError] when the property is [undefined]. *)
Definition cache_of (registry : string) : ST (served R V) (list (probe R)) :=
  λ s, match property (cache s) registry with
       | Some l => (Ok l, s)
       | None => (Throw, s)
       end.

Definition data_of (registry : string) : ST (served R V) (list (option V)) :=
  λ s, match property (data s) registry with
       | Some d => (Ok d, s)
       | None => (Throw, s)
       end.

Definition set_cache (registry : string) (l : list (probe R))
  : ST (served R V) unit := λ s,
  (Ok (), Served (assign registry l (cache s)) (data s) (written s) (store s)).

Definition set_data (registry : string) (d : list (option V))
  : ST (served R V) unit := λ s,
  (Ok (), Served (cache s) (assign registry d (data s)) (written s) (store s)).

(** [pipe.primus.write(part)] *)
Definition write_part (part : probe (option V)) : ST (served R V) unit := λ s,
  (Ok (), Served (cache s) (data s) (written s ++ [part]) (store s)).

(** The listener of ['probe::ran'] for a probe whose [name] is the type
    and whose [registry] is [registry]. [part] is a copy of the probe
    that gets the point as its [results]. *)
Definition ran (error : bool) (registry : string) (probe : probe R)
  : ST (served R V) unit :=
  if error then mret ()
  else
    l ← cache_of registry;
    set_cache registry (l ++ [probe]);;
    l ← cache_of registry;
    points ← call_transform (slice_from_end 10 l);
    let results := pop points in
    d ← data_of registry;
    set_data registry (d ++ [results]);;
    write_part (Probe (start probe) results).

(** The body of [for (var registry in cache[type])] in [fetched]; the
    transform gets a copy of the cached array. *)
Definition process (_ : unit) (registry : string) : ST (served R V) unit :=
  l ← cache_of registry;
  points ← call_transform l;
  set_data registry (Some <$> points).

(** [fetched(error, cache)] for one type: an [error] is thrown on (as an
    [Error]); otherwise [data[type]] starts as an empty object and gets a
    property for every registry of the cache. *)
Definition fetched (error : bool) : ST (served R V) unit :=
  if error then throw
  else λ s, reduce process () (cache s).*1
                   (Served (cache s) [] (written s) (store s)).
End server.

(** ** Definitions used in the properties of the records and the server *)

(** *** Records that a JSON text can hold *)

(** A finite number or [null]. *)
Definition json_number (v : jsval) : Prop :=
  match v with
  | Num (Fin _) | Null => True
  | Num _ => False
  end.

Definition json_safe (e : entry) : Prop :=
  match entry_fields e with
  | Bucket _ d n => json_number d ∧ json_number n
  | Slot _ p t n l =>
      json_number p ∧ json_number t ∧ json_number n ∧ json_number l
  end.

(** *** Properties of a record *)

Definition type_of (e : entry) : string :=
  match entry_fields e with
  | Bucket ty _ _ => ty
  | Slot ty _ _ _ _ => ty
  end.

Definition slot_lower (e : entry) : jsval :=
  default Null (get_field Lower (entry_fields e)).

(** The number of samples that a record has counted, when its [n] is a
    finite number or [null]. *)
Definition count_of (e : entry) : Qc :=
  match get_field N (entry_fields e) with
  | Some (Num (Fin q)) => q
  | _ => 0%Qc
  end.

Definition countable (e : entry) : Prop :=
  match get_field N (entry_fields e) with
  | Some (Num (Fin _)) | Some Null => True
  | _ => False
  end.

(** [memo[i].n++] on a record as a value. *)
Definition count_up (e : entry) : entry :=
  match entry_fields e with
  | Bucket ty d n =>
      Entry (entry_modules e) (Bucket ty d (Num (num_of n + of_Z 1)%js))
  | Slot ty p t n l =>
      Entry (entry_modules e) (Slot ty p t (Num (num_of n + of_Z 1)%js) l)
  end.

(** The [modules] of a record hold no name twice and no empty name. *)
Definition distinct_names (e : entry) : Prop :=
  match entry_modules e with
  | Some ms => NoDup ms ∧ ""%string ∉ ms
  | None => True
  end.

(** *** The days of a sequence of samples *)

(** The keys of [result] after [memo[n] = ...], from the keys [seen]
    before. *)
Definition see (seen : list Z) (n : Z) : list Z :=
  if decide (n ∈ seen) then seen else seen ++ [n].

(** The days of the samples, in the order in which [data.reduce] creates
    their properties in [result] ... *)
Definition days_seen `{Config} {R} (samples : list (probe R)) : list Z :=
  foldl see [] ((λ p, midnight (start p)) <$> samples).

(** ... and in the order of [Object.keys(result)]. *)
Definition day_keys `{Config} {R} (samples : list (probe R)) : list Z :=
  object_keys ((λ d, (d, ())) <$> days_seen samples).

(** *** The samples counted in a day *)

(** The sum of the [n] of the records of a day state. *)
Definition total_count (es : list entry) : Qc := Qcsum (count_of <$> es).

(** The number of the samples of the day [d]. *)
Definition samples_of `{Config} {R} (d : Z) (samples : list (probe R)) : Qc :=
  Qc_of_Z (Z.of_nat (length (filter (λ p, midnight (start p) = d) samples))).

(** What the day [d] has counted in [memo], the object that maps a day to
    its state. *)
Definition counted_in (memo : list (Z * list entry)) (d : Z) : Qc :=
  match property memo d with
  | Some es => total_count es
  | None => 0%Qc
  end.

(** *** The day states of the two day-grouped transforms *)

(** One bucket for each interval, in the order of the intervals. *)
Definition delta_state `{Config} (es : list entry) : Prop :=
  Forall is_bucket es ∧ type_of <$> es = intervals.*1.

(** Two slots of the given types. *)
Definition publish_state (types : list string) (es : list entry) : Prop :=
  length es = 2%nat ∧ Forall is_slot es ∧ type_of <$> es = types.

(** *** Data that are up to date *)

(** The data of every registry are the moving average of its whole
    cache. *)
Definition ping_data_current (s : served metrics (point metrics)) : Prop :=
  ∀ registry l,
    property (cache s) registry = Some l →
    property (data s) registry = Some (Some <$> movingAverage 3 l).

(** *** States of the server to evaluate the code on *)

Definition example_pings : served metrics (point metrics) :=
  Served [("npm"%string, three_pings)]
         [("npm"%string, Some <$> movingAverage 3 three_pings)] [] [].

Definition example_deltas : served (option delta) (point loc) :=
  Served [("npm"%string, [delta_sample 100000 (Some ["a"%string])])]
         [("npm"%string, [])] [] example_store.

Definition example_publishes : served publish (point loc) :=
  Served [("npm"%string, [publish_sample 600000 true])]
         [("npm"%string, [])] [] example_store.

(** * Properties *)

(** ** [movingAverage] *)

Lemma steps_nonzero n : steps n ≠ 0.
Proof. unfold steps. case_decide; lia. Qed.

(** C4: [movingAverage(n)] maps a sequence of N samples to N points, and
    the i-th point carries the [start] of the i-th sample, whatever the
    window size. *)
Theorem movingAverage_length_timestamps (n : Z) (data : list (probe metrics)) :
  length (movingAverage n data) = length data ∧
  ∀ i : nat, t <$> movingAverage n data !! i = start <$> data !! i.
Proof.
  unfold movingAverage. split.
  - apply length_imap.
  - intros i. rewrite list_lookup_imap. by destruct (data !! i).
Qed.

(** C10: with a window of one step the loop [while (++k < i)] starts at
    [k = i - 1] and its body never runs, so every point of
    [movingAverage(1)] has an empty [values] object. *)
Theorem movingAverage_one_no_values (data : list (probe metrics)) :
  movingAverage 1 data = (λ p, Point (start p) ∅) <$> data.
Proof.
  unfold movingAverage. rewrite <- imap_const.
  apply imap_ext. intros i p _. unfold average, window.
  replace (steps 1) with 1 by done.
  replace (1 - 1) with 0 by lia. done.
Qed.

Lemma accumulate_lookup n original k vals data x :
  accumulate n original k vals data x !! data
  = key_step n original data x (vals !! data) k.
Proof. unfold accumulate, key_step. by rewrite lookup_insert_eq. Qed.

Lemma accumulate_lookup_ne n original k vals data x key :
  data ≠ key → accumulate n original k vals data x !! key = vals !! key.
Proof. intros. unfold accumulate. by rewrite lookup_insert_ne. Qed.

Lemma foldl_accumulate_absent n original k key (l : list (string * jsnum)) vals :
  key ∉ l.*1 →
  foldl (λ vals '(data, x), accumulate n original k vals data x) vals l !! key
  = vals !! key.
Proof.
  revert vals. induction l as [|[d x] l IH]; intros vals Hk; [done|].
  cbn in Hk. apply not_elem_of_cons in Hk as [Hne Hk].
  cbn. rewrite IH by done. by apply accumulate_lookup_ne.
Qed.

Lemma foldl_accumulate_present n original k key x (l : list (string * jsnum)) vals :
  NoDup l.*1 → (key, x) ∈ l →
  foldl (λ vals '(data, x), accumulate n original k vals data x) vals l !! key
  = key_step n original key x (vals !! key) k.
Proof.
  revert vals. induction l as [|[d y] l IH]; intros vals Hnd Hin.
  { by apply elem_of_nil in Hin. }
  cbn in Hnd. apply NoDup_cons in Hnd as [Hd Hnd].
  apply elem_of_cons in Hin as [Heq|Hin]; cbn.
  - injection Heq as <- <-.
    rewrite foldl_accumulate_absent by done. apply accumulate_lookup.
  - rewrite IH by done. rewrite accumulate_lookup_ne; [done|].
    intros ->. apply Hd. apply list_elem_of_fmap. by exists (key, x).
Qed.

(** The [for ... in] loop touches each key of [probe.results] once and no
    other key. *)
Lemma for_in_lookup n original k res vals key :
  for_in n original k res vals !! key
  = match res !! key with
    | Some x => key_step n original key x (vals !! key) k
    | None => vals !! key
    end.
Proof.
  unfold for_in. destruct (res !! key) as [x|] eqn:Hres.
  - apply foldl_accumulate_present.
    + apply NoDup_fst_map_to_list.
    + by apply elem_of_map_to_list.
  - apply foldl_accumulate_absent.
    intros [[d x] [-> Hin]]%list_elem_of_fmap. cbn in Hres.
    apply elem_of_map_to_list in Hin. congruence.
Qed.

Lemma average_lookup n original i p key x :
  results p !! key = Some x →
  values (average n original i p) !! key
  = foldl (key_step n original key x) None (window n (Z.of_nat i)).
Proof.
  intros Hx. unfold average. cbn.
  change None with ((∅ : metrics) !! key) at 1.
  generalize (∅ : metrics).
  induction (window n (Z.of_nat i)) as [|k ks IH]; intros vals; [done|].
  cbn. rewrite IH. by rewrite for_in_lookup, Hx.
Qed.

(** A key that the sample itself lacks never appears in its point. *)
Lemma average_lookup_absent n original i p key :
  results p !! key = None → values (average n original i p) !! key = None.
Proof.
  intros Hx. unfold average. cbn.
  change None with ((∅ : metrics) !! key).
  generalize (∅ : metrics).
  induction (window n (Z.of_nat i)) as [|k ks IH]; intros vals; [done|].
  cbn. rewrite IH. by rewrite for_in_lookup, Hx.
Qed.

Lemma clamp_of_nat (i : nat) : clamp (Z.of_nat i) = i.
Proof. unfold clamp. case_decide; lia. Qed.

(** The index read by the loop body is never past the current sample. *)
Lemma clamp_lt (n : Z) (i : nat) (k : Z) :
  k ∈ window n (Z.of_nat i) → (clamp k ≤ i)%nat.
Proof. unfold window, clamp. intros Hk%elem_of_seqZ. case_decide; lia. Qed.

Lemma Qcsum_cons x xs : Qcsum (x :: xs) = (x + Qcsum xs)%Qc.
Proof. done. Qed.

Lemma Qcsum_app (xs ys : list Qc) : Qcsum (xs ++ ys) = (Qcsum xs + Qcsum ys)%Qc.
Proof.
  induction xs as [|x xs IH]; [by rewrite Qcplus_0_l|].
  by rewrite <- app_comm_cons, !Qcsum_cons, IH, Qcplus_assoc.
Qed.

Lemma Qc_of_Z_pos n : 0 < n → (0 < Qc_of_Z n)%Qc.
Proof. intros. rewrite <- Z2Qc_inj_0. by apply (proj1 (Z2Qc_inj_lt 0 n)). Qed.

Lemma jsdiv_fin q n : 0 < n → (Fin q / of_Z n)%js = Fin (q / Qc_of_Z n)%Qc.
Proof.
  intros Hn. unfold jsdiv, of_Z. case_decide as Hz; [|done].
  apply Qc_of_Z_pos in Hn. rewrite Hz in Hn. by apply Qclt_not_eq in Hn.
Qed.

Lemma Qcdiv_nonneg q n : 0 < n → (0 ≤ q)%Qc → (0 ≤ q / Qc_of_Z n)%Qc.
Proof.
  intros Hn Hq. apply Qcmult_nonneg_nonneg; [done|].
  apply Qclt_le_weak, Qcinv_pos, Qc_of_Z_pos, Hn.
Qed.

Section window_sum.
Context (n : Z) (original : list (probe metrics)) (key : string) (qx : Qc).
Context (Hn : 0 < n) (Hqx : (0 ≤ qx)%Qc).

(** While every value is non-negative the running sum is at least the
    seed [qx / n], so [values[data] || seed] never replaces it by anything
    else. *)
Lemma key_step_running s k :
  (qx / Qc_of_Z n ≤ s)%Qc → nonneg_at original key k →
  key_step n original key (Fin qx) (Some (Fin s)) k
  = Some (Fin (s + contribution n original key k)%Qc)
  ∧ (qx / Qc_of_Z n ≤ s + contribution n original key k)%Qc.
Proof.
  intros Hs (q & Hq & Hq0). unfold key_step, contribution. rewrite Hq. cbn.
  rewrite !jsdiv_fin by done. split.
  - case_bool_decide as Hz; [done|].
    subst s. cbn. do 3 f_equal.
    apply (anti_symm Qcle); [done|]. by apply Qcdiv_nonneg.
  - trans s; [done|]. rewrite <- (Qcplus_0_r s) at 1.
    apply Qcplus_le_mono_l. by apply Qcdiv_nonneg.
Qed.

Lemma key_step_first k :
  nonneg_at original key k →
  key_step n original key (Fin qx) None k
  = Some (Fin (qx / Qc_of_Z n + contribution n original key k)%Qc)
  ∧ (qx / Qc_of_Z n ≤ qx / Qc_of_Z n + contribution n original key k)%Qc.
Proof.
  intros (q & Hq & Hq0). unfold key_step, contribution. rewrite Hq. cbn.
  rewrite !jsdiv_fin by done. split; [done|].
  rewrite <- (Qcplus_0_r (qx / _)) at 1.
  apply Qcplus_le_mono_l. by apply Qcdiv_nonneg.
Qed.

Lemma foldl_key_step_running ks s :
  (qx / Qc_of_Z n ≤ s)%Qc → Forall (nonneg_at original key) ks →
  foldl (key_step n original key (Fin qx)) (Some (Fin s)) ks
  = Some (Fin (s + Qcsum (contribution n original key <$> ks))%Qc).
Proof.
  intros Hs Hks. revert s Hs.
  induction Hks as [|k ks Hk _ IH]; intros s Hs.
  { cbn. by rewrite Qcplus_0_r. }
  rewrite fmap_cons, Qcsum_cons. cbn [foldl].
  destruct (key_step_running s k Hs Hk) as [-> Hs'].
  rewrite IH by done. by rewrite Qcplus_assoc.
Qed.

Lemma foldl_key_step k ks :
  Forall (nonneg_at original key) (k :: ks) →
  foldl (key_step n original key (Fin qx)) None (k :: ks)
  = Some (Fin (qx / Qc_of_Z n
               + Qcsum (contribution n original key <$> k :: ks))%Qc).
Proof.
  intros [Hk Hks]%Forall_cons. rewrite fmap_cons, Qcsum_cons. cbn [foldl].
  destruct (key_step_first k Hk) as [-> Hs].
  rewrite foldl_key_step_running by done. by rewrite Qcplus_assoc.
Qed.

Lemma sum_metric_fin ks :
  Forall (nonneg_at original key) ks →
  sum_metric original key ks
  = Fin (Qcsum ((λ k, fin_of (metric_at original k key)) <$> ks)).
Proof.
  unfold sum_metric. intros Hks.
  assert (∀ a, foldl (λ acc k, (acc + to_number (metric_at original k key))%js)
                 (Fin a) ks
               = Fin (a + Qcsum ((λ k, fin_of (metric_at original k key)) <$> ks))%Qc)
    as H; [|by rewrite H, Qcplus_0_l].
  induction Hks as [|k ks (q & Hq & _) _ IH]; intros a.
  { cbn. by rewrite Qcplus_0_r. }
  rewrite fmap_cons, Qcsum_cons. cbn [foldl]. rewrite Hq. cbn.
  rewrite IH. by rewrite Qcplus_assoc.
Qed.

Lemma Qcsum_contribution ks :
  Qcsum (contribution n original key <$> ks)
  = (Qcsum ((λ k, fin_of (metric_at original k key)) <$> ks) / Qc_of_Z n)%Qc.
Proof.
  induction ks as [|k ks IH]; rewrite ?fmap_cons, ?Qcsum_cons.
  - unfold Qcdiv. by rewrite Qcmult_0_l.
  - rewrite IH. unfold contribution, Qcdiv. by rewrite Qcmult_plus_distr_l.
Qed.
End window_sum.

(** C5, as the specification words it, fails on the scenario of the
    specification itself (three pings with latencies 10, 20, 30 and a
    window of 2): the second point is 15, half of the sample itself plus
    half of its predecessor, where the mean of the two samples before it
    (index clamped) is 10. *)
Lemma movingAverage_not_preceding_mean :
  movingAverage 2 three_pings !! 1%nat ≫= (λ pt, values pt !! "latency"%string)
  = Some (of_Z 15)
  ∧ preceding_mean 2 three_pings 1 "latency" = of_Z 10
  ∧ movingAverage 2 three_pings !! 1%nat ≫= (λ pt, values pt !! "latency"%string)
    ≠ Some (preceding_mean 2 three_pings 1 "latency").
Proof.
  split_and!; apply (bool_decide_unpack _); vm_compute; exact I.
Qed.

(** C5, amended: for a window of at least 2 steps ([n || 5 >= 2]) and a
    metric that is finite and non-negative in the samples concerned, the
    i-th value is the mean over the samples at the indices
    [i - n + 1 .. i], sample [i] itself included, an index below 0
    standing for index 0. *)
Theorem movingAverage_trailing_mean (n : Z) (data : list (probe metrics))
    (i : nat) (key : string) :
  2 ≤ steps n →
  (i < length data)%nat →
  (∀ k, Z.of_nat i - steps n < k ≤ Z.of_nat i → nonneg_at data key k) →
  movingAverage n data !! i ≫= (λ pt, values pt !! key)
  = Some (trailing_mean (steps n) data i key).
Proof.
  unfold movingAverage. generalize (steps n). clear n.
  intros n Hn Hi Hgood.
  destruct (lookup_lt_is_Some_2 data i Hi) as [p Hp].
  rewrite list_lookup_imap, Hp.
  cbn [fmap option_fmap option_map mbind option_bind].
  destruct (Hgood (Z.of_nat i)) as (qx & Hqx & Hqx0); [lia|].
  assert (results p !! key = Some (Fin qx)) as Hres.
  { unfold metric_at in Hqx. by rewrite clamp_of_nat, Hp in Hqx. }
  rewrite (average_lookup _ _ _ _ _ _ Hres).
  unfold trailing_mean, window.
  replace n with (n - 1 + 1) at 5 by lia.
  rewrite seqZ_app by lia.
  replace (seqZ (Z.of_nat i - n + 1 + (n - 1)) 1) with [Z.of_nat i].
  2:{ replace (Z.of_nat i - n + 1 + (n - 1)) with (Z.of_nat i) by lia. done. }
  assert (Forall (nonneg_at data key) (seqZ (Z.of_nat i - n + 1) (n - 1))) as Hks.
  { apply Forall_forall. intros k Hk%elem_of_seqZ. apply Hgood. lia. }
  rewrite sum_metric_fin.
  2:{ apply Forall_app. split; [done|]. apply Forall_singleton. by exists qx. }
  rewrite jsdiv_fin by lia.
  destruct (seqZ (Z.of_nat i - n + 1) (n - 1)) as [|k ks] eqn:Hseq.
  { apply (f_equal length) in Hseq. rewrite length_seqZ in Hseq. cbn in Hseq. lia. }
  rewrite (foldl_key_step n data key qx) by (done || lia).
  rewrite Qcsum_contribution. do 2 f_equal.
  rewrite fmap_app, Qcsum_app. cbn. rewrite Hqx. cbn.
  unfold Qcdiv. ring.
Qed.

Lemma movingAverage_trailing_mean_witness :
  movingAverage 2 three_pings !! 1%nat ≫= (λ pt, values pt !! "latency"%string)
  = Some (trailing_mean (steps 2) three_pings 1 "latency").
Proof.
  apply (movingAverage_trailing_mean 2 three_pings 1 "latency").
  - vm_compute. discriminate.
  - cbn. lia.
  - intros k Hk. change (steps 2) with 2 in Hk.
    assert (k = 0 ∨ k = 1) as [-> | ->] by lia.
    + exists (Qc_of_Z 10). split; [reflexivity | by vm_compute].
    + exists (Qc_of_Z 20). split; [reflexivity | by vm_compute].
Defined.

(** ** The store: views depend only on the cells of the structure *)

Lemma view_unit_agree (h h' : heap) r :
  (∀ l, l ∈ unit_locs h r → h' !! l = h !! l) →
  view_unit h' r = view_unit h r ∧ unit_locs h' r = unit_locs h r.
Proof.
  unfold view_unit, unit_locs. intros Hag.
  assert (h' !! r = h !! r) as Hr.
  { apply Hag. destruct (h !! r) as [[| |[m|] ?]|]; set_solver. }
  rewrite Hr. destruct (h !! r) as [[| |[m|] fs]|]; try done.
  rewrite (Hag m) by set_solver. done.
Qed.

Lemma view_unit_locs_valid (h : heap) r e :
  view_unit h r = Some e → ∀ l, l ∈ unit_locs h r → (l < length h)%nat.
Proof.
  unfold view_unit, unit_locs. intros Hv l Hl.
  destruct (h !! r) as [[| |[m|] fs]|] eqn:Hr; try done.
  - destruct (h !! m) as [[]|] eqn:Hm; try done.
    apply elem_of_cons in Hl as [->|Hl]; [by eapply lookup_lt_Some|].
    apply list_elem_of_singleton in Hl as ->. by eapply lookup_lt_Some.
  - apply list_elem_of_singleton in Hl as ->. by eapply lookup_lt_Some.
Qed.

Lemma bind_agree (h h' : heap) (refs : list loc) :
  (∀ l, l ∈ refs ≫= unit_locs h → h' !! l = h !! l) →
  refs ≫= unit_locs h' = refs ≫= unit_locs h
  ∧ mapM (view_unit h') refs = mapM (view_unit h) refs.
Proof.
  induction refs as [|r refs IH]; intros Hag; [done|].
  rewrite !bind_cons. rewrite bind_cons in Hag.
  destruct (view_unit_agree h h' r) as [Hv Hu].
  { intros l Hl. apply Hag, elem_of_app. by left. }
  destruct IH as [IH1 IH2].
  { intros l Hl. apply Hag, elem_of_app. by right. }
  split; [by rewrite Hu, IH1|]. cbn. by rewrite Hv, IH2.
Qed.

Lemma view_day_agree (h h' : heap) memo :
  (∀ l, l ∈ day_locs h memo → h' !! l = h !! l) →
  view_day h' memo = view_day h memo ∧ day_locs h' memo = day_locs h memo.
Proof.
  unfold view_day, day_locs. intros Hag.
  assert (h' !! memo = h !! memo) as Hr.
  { apply Hag. destruct (h !! memo) as [[]|]; set_solver. }
  rewrite Hr. destruct (h !! memo) as [[refs| |]|] eqn:Hm; try done.
  destruct (bind_agree h h' refs) as [-> ->]; [|done].
  intros l Hl. apply Hag, elem_of_cons. by right.
Qed.

Lemma view_day_locs_valid (h : heap) memo es :
  view_day h memo = Some es → ∀ l, l ∈ day_locs h memo → (l < length h)%nat.
Proof.
  unfold view_day, day_locs. intros Hv l Hl.
  destruct (h !! memo) as [[refs| |]|] eqn:Hm; try done.
  apply elem_of_cons in Hl as [->|Hl]; [by eapply lookup_lt_Some|].
  apply list_elem_of_bind in Hl as (r & Hl & Hr).
  apply mapM_Some in Hv.
  apply list_elem_of_lookup in Hr as [i Hi].
  destruct (Forall2_lookup_l _ _ _ _ _ Hv Hi) as (e & _ & He).
  by eapply view_unit_locs_valid.
Qed.

(** Cells added at the end of the store leave what was there as it is. *)
Lemma view_day_app (h new : heap) memo es :
  view_day h memo = Some es →
  view_day (h ++ new) memo = Some es ∧ day_locs (h ++ new) memo = day_locs h memo.
Proof.
  intros Hv. rewrite <- Hv. apply view_day_agree.
  intros l Hl. apply lookup_app_l. by eapply view_day_locs_valid.
Qed.

Lemma view_unit_app (h new : heap) r e :
  view_unit h r = Some e →
  view_unit (h ++ new) r = Some e ∧ unit_locs (h ++ new) r = unit_locs h r.
Proof.
  intros Hv. rewrite <- Hv. apply view_unit_agree.
  intros l Hl. apply lookup_app_l. by eapply view_unit_locs_valid.
Qed.

(** ** The monad *)

Lemma bind_Ok {S A B} (m : ST S A) (k : A → ST S B) s a s' :
  m s = (Ok a, s') → (m ≫= k) s = k a s'.
Proof. unfold mbind, ST_bind. by intros ->. Qed.

Lemma bind_Throw {S A B} (m : ST S A) (k : A → ST S B) s s' :
  m s = (Throw, s') → (m ≫= k) s = (Throw, s').
Proof. unfold mbind, ST_bind. by intros ->. Qed.

Lemma bind_Stuck {S A B} (m : ST S A) (k : A → ST S B) s s' :
  m s = (Stuck, s') → (m ≫= k) s = (Stuck, s').
Proof. unfold mbind, ST_bind. by intros ->. Qed.

(** ** Simulation of a computation on the store by one on the value *)


Lemma sim_ret {A} memo (a : A) : sim memo (mret a) (mret a).
Proof. intros h es Hv Hnd. by exists h. Qed.

Lemma sim_throw {A} memo : sim memo (@throw _ A) throw.
Proof. intros h es Hv Hnd. by exists h. Qed.

Lemma sim_stuck {A} memo : sim memo (@stuck _ A) stuck.
Proof. intros h es Hv Hnd. by exists h. Qed.

Lemma sim_bind {A B} memo (m : ST heap A) mv (k : A → ST heap B) kv :
  sim memo m mv → (∀ a, sim memo (k a) (kv a)) →
  sim memo (m ≫= k) (mv ≫= kv).
Proof.
  intros Hm Hk h es Hv Hnd.
  destruct (Hm h es Hv Hnd) as (h1 & Hrun & Hv1 & Hl1 & Hlen1 & Hfr1).
  unfold mbind at 2 3, ST_bind. destruct (mv es) as [[a| |] es1] eqn:Hmv; cbn in *.
  - destruct (Hk a h1 es1 Hv1) as (h2 & Hrun2 & Hv2 & Hl2 & Hlen2 & Hfr2).
    { by rewrite Hl1. }
    exists h2. rewrite (bind_Ok _ _ _ _ _ Hrun). split_and!; try done.
    + congruence.
    + congruence.
    + intros l Hl. rewrite Hfr2 by (by rewrite Hl1). by apply Hfr1.
  - exists h1. by rewrite (bind_Throw _ _ _ _ Hrun).
  - exists h1. by rewrite (bind_Stuck _ _ _ _ Hrun).
Qed.

Lemma sim_forEach {A B} memo (l : list A) (f : A → Z → B → ST heap B) fv :
  (∀ x i b, sim memo (f x i b) (fv x i b)) →
  ∀ i b, sim memo (forEach l i f b) (forEach l i fv b).
Proof.
  intros Hf. induction l as [|x l IH]; intros i b; cbn.
  - apply sim_ret.
  - apply sim_bind; [apply Hf|]. intros b'. apply IH.
Qed.

Lemma NoDup_bind_lookup {A B} (f : A → list B) (l : list A) (i j : nat) x y z :
  NoDup (l ≫= f) → i ≠ j → l !! i = Some x → l !! j = Some y →
  z ∈ f x → z ∉ f y.
Proof.
  revert i j. induction l as [|a l IH]; intros i j Hnd Hij Hi Hj Hx Hy; [done|].
  rewrite bind_cons in Hnd. apply NoDup_app in Hnd as (_ & Hdisj & Hnd).
  destruct i as [|i], j as [|j]; cbn in *; simplify_eq.
  - apply (Hdisj z Hx). apply list_elem_of_bind. exists y.
    split; [done|]. by eapply list_elem_of_lookup_2.
  - apply (Hdisj z Hy). apply list_elem_of_bind. exists x.
    split; [done|]. by eapply list_elem_of_lookup_2.
  - eapply (IH i j); eauto.
Qed.

Lemma read_Some (h : heap) l c : h !! l = Some c → read l h = (Ok c, h).
Proof. unfold read. by intros ->. Qed.

Lemma unit_at_run (h : heap) memo refs i :
  h !! memo = Some (Units refs) →
  unit_at memo i h
  = (if decide (0 ≤ i) then
       match refs !! Z.to_nat i with Some r => Ok r | None => Throw end
     else Throw, h).
Proof.
  intros Hm. unfold unit_at. rewrite (bind_Ok _ _ _ _ _ (read_Some _ _ _ Hm)).
  case_decide; [|done]. by destruct (refs !! Z.to_nat i).
Qed.

(** What [memo[i]] is in the store, from what it is in the value. *)
Lemma record_at_value (h : heap) memo es i :
  view_day h memo = Some es →
  match (entry_at i es).1 with
  | Ok e =>
      ∃ refs r m,
        h !! memo = Some (Units refs)
        ∧ 0 ≤ i
        ∧ refs !! Z.to_nat i = Some r
        ∧ es !! Z.to_nat i = Some e
        ∧ h !! r = Some (Rec m (entry_fields e))
        ∧ record_at memo i h = (Ok (r, m, entry_fields e), h)
        ∧ match m with
          | Some ml => ∃ items, entry_modules e = Some items
                                ∧ h !! ml = Some (Names items)
          | None => entry_modules e = None
          end
  | Throw => record_at memo i h = (Throw, h)
  | Stuck => False
  end.
Proof.
  unfold view_day, entry_at. intros Hv.
  destruct (h !! memo) as [[refs| |]|] eqn:Hm; try done.
  apply mapM_Some in Hv. unfold record_at.
  case_decide as Hi.
  2:{ cbn. apply bind_Throw. by rewrite (unit_at_run _ _ refs), decide_False. }
  destruct (es !! Z.to_nat i) as [e|] eqn:He; cbn.
  - destruct (Forall2_lookup_r _ _ _ _ _ Hv He) as (r & Hr & Hview).
    assert (unit_at memo i h = (Ok r, h)) as Hrun.
    { by rewrite (unit_at_run _ _ refs), decide_True, Hr. }
    unfold view_unit in Hview.
    destruct (h !! r) as [[| |[ml|] fs]|] eqn:Hcell; try done.
    + destruct (h !! ml) as [[|items|]|] eqn:Hml; try done.
      injection Hview as <-. exists refs, r, (Some ml). cbn.
      split_and!; try done; [|by exists items].
      rewrite (bind_Ok _ _ _ _ _ Hrun).
      by rewrite (bind_Ok _ _ _ _ _ (read_Some _ _ _ Hcell)).
    + injection Hview as <-. exists refs, r, None. cbn.
      split_and!; try done.
      rewrite (bind_Ok _ _ _ _ _ Hrun).
      by rewrite (bind_Ok _ _ _ _ _ (read_Some _ _ _ Hcell)).
  - apply Forall2_length in Hv. apply lookup_ge_None in He.
    apply bind_Throw. rewrite (unit_at_run _ _ refs), decide_True by done.
    by rewrite (proj2 (lookup_ge_None refs (Z.to_nat i))) by lia.
Qed.

Lemma bind_ext_lookup {A B} (f g : A → list B) (l : list A) :
  (∀ (j : nat) x, l !! j = Some x → f x = g x) → l ≫= f = l ≫= g.
Proof.
  induction l as [|a l IH]; intros Hfg; [done|].
  rewrite !bind_cons, (Hfg 0%nat a) by done.
  f_equal. apply IH. intros j x Hx. by apply (Hfg (S j)).
Qed.

(** Writing one cell of the record [memo[i]] in a way that keeps the
    cells of the record the same. *)
Lemma update_unit (h : heap) memo es refs (i : nat) r l c e' :
  h !! memo = Some (Units refs) →
  view_day h memo = Some es →
  NoDup (day_locs h memo) →
  refs !! i = Some r →
  l ∈ unit_locs h r →
  view_unit (<[l := c]> h) r = Some e' →
  unit_locs (<[l := c]> h) r = unit_locs h r →
  view_day (<[l := c]> h) memo = Some (<[i := e']> es)
  ∧ day_locs (<[l := c]> h) memo = day_locs h memo
  ∧ length (<[l := c]> h) = length h
  ∧ ∀ l', l' ∉ day_locs h memo → <[l := c]> h !! l' = h !! l'.
Proof.
  intros Hm Hv Hnd Hr Hl Hv' Hu'.
  assert (l ∈ refs ≫= unit_locs h) as Hin.
  { apply list_elem_of_bind. exists r. split; [done|].
    by eapply list_elem_of_lookup_2. }
  unfold view_day, day_locs in *. rewrite Hm in *.
  apply NoDup_cons in Hnd as [Hmemo Hnd].
  assert (l ≠ memo) as Hne by (by intros ->).
  rewrite list_lookup_insert_ne, Hm by done.
  apply mapM_Some in Hv.
  assert (∀ (j : nat) rj, j ≠ i → refs !! j = Some rj →
            view_unit (<[l := c]> h) rj = view_unit h rj
            ∧ unit_locs (<[l := c]> h) rj = unit_locs h rj) as Hother.
  { intros j rj Hj Hrj. apply view_unit_agree. intros l' Hl'.
    apply list_lookup_insert_ne. intros <-.
    by eapply (NoDup_bind_lookup (unit_locs h) refs i j r rj l). }
  split_and!.
  - apply mapM_Some. apply Forall2_same_length_lookup_2.
    { rewrite length_insert. by eapply Forall2_length. }
    intros j rj ej Hrj Hej. destruct (decide (j = i)) as [->|Hj].
    + rewrite list_lookup_insert_eq in Hej.
      2:{ apply Forall2_length in Hv. rewrite <- Hv. by eapply lookup_lt_Some. }
      by simplify_eq.
    + rewrite list_lookup_insert_ne in Hej by done.
      destruct (Hother j rj Hj Hrj) as [-> _].
      by eapply (Forall2_lookup_lr _ _ _ _ _ _ Hv).
  - f_equal. clear Hnd Hin Hv.
    assert (∀ (j : nat) rj, refs !! j = Some rj →
              unit_locs (<[l := c]> h) rj = unit_locs h rj) as Hall.
    { intros j rj Hrj. destruct (decide (j = i)) as [->|Hj]; [by simplify_eq|].
      by apply (Hother j rj). }
    by apply bind_ext_lookup.
  - apply length_insert.
  - intros l' Hl'. apply list_lookup_insert_ne. intros <-.
    apply Hl'. by right.
Qed.

Lemma NoDup_bind_elem {A B} (f : A → list B) (l : list A) x :
  NoDup (l ≫= f) → x ∈ l → NoDup (f x).
Proof.
  induction l as [|a l IH]; intros Hnd Hx; [by apply elem_of_nil in Hx|].
  rewrite bind_cons in Hnd. apply NoDup_app in Hnd as (Ha & _ & Hnd).
  apply elem_of_cons in Hx as [->|Hx]; auto.
Qed.

Lemma entry_at_state i es : (entry_at i es).2 = es.
Proof. unfold entry_at. case_decide; [|done]. by destruct (es !! Z.to_nat i). Qed.

Lemma entry_at_run i es : entry_at i es = ((entry_at i es).1, es).
Proof. rewrite <- (entry_at_state i es) at 3. by destruct (entry_at i es). Qed.

Lemma bind_entry_at {A} i (k : entry → ST (list entry) A) es :
  (entry_at i ≫= k) es
  = match (entry_at i es).1 with
    | Ok e => k e es
    | Throw => (Throw, es)
    | Stuck => (Stuck, es)
    end.
Proof.
  unfold mbind, ST_bind. rewrite (entry_at_run i es).
  by destruct (entry_at i es).1.
Qed.

(** The four accessors on the store are simulated by those on the value. *)
Lemma sim_get memo i f :
  sim memo (get (in_store memo) i f) (get in_value i f).
Proof.
  intros h es Hv Hnd. exists h. cbn.
  pose proof (record_at_value h memo es i Hv) as Hrec.
  rewrite bind_entry_at.
  destruct (entry_at i es).1 as [e| |]; [|by rewrite (bind_Throw _ _ _ _ Hrec)|done].
  destruct Hrec as (refs & r & m & _ & _ & _ & _ & _ & Hrun & _).
  rewrite (bind_Ok _ _ _ _ _ Hrun).
  by destruct (get_field f (entry_fields e)).
Qed.

Lemma sim_modules_of memo i :
  sim memo (modules_of (in_store memo) i) (modules_of in_value i).
Proof.
  intros h es Hv Hnd. exists h. cbn.
  pose proof (record_at_value h memo es i Hv) as Hrec.
  rewrite bind_entry_at.
  destruct (entry_at i es).1 as [e| |]; [|by rewrite (bind_Throw _ _ _ _ Hrec)|done].
  destruct Hrec as (refs & r & m & _ & _ & _ & _ & _ & Hrun & Hmods).
  rewrite (bind_Ok _ _ _ _ _ Hrun).
  destruct m as [ml|].
  - destruct Hmods as (items & -> & Hml). unfold names_at.
    by rewrite (bind_Ok _ _ _ _ _ (read_Some _ _ _ Hml)).
  - by rewrite Hmods.
Qed.

Lemma sim_set memo i f v :
  sim memo (set (in_store memo) i f v) (set in_value i f v).
Proof.
  intros h es Hv Hnd. cbn.
  pose proof (record_at_value h memo es i Hv) as Hrec.
  rewrite bind_entry_at.
  destruct (entry_at i es).1 as [e| |];
    [|exists h; by rewrite (bind_Throw _ _ _ _ Hrec)|done].
  destruct Hrec as (refs & r & m & Hm & Hi & Hr & He & Hcell & Hrun & Hmods).
  rewrite (bind_Ok _ _ _ _ _ Hrun).
  destruct (set_field f v (entry_fields e)) as [fs'|]; [|by exists h].
  exists (<[r := Rec m fs']> h). split; [done|]. cbn.
  assert (r ∈ unit_locs h r) as Hin.
  { unfold unit_locs. rewrite Hcell. destruct m; apply elem_of_cons; by left. }
  assert (NoDup (unit_locs h r)) as Hndr.
  { unfold day_locs in Hnd. rewrite Hm in Hnd. apply NoDup_cons in Hnd as [_ Hnd].
    eapply NoDup_bind_elem; [done|]. by eapply list_elem_of_lookup_2. }
  assert (<[r := Rec m fs']> h !! r = Some (Rec m fs')) as Hcell'.
  { apply list_lookup_insert_eq. by eapply lookup_lt_Some. }
  eapply update_unit; try done.
  - unfold view_unit. rewrite Hcell'. destruct m as [ml|].
    + destruct Hmods as (items & -> & Hml).
      rewrite list_lookup_insert_ne, Hml; [done|].
      unfold unit_locs in Hndr. rewrite Hcell in Hndr.
      apply NoDup_cons in Hndr as [Hne _]. set_solver.
    + by rewrite Hmods.
  - unfold unit_locs. by rewrite Hcell', Hcell.
Qed.

Lemma sim_push memo i xs :
  sim memo (push (in_store memo) i xs) (push in_value i xs).
Proof.
  intros h es Hv Hnd. cbn.
  pose proof (record_at_value h memo es i Hv) as Hrec.
  rewrite bind_entry_at.
  destruct (entry_at i es).1 as [e| |];
    [|exists h; by rewrite (bind_Throw _ _ _ _ Hrec)|done].
  destruct Hrec as (refs & r & m & Hm & Hi & Hr & He & Hcell & Hrun & Hmods).
  rewrite (bind_Ok _ _ _ _ _ Hrun).
  destruct m as [ml|]; [|rewrite Hmods; by exists h].
  destruct Hmods as (items & -> & Hml). unfold names_at.
  rewrite (bind_Ok _ _ _ _ _ (bind_Ok _ _ _ _ _ (read_Some _ _ _ Hml))).
  exists (<[ml := Names (items ++ xs)]> h). split; [done|]. cbn.
  assert (NoDup (unit_locs h r)) as Hndr.
  { unfold day_locs in Hnd. rewrite Hm in Hnd. apply NoDup_cons in Hnd as [_ Hnd].
    eapply NoDup_bind_elem; [done|]. by eapply list_elem_of_lookup_2. }
  assert (r ≠ ml) as Hne.
  { unfold unit_locs in Hndr. rewrite Hcell in Hndr.
    apply NoDup_cons in Hndr as [Hne _]. set_solver. }
  assert (<[ml := Names (items ++ xs)]> h !! r = Some (Rec (Some ml) (entry_fields e)))
    as Hcell' by (by rewrite list_lookup_insert_ne).
  eapply update_unit; try done.
  - unfold unit_locs. rewrite Hcell. set_solver.
  - unfold view_unit. rewrite Hcell'.
    rewrite list_lookup_insert_eq; [done|]. by eapply lookup_lt_Some.
  - unfold unit_locs. by rewrite Hcell', Hcell.
Qed.

Section sim_accumulators.
Context `{Config} (memo : loc).

Lemma sim_each probe entry i interval :
  sim memo (each (in_store memo) probe entry i interval)
           (each in_value probe entry i interval).
Proof.
  unfold each. destruct (results probe ≫= lag) as [l|]; [|apply sim_ret].
  apply sim_bind; [apply sim_get|]. intros d.
  apply sim_bind; [apply sim_set|]. intros _.
  destruct (found interval); [apply sim_ret|].
  destruct (jsle (mean l) entry.2); apply sim_ret.
Qed.

Lemma sim_timeUnit_body probe :
  sim memo (timeUnit_body (in_store memo) probe) (timeUnit_body in_value probe).
Proof.
  unfold timeUnit_body.
  apply sim_bind; [apply sim_forEach; intros; apply sim_each|]. intros interval.
  apply sim_bind; [apply sim_get|]. intros n.
  apply sim_bind; [apply sim_set|]. intros _.
  destruct (results probe) as [r|]; [|apply sim_throw].
  destruct (modules r) as [mods|]; [|apply sim_ret].
  apply sim_bind; [apply sim_modules_of|]. intros present.
  apply sim_push.
Qed.

Lemma sim_percentage_body now probe :
  sim memo (percentage_body (in_store memo) now probe)
           (percentage_body in_value now probe).
Proof.
  unfold percentage_body.
  apply sim_bind; [apply sim_get|]. intros total.
  apply sim_bind.
  { destruct (jsgt _ _); [|apply sim_ret].
    apply sim_bind; [apply sim_set|]. intros _. apply sim_set. }
  intros _.
  apply sim_bind; [apply sim_get|]. intros n.
  apply sim_bind; [apply sim_set|]. intros _.
  apply sim_bind; [apply sim_get|]. intros n'.
  apply sim_bind; [apply sim_get|]. intros total'.
  apply sim_bind; [apply sim_set|]. intros _.
  apply sim_bind; [apply sim_get|]. intros success.
  apply sim_set.
Qed.

(** The accumulators return the [memo] they were given. *)
Lemma sim_timeUnit probe :
  sim memo (timeUnit memo probe) (timeUnit_body in_value probe;; mret memo).
Proof.
  unfold timeUnit. apply sim_bind; [apply sim_timeUnit_body|].
  intros _. apply sim_ret.
Qed.

Lemma sim_percentage now probe :
  sim memo (percentage now memo probe)
           (percentage_body in_value now probe;; mret memo).
Proof.
  unfold percentage. apply sim_bind; [apply sim_percentage_body|].
  intros _. apply sim_ret.
Qed.
End sim_accumulators.

(** ** [build] and [clone] make new cells only *)

Lemma build_entry_spec e (h : heap) :
  ∃ r (new : heap),
    build_entry e h = (Ok r, h ++ new)
    ∧ view_unit (h ++ new) r = Some e
    ∧ NoDup (unit_locs (h ++ new) r)
    ∧ ∀ l, l ∈ unit_locs (h ++ new) r → (length h ≤ l < length (h ++ new))%nat.
Proof.
  destruct e as [[items|] fs]; unfold build_entry; cbn.
  - exists (S (length h)), [Names items; Rec (Some (length h)) fs].
    assert ((h ++ [Names items; Rec (Some (length h)) fs]) !! S (length h)
            = Some (Rec (Some (length h)) fs)) as Hr.
    { rewrite lookup_app_r by lia. by replace (S (length h) - length h)%nat with 1%nat by lia. }
    assert ((h ++ [Names items; Rec (Some (length h)) fs]) !! length h
            = Some (Names items)) as Hm.
    { rewrite lookup_app_r by lia. by rewrite Nat.sub_diag. }
    split_and!.
    + unfold mbind, ST_bind, alloc, mret, ST_ret. cbn.
      rewrite length_app, <- app_assoc. cbn. do 3 f_equal. lia.
    + unfold view_unit. by rewrite Hr, Hm.
    + unfold unit_locs. rewrite Hr. apply NoDup_cons. split; [|apply NoDup_singleton].
      rewrite list_elem_of_singleton. lia.
    + unfold unit_locs. rewrite Hr, length_app. cbn. intros l Hl.
      apply elem_of_cons in Hl as [->|Hl]; [lia|].
      apply list_elem_of_singleton in Hl as ->. lia.
  - exists (length h), [Rec None fs].
    assert ((h ++ [Rec None fs]) !! length h = Some (Rec None fs)) as Hr.
    { rewrite lookup_app_r by lia. by rewrite Nat.sub_diag. }
    split_and!.
    + done.
    + unfold view_unit. by rewrite Hr.
    + unfold unit_locs. rewrite Hr. apply NoDup_singleton.
    + unfold unit_locs. rewrite Hr, length_app. cbn. intros l Hl.
      apply list_elem_of_singleton in Hl as ->. lia.
Qed.

Lemma build_entries_spec es (h : heap) :
  ∃ refs (new : heap),
    map_ST build_entry es h = (Ok refs, h ++ new)
    ∧ Forall2 (λ r e, view_unit (h ++ new) r = Some e) refs es
    ∧ NoDup (refs ≫= unit_locs (h ++ new))
    ∧ ∀ l, l ∈ refs ≫= unit_locs (h ++ new)
           → (length h ≤ l < length (h ++ new))%nat.
Proof.
  revert h. induction es as [|e es IH]; intros h.
  { exists [], []. rewrite app_nil_r. split_and!; try done.
    - constructor.
    - intros l Hl. by apply elem_of_nil in Hl. }
  destruct (build_entry_spec e h) as (r & new1 & Hrun1 & Hv1 & Hnd1 & Hfr1).
  destruct (IH (h ++ new1)) as (refs & new2 & Hrun2 & Hv2 & Hnd2 & Hfr2).
  exists (r :: refs), (new1 ++ new2). rewrite app_assoc.
  destruct (view_unit_app (h ++ new1) new2 r e Hv1) as [Hv1' Hl1'].
  split_and!.
  - cbn. rewrite (bind_Ok _ _ _ _ _ Hrun1). by rewrite (bind_Ok _ _ _ _ _ Hrun2).
  - by constructor.
  - rewrite bind_cons, Hl1'. apply NoDup_app. split_and!; try done.
    intros l Hl Hl2. apply Hfr1 in Hl. apply Hfr2 in Hl2. lia.
  - intros l. rewrite bind_cons, Hl1', elem_of_app. intros [Hl|Hl].
    + apply Hfr1 in Hl. rewrite !length_app in *. lia.
    + apply Hfr2 in Hl. rewrite !length_app in *. lia.
Qed.

Lemma build_spec es (h : heap) :
  ∃ memo (new : heap),
    build es h = (Ok memo, h ++ new)
    ∧ view_day (h ++ new) memo = Some es
    ∧ NoDup (day_locs (h ++ new) memo)
    ∧ ∀ l, l ∈ day_locs (h ++ new) memo → (length h ≤ l < length (h ++ new))%nat.
Proof.
  destruct (build_entries_spec es h) as (refs & new & Hrun & Hv & Hnd & Hfr).
  exists (length (h ++ new)), (new ++ [Units refs]). rewrite app_assoc.
  assert (((h ++ new) ++ [Units refs]) !! length (h ++ new) = Some (Units refs)) as Hm.
  { rewrite lookup_app_r by lia. by rewrite Nat.sub_diag. }
  assert (∀ l, l ∈ refs ≫= unit_locs (h ++ new) →
               ((h ++ new) ++ [Units refs]) !! l = (h ++ new) !! l) as Hag.
  { intros l Hl. apply lookup_app_l. apply Hfr in Hl. lia. }
  destruct (bind_agree _ _ _ Hag) as [Hlocs Hviews].
  split_and!.
  - unfold build. by rewrite (bind_Ok _ _ _ _ _ Hrun).
  - unfold view_day. rewrite Hm, Hviews. by apply mapM_Some.
  - unfold day_locs. rewrite Hm, Hlocs. apply NoDup_cons. split; [|done].
    intros Hl. apply Hfr in Hl. lia.
  - unfold day_locs. rewrite Hm, Hlocs. intros l Hl.
    apply elem_of_cons in Hl as [->|Hl]; [|apply Hfr in Hl];
      rewrite !length_app in *; cbn; lia.
Qed.

Lemma clone_spec (h : heap) base es :
  view_day h base = Some es →
  ∃ memo (new : heap),
    clone base h = (Ok memo, h ++ new)
    ∧ view_day (h ++ new) memo = Some (json_entry <$> es)
    ∧ NoDup (day_locs (h ++ new) memo)
    ∧ ∀ l, l ∈ day_locs (h ++ new) memo → (length h ≤ l < length (h ++ new))%nat.
Proof.
  intros Hv. destruct (build_spec (json_entry <$> es) h) as (memo & new & Hrun & Hrest).
  exists memo, new. split; [|done].
  unfold clone. erewrite bind_Ok; [done|]. unfold stringify. by rewrite Hv.
Qed.


(** ** Objects as lists of properties *)

Section property.
Context {K A : Type} `{EqDecision K}.
Implicit Types (o : list (K * A)) (k : K) (v : A).

Lemma property_None o k : property o k = None ↔ k ∉ o.*1.
Proof.
  induction o as [|[k' v'] o IH]; cbn.
  - split; [intros _; apply not_elem_of_nil|done].
  - case_decide as Hk.
    + subst. split; [done|]. intros []. by left.
    + rewrite IH, not_elem_of_cons.
      split; [intros ?; split; [congruence|done] | by intros [_ ?]].
Qed.

Lemma property_Some_elem o k v : property o k = Some v → (k, v) ∈ o.
Proof.
  induction o as [|[k' v'] o IH]; cbn; [done|].
  case_decide; [|by right; auto]. intros. simplify_eq. by left.
Qed.

Lemma property_elem o k v : NoDup o.*1 → (k, v) ∈ o → property o k = Some v.
Proof.
  induction o as [|[k' v'] o IH]; cbn; intros Hnd Hin.
  { by apply elem_of_nil in Hin. }
  apply NoDup_cons in Hnd as [Hk' Hnd].
  apply elem_of_cons in Hin as [Heq|Hin].
  - simplify_eq. by rewrite decide_True.
  - rewrite decide_False; [by apply IH|]. intros ->. apply Hk'.
    apply list_elem_of_fmap. by exists (k, v).
Qed.

Lemma assign_new o k v : property o k = None → assign k v o = o ++ [(k, v)].
Proof.
  induction o as [|[k' v'] o IH]; cbn; [done|].
  case_decide; [done|]. intros Hk. by rewrite IH.
Qed.

Lemma assign_same o k v : property o k = Some v → assign k v o = o.
Proof.
  induction o as [|[k' v'] o IH]; cbn; [done|].
  case_decide; [by intros [= ->]|]. intros Hk. by rewrite IH.
Qed.

(** [o[k] = w] on an object that has the property [k]. *)
Lemma assign_present o k v w :
  NoDup o.*1 → property o k = Some v →
  ∃ i : nat, o !! i = Some (k, v) ∧ assign k w o = <[i := (k, w)]> o.
Proof.
  induction o as [|[k' v'] o IH]; cbn; [done|]. intros Hnd Hk.
  apply NoDup_cons in Hnd as [_ Hnd]. case_decide.
  - simplify_eq. by exists 0%nat.
  - destruct (IH Hnd Hk) as (i & Hi & ->). by exists (S i).
Qed.

Lemma assign_fst_present o k v w :
  property o k = Some v → (assign k w o).*1 = o.*1.
Proof.
  induction o as [|[k' v'] o IH]; cbn; [done|].
  case_decide; [done|]. intros Hk. cbn. f_equal. by apply IH.
Qed.
End property.

Lemma property_app_new {K A} `{EqDecision K} (o : list (K * A)) k v :
  property o k = None → property (o ++ [(k, v)]) k = Some v.
Proof.
  induction o as [|[k' v'] o IH]; cbn; [by rewrite decide_True|].
  case_decide; [done|]. apply IH.
Qed.

Lemma assign_app_last {K A} `{EqDecision K} (o : list (K * A)) k v w :
  property o k = None → assign k w (o ++ [(k, v)]) = o ++ [(k, w)].
Proof.
  induction o as [|[k' v'] o IH]; cbn; [by rewrite decide_True|].
  case_decide; [done|]. intros Hk. by rewrite IH.
Qed.

(** Two objects with the same keys and related values have related
    properties. *)
Lemma Forall2_property {K A B} `{EqDecision K} (P : A → B → Prop)
    (o : list (K * A)) (ov : list (K * B)) k :
  Forall2 (λ x y, x.1 = y.1 ∧ P x.2 y.2) o ov →
  match property o k, property ov k with
  | Some v, Some w => P v w
  | None, None => True
  | _, _ => False
  end.
Proof.
  induction 1 as [|[k1 v] [k2 w] o ov [Hk HP] _ IH]; cbn in *; [done|].
  subst k2. by case_decide.
Qed.

Lemma seq_ret_run {S A B} (m : ST S A) (b : B) s :
  (m;; mret b) s
  = match m s with
    | (Ok _, s') => (Ok b, s')
    | (Throw, s') => (Throw, s')
    | (Stuck, s') => (Stuck, s')
    end.
Proof. unfold mbind, ST_bind. by destruct (m s) as [[]]. Qed.

(** A store that agrees with [h] on the cells of [h0] extends [h0] as [h]
    does. *)
Lemma prefix_agree (h0 h h' : heap) :
  h0 `prefix_of` h → length h' = length h →
  (∀ l, (l < length h0)%nat → h' !! l = h !! l) →
  h0 `prefix_of` h'.
Proof.
  intros [k ->] Hlen Hag. exists (drop (length h0) h').
  rewrite <- (take_drop (length h0) h') at 1. f_equal.
  apply list_eq. intros i. destruct (decide (i < length h0)%nat) as [Hi|Hi].
  - rewrite lookup_take_lt by done. rewrite Hag by done. by rewrite lookup_app_l.
  - rewrite lookup_take_ge by lia. symmetry. apply lookup_ge_None. lia.
Qed.

Section group_per_day_sim.
Context `{Config} {R : Type}.
Context (categorize : loc → probe R → ST heap loc).
Context (accumulate : probe R → ST (list entry) unit).
Context (Hcat : ∀ memo p, sim memo (categorize memo p) (accumulate p;; mret memo)).
Context (h0 : heap) (base : loc) (template : list entry).
Context (Hbase : view_day h0 base = Some template).


Lemma inv_nil : inv h0 [] [] h0.
Proof.
  split; try done; try constructor.
  intros l Hl. by apply elem_of_nil in Hl.
Qed.

Lemma inv_base memo memo_v h :
  inv h0 memo memo_v h → view_day h base = Some template.
Proof. intros [[k ->] _ _ _ _]. by apply view_day_app. Qed.

Lemma inv_view memo memo_v h (i : nat) d r :
  inv h0 memo memo_v h → memo !! i = Some (d, r) →
  ∃ es, memo_v !! i = Some (d, es) ∧ view_day h r = Some es.
Proof.
  intros Hinv Hi.
  destruct (Forall2_lookup_l _ _ _ _ _ (inv_views Hinv) Hi)
    as ([d' es] & Hv & Hd & Hview).
  cbn in *. subst. by exists es.
Qed.

Lemma inv_clone memo memo_v h n :
  inv h0 memo memo_v h → property memo n = None →
  ∃ r (new : heap),
    clone base h = (Ok r, h ++ new)
    ∧ inv h0 (memo ++ [(n, r)]) (memo_v ++ [(n, json_entry <$> template)])
          (h ++ new).
Proof.
  intros Hinv Hn.
  destruct (clone_spec h base template (inv_base _ _ _ Hinv))
    as (r & new & Hrun & Hview & Hnd & Hfresh).
  exists r, new. split; [done|].
  assert (memo.*2 ≫= day_locs (h ++ new) = memo.*2 ≫= day_locs h) as Hlocs.
  { apply bind_ext_lookup. intros j x Hx.
    rewrite list_lookup_fmap in Hx.
    destruct (memo !! j) as [[d r']|] eqn:Hj; [|done]. cbn in Hx. simplify_eq.
    destruct (inv_view _ _ _ _ _ _ Hinv Hj) as (es & _ & Hes).
    by apply (view_day_app h new) in Hes as [_ ?]. }
  split.
  - destruct (inv_prefix Hinv) as [k ->]. rewrite <- app_assoc.
    by apply prefix_app_r.
  - rewrite fmap_app. apply NoDup_app. split_and!.
    + apply (inv_keys Hinv).
    + intros k Hk Hk'. apply list_elem_of_singleton in Hk' as ->.
      by apply property_None in Hn.
    + apply NoDup_singleton.
  - apply Forall2_app; [|by constructor].
    eapply Forall2_impl; [apply (inv_views Hinv)|].
    intros [d r'] [d' es] [Hd Hes]. split; [done|].
    by apply (view_day_app h new) in Hes as [? _].
  - rewrite fmap_app, bind_app, Hlocs. cbn. rewrite app_nil_r.
    apply NoDup_app. split_and!; [apply (inv_nodup Hinv)| |done].
    intros l Hl Hl'. apply Hfresh in Hl'.
    apply list_elem_of_bind in Hl as (r' & Hl & Hr').
    apply list_elem_of_fmap in Hr' as ([d r''] & -> & Hr').
    apply list_elem_of_lookup in Hr' as [j Hj].
    destruct (inv_view _ _ _ _ _ _ Hinv Hj) as (es & _ & Hes).
    pose proof (view_day_locs_valid _ _ _ Hes l Hl). lia.
  - intros l. rewrite fmap_app, bind_app, Hlocs, elem_of_app. cbn.
    rewrite app_nil_r. intros [Hl|Hl]; [by apply (inv_fresh Hinv)|].
    apply Hfresh in Hl. destruct (inv_prefix Hinv) as [k ->].
    rewrite length_app in Hl. lia.
Qed.

Lemma inv_categorize memo memo_v h n r es p :
  inv h0 memo memo_v h →
  property memo n = Some r → property memo_v n = Some es →
  ∃ h' : heap,
    categorize r p h = (((accumulate p;; mret r) es).1, h')
    ∧ inv h0 memo (assign n (accumulate p es).2 memo_v) h'.
Proof.
  intros Hinv Hr Hes.
  destruct (assign_present memo n r r (inv_keys Hinv) Hr) as (i & Hi & _).
  destruct (inv_view _ _ _ _ _ _ Hinv Hi) as (es' & Hiv & Hview).
  assert (NoDup memo_v.*1) as Hkeys_v.
  { replace memo_v.*1 with memo.*1; [apply (inv_keys Hinv)|].
    pose proof (inv_views Hinv) as Hv. clear -Hv.
    induction Hv as [|[] [] ?? [? _]]; cbn in *; [done|]. by f_equal. }
  destruct (assign_present memo_v n es (accumulate p es).2 Hkeys_v Hes)
    as (i' & Hi' & ->).
  assert (i' = i) as ->.
  { eapply NoDup_lookup; [apply Hkeys_v| |].
    - rewrite list_lookup_fmap, Hi'. done.
    - rewrite list_lookup_fmap, Hiv. done. }
  assert (es' = es) as -> by congruence.
  assert (NoDup (day_locs h r)) as Hndr.
  { eapply NoDup_bind_elem; [apply (inv_nodup Hinv)|].
    apply list_elem_of_fmap. exists (n, r). split; [done|].
    by eapply list_elem_of_lookup_2. }
  destruct (Hcat r p h es Hview Hndr) as (h' & Hrun & Hview' & Hlocs' & Hlen & Hframe).
  exists h'. split; [done|].
  assert (((accumulate p;; mret r) es).2 = (accumulate p es).2) as Hst.
  { rewrite seq_ret_run. by destruct (accumulate p es) as [[]]. }
  rewrite Hst in Hview'.
  assert (∀ (j : nat) d r', memo !! j = Some (d, r') → j ≠ i →
            view_day h' r' = view_day h r' ∧ day_locs h' r' = day_locs h r')
    as Hother.
  { intros j d r' Hj Hne. apply view_day_agree. intros l Hl. apply Hframe.
    eapply (NoDup_bind_lookup (day_locs h) memo.*2 j i r' r l);
      [apply (inv_nodup Hinv)|done| | |done].
    - by rewrite list_lookup_fmap, Hj.
    - by rewrite list_lookup_fmap, Hi. }
  assert (memo.*2 ≫= day_locs h' = memo.*2 ≫= day_locs h) as Hbind.
  { apply bind_ext_lookup. intros j x Hx. rewrite list_lookup_fmap in Hx.
    destruct (memo !! j) as [[d r']|] eqn:Hj; [|done]. cbn in Hx. simplify_eq.
    destruct (decide (j = i)) as [->|Hne]; [|by apply (Hother j d)].
    by simplify_eq. }
  split.
  - apply (prefix_agree h0 h h'); [apply (inv_prefix Hinv)|done|].
    intros l Hl. apply Hframe. intros Hin.
    assert (length h0 ≤ l)%nat; [|lia].
    apply (inv_fresh Hinv). apply list_elem_of_bind. exists r.
    split; [done|]. apply list_elem_of_fmap. exists (n, r). split; [done|].
    by eapply list_elem_of_lookup_2.
  - apply (inv_keys Hinv).
  - pose proof (inv_views Hinv) as Hv.
    apply Forall2_same_length_lookup_2.
    { rewrite length_insert. by eapply Forall2_length. }
    intros j [d r'] [d' es'] Hj Hjv. destruct (decide (j = i)) as [->|Hne].
    + rewrite list_lookup_insert_eq in Hjv by (by eapply lookup_lt_Some).
      by simplify_eq.
    + rewrite list_lookup_insert_ne in Hjv by done.
      destruct (Forall2_lookup_lr _ _ _ _ _ _ Hv Hj Hjv) as [Hd Hes'].
      split; [done|]. cbn in *. by destruct (Hother j d r' Hj Hne) as [-> _].
  - rewrite Hbind. apply (inv_nodup Hinv).
  - rewrite Hbind. apply (inv_fresh Hinv).
Qed.

(** One call of the callback of [data.reduce]. *)
Lemma per_day_sim memo memo_v h p :
  inv h0 memo memo_v h →
  ∃ h' : heap,
    match per_day_value accumulate template memo_v p with
    | Ok memo_v' =>
        ∃ memo', per_day categorize base memo p h = (Ok memo', h')
                 ∧ inv h0 memo' memo_v' h'
    | Throw => per_day categorize base memo p h = (Throw, h') ∧ h0 `prefix_of` h'
    | Stuck => per_day categorize base memo p h = (Stuck, h') ∧ h0 `prefix_of` h'
    end.
Proof.
  intros Hinv. unfold per_day, per_day_value.
  set (n := midnight (start p)).
  pose proof (Forall2_property (λ r es, view_day h r = Some es) _ _ n
                (inv_views Hinv)) as Hprop.
  destruct (property memo n) as [r|] eqn:Hr,
           (property memo_v n) as [es|] eqn:Hes; try done; cbn [default]; unfold id.
  - destruct (inv_categorize memo memo_v h n r es p Hinv Hr Hes)
      as (h' & Hrun & Hinv').
    exists h'. rewrite seq_ret_run in Hrun.
    rewrite (bind_Ok _ _ h r h) by done. rewrite (assign_same _ _ _ Hr).
    destruct (accumulate p es) as [[[]| |] es']; cbn in *.
    + exists memo. rewrite (bind_Ok _ _ _ _ _ Hrun).
      by rewrite (assign_same _ _ _ Hr).
    + rewrite (bind_Throw _ _ _ _ Hrun). split; [done|apply Hinv'].
    + rewrite (bind_Stuck _ _ _ _ Hrun). split; [done|apply Hinv'].
  - destruct (inv_clone memo memo_v h n Hinv Hr) as (r & new & Hclone & Hinv1).
    rewrite (bind_Ok _ _ _ _ _ Hclone). rewrite (assign_new _ _ _ Hr).
    destruct (inv_categorize _ _ _ n r (json_entry <$> template) p Hinv1)
      as (h' & Hrun & Hinv').
    { by apply property_app_new. }
    { apply property_app_new. by destruct (property memo_v n). }
    exists h'. rewrite seq_ret_run in Hrun.
    rewrite assign_app_last in Hinv' by done.
    destruct (accumulate p (json_entry <$> template)) as [[[]| |] es']; cbn in *.
    + exists (memo ++ [(n, r)]). rewrite (bind_Ok _ _ _ _ _ Hrun).
      rewrite (assign_new _ _ _ Hes).
      by rewrite (assign_same _ _ _ (property_app_new _ _ _ Hr)).
    + rewrite (bind_Throw _ _ _ _ Hrun). split; [done|apply Hinv'].
    + rewrite (bind_Stuck _ _ _ _ Hrun). split; [done|apply Hinv'].
Qed.

Lemma reduce_sim data memo memo_v h :
  inv h0 memo memo_v h →
  ∃ h' : heap,
    match reduce_value accumulate template memo_v data with
    | Ok memo_v' =>
        ∃ memo', reduce (per_day categorize base) memo data h = (Ok memo', h')
                 ∧ inv h0 memo' memo_v' h'
    | Throw => reduce (per_day categorize base) memo data h = (Throw, h')
               ∧ h0 `prefix_of` h'
    | Stuck => reduce (per_day categorize base) memo data h = (Stuck, h')
               ∧ h0 `prefix_of` h'
    end.
Proof.
  revert memo memo_v h. induction data as [|p data IH]; intros memo memo_v h Hinv.
  { exists h. cbn. by exists memo. }
  cbn [reduce reduce_value].
  destruct (per_day_sim memo memo_v h p Hinv) as (h1 & Hstep).
  destruct (per_day_value accumulate template memo_v p) as [memo_v1| |].
  - destruct Hstep as (memo1 & Hrun & Hinv1).
    destruct (IH memo1 memo_v1 h1 Hinv1) as (h' & Hrest).
    exists h'. by rewrite (bind_Ok _ _ _ _ _ Hrun).
  - exists h1. destruct Hstep as [Hrun ?]. by rewrite (bind_Throw _ _ _ _ Hrun).
  - exists h1. destruct Hstep as [Hrun ?]. by rewrite (bind_Stuck _ _ _ _ Hrun).
Qed.


Lemma view_day_units (h : heap) r es :
  view_day h r = Some es →
  h !! r = Some (Units (units_of h r))
  ∧ Forall2 (λ r e, view_unit h r = Some e) (units_of h r) es
  ∧ day_locs h r = r :: (units_of h r ≫= unit_locs h).
Proof.
  unfold view_day, units_of, day_locs.
  destruct (h !! r) as [[refs| |]|]; try done.
  intros Hv%mapM_Some. done.
Qed.

Lemma reduce_cons {S A B} (f : B → A → ST S B) b x l :
  reduce f b (x :: l) = f b x ≫= λ b', reduce f b' l.
Proof. done. Qed.

Lemma maptoarray_step (result : list (Z * loc)) (h : heap) stack k r refs :
  property result k = Some r → h !! r = Some (Units refs) →
  maptoarray result stack k h = (Ok (stack ++ (Point k <$> refs)), h).
Proof.
  intros Hr Hcell. unfold maptoarray. rewrite Hr.
  by rewrite (bind_Ok _ _ _ _ _ (read_Some _ _ _ Hcell)).
Qed.

Lemma maptoarray_run (result : list (Z * loc)) (h : heap) ks stack :
  (∀ k, k ∈ ks → ∃ r es, property result k = Some r ∧ view_day h r = Some es) →
  reduce (maptoarray result) stack ks h
  = (Ok (stack ++ (ks ≫= λ dayn,
           Point dayn <$> default [] (units_of h <$> property result dayn))), h).
Proof.
  revert stack. induction ks as [|k ks IH]; intros stack Hks.
  { cbn. by rewrite app_nil_r. }
  destruct (Hks k) as (r & es & Hr & Hes); [by left|].
  apply view_day_units in Hes as (Hcell & _ & _).
  rewrite reduce_cons.
  rewrite (bind_Ok _ _ _ _ _ (maptoarray_step _ _ _ _ _ _ Hr Hcell)), IH.
  2:{ intros k' Hk'. apply Hks. by right. }
  rewrite bind_cons, Hr, app_assoc. done.
Qed.

Lemma object_keys_Permutation {A} (o : list (Z * A)) : object_keys o ≡ₚ o.*1.
Proof.
  unfold object_keys. rewrite merge_sort_Permutation.
  apply filter_app_complement.
Qed.

Lemma object_keys_ext {A B} (o : list (Z * A)) (o' : list (Z * B)) :
  o.*1 = o'.*1 → object_keys o = object_keys o'.
Proof. unfold object_keys. by intros ->. Qed.

Lemma bind_bind {A B C} (f : A → list B) (g : B → list C) (l : list A) :
  (l ≫= f) ≫= g = l ≫= λ x, f x ≫= g.
Proof.
  induction l as [|x l IH]; [done|]. by rewrite !bind_cons, bind_app, IH.
Qed.

Lemma bind_ext_elem {A B} (f g : A → list B) (l : list A) :
  (∀ x, x ∈ l → f x = g x) → l ≫= f = l ≫= g.
Proof.
  intros Hfg. apply bind_ext_lookup. intros j x Hx. apply Hfg.
  by eapply list_elem_of_lookup_2.
Qed.

Lemma bind_sublist_pointwise {A B} (f g : A → list B) (l : list A) :
  (∀ x, x ∈ l → f x `sublist_of` g x) → l ≫= f `sublist_of` l ≫= g.
Proof.
  induction l as [|x l IH]; intros Hfg; [done|].
  rewrite !bind_cons. apply sublist_app; [apply Hfg; by left|].
  apply IH. intros y Hy. apply Hfg. by right.
Qed.

Lemma inv_fst memo memo_v h : inv h0 memo memo_v h → memo.*1 = memo_v.*1.
Proof.
  intros Hinv. pose proof (inv_views Hinv) as Hv. clear -Hv.
  induction Hv as [|[] [] ?? [? _]]; cbn in *; [done|]. by f_equal.
Qed.

(** [Object.keys(result).reduce(maptoarray, [])] at the end of
    [groupPerDay]. *)
Lemma flatten_sim memo memo_v h :
  inv h0 memo memo_v h →
  ∃ pts,
    reduce (maptoarray memo) [] (object_keys memo) h = (Ok pts, h)
    ∧ Forall2 (λ p pv, t p = t pv ∧ view_unit h (values p) = Some (values pv))
              pts (flatten_value memo_v)
    ∧ NoDup (pts ≫= λ p, unit_locs h (values p))
    ∧ ∀ l, l ∈ (pts ≫= λ p, unit_locs h (values p)) → (length h0 ≤ l)%nat.
Proof.
  intros Hinv.
  assert (∀ k, k ∈ memo.*1 →
            ∃ r es, property memo k = Some r ∧ property memo_v k = Some es
                    ∧ view_day h r = Some es) as Hkeys.
  { intros k Hk.
    pose proof (Forall2_property (λ r es, view_day h r = Some es) _ _ k
                  (inv_views Hinv)) as Hp.
    destruct (property memo k) as [r|] eqn:Hr.
    - destruct (property memo_v k) as [es|]; [|done]. by exists r, es.
    - by apply property_None in Hr. }
  eexists. split; [|split_and!].
  - apply maptoarray_run. intros k Hk.
    rewrite object_keys_Permutation in Hk.
    destruct (Hkeys k Hk) as (r & es & ? & _ & ?). by exists r, es.
  - rewrite app_nil_l. unfold flatten_value.
    rewrite <- (object_keys_ext memo memo_v (inv_fst _ _ _ Hinv)).
    apply Forall2_bind. apply Forall_Forall2_diag. apply Forall_forall.
    intros k Hk. rewrite object_keys_Permutation in Hk.
    destruct (Hkeys k Hk) as (r & es & -> & -> & Hes). cbn.
    apply view_day_units in Hes as (_ & Hes & _).
    apply Forall2_fmap. eapply Forall2_impl; [apply Hes|]. done.
  - rewrite app_nil_l, bind_bind.
    rewrite (object_keys_Permutation memo).
    eapply sublist_NoDup; [apply (inv_nodup Hinv)|].
    rewrite !list_fmap_bind. apply bind_sublist_pointwise.
    intros [d r] Hdr. cbn.
    rewrite (property_elem _ _ _ (inv_keys Hinv) Hdr). cbn.
    apply list_elem_of_lookup in Hdr as [j Hj].
    destruct (inv_view _ _ _ _ _ _ Hinv Hj) as (es & _ & Hes).
    apply view_day_units in Hes as (_ & _ & ->).
    rewrite list_fmap_bind. apply sublist_cons. done.
  - rewrite app_nil_l, bind_bind. intros l Hl.
    apply list_elem_of_bind in Hl as (k & Hl & Hk).
    rewrite object_keys_Permutation in Hk.
    destruct (Hkeys k Hk) as (r & es & Hr & _ & Hes).
    rewrite Hr in Hl. cbn in Hl. rewrite list_fmap_bind in Hl.
    apply (inv_fresh Hinv). apply list_elem_of_bind. exists r. split.
    + apply view_day_units in Hes as (_ & _ & ->). by right.
    + apply list_elem_of_fmap. exists (k, r). split; [done|].
      by apply property_Some_elem.
Qed.

(** [groupPerDay] on a store [h0] in which [base] is a template with the
    value [template]: the call ends as [groupPerDay_value] does, all cells
    of [h0] are as they were, and the records of the points are new,
    distinct objects with the values that [groupPerDay_value] computes. *)
Lemma groupPerDay_sim data :
  ∃ h' : heap,
    h0 `prefix_of` h'
    ∧ match groupPerDay_value accumulate template data with
      | Ok pts_v =>
          ∃ pts,
            groupPerDay categorize base data h0 = (Ok pts, h')
            ∧ Forall2 (λ p pv, t p = t pv
                               ∧ view_unit h' (values p) = Some (values pv))
                      pts pts_v
            ∧ NoDup (pts ≫= λ p, unit_locs h' (values p))
            ∧ ∀ l, l ∈ (pts ≫= λ p, unit_locs h' (values p))
                   → (length h0 ≤ l)%nat
      | Throw => groupPerDay categorize base data h0 = (Throw, h')
      | Stuck => groupPerDay categorize base data h0 = (Stuck, h')
      end.
Proof.
  unfold groupPerDay, groupPerDay_value.
  destruct (reduce_sim data [] [] h0 inv_nil) as (h' & Hred).
  exists h'. destruct (reduce_value accumulate template [] data) as [memo_v| |].
  - destruct Hred as (memo & Hrun & Hinv). split; [apply Hinv|].
    destruct (flatten_sim memo memo_v h' Hinv) as (pts & Hflat & Hrest).
    exists pts. split; [|done]. by rewrite (bind_Ok _ _ _ _ _ Hrun).
  - destruct Hred as [Hrun Hpre]. split; [done|].
    by rewrite (bind_Throw _ _ _ _ Hrun).
  - destruct Hred as [Hrun Hpre]. split; [done|].
    by rewrite (bind_Stuck _ _ _ _ Hrun).
Qed.
End group_per_day_sim.

(** ** [timeUnit] and [percentage] on values *)

(** ** The accessors on a value *)

Lemma entry_at_Some es i e :
  0 ≤ i → es !! Z.to_nat i = Some e → entry_at i es = (Ok e, es).
Proof. intros Hi He. unfold entry_at. by rewrite decide_True, He. Qed.

Lemma get_value_run es i f e v :
  0 ≤ i → es !! Z.to_nat i = Some e → get_field f (entry_fields e) = Some v →
  get in_value i f es = (Ok v, es).
Proof.
  intros Hi He Hf. cbn. rewrite (bind_Ok _ _ _ _ _ (entry_at_Some _ _ _ Hi He)).
  by rewrite Hf.
Qed.

Lemma set_value_run es i f v e fs' :
  0 ≤ i → es !! Z.to_nat i = Some e →
  set_field f v (entry_fields e) = Some fs' →
  set in_value i f v es
  = (Ok (), <[Z.to_nat i := Entry (entry_modules e) fs']> es).
Proof.
  intros Hi He Hf. cbn. rewrite (bind_Ok _ _ _ _ _ (entry_at_Some _ _ _ Hi He)).
  by rewrite Hf.
Qed.

Lemma modules_of_value_run es i e ms :
  0 ≤ i → es !! Z.to_nat i = Some e → entry_modules e = Some ms →
  modules_of in_value i es = (Ok ms, es).
Proof.
  intros Hi He Hm. cbn. rewrite (bind_Ok _ _ _ _ _ (entry_at_Some _ _ _ Hi He)).
  by rewrite Hm.
Qed.

Lemma push_value_run es i e ms xs :
  0 ≤ i → es !! Z.to_nat i = Some e → entry_modules e = Some ms →
  push in_value i xs es
  = (Ok (), <[Z.to_nat i := Entry (Some (ms ++ xs)) (entry_fields e)]> es).
Proof.
  intros Hi He Hm. cbn. rewrite (bind_Ok _ _ _ _ _ (entry_at_Some _ _ _ Hi He)).
  by rewrite Hm.
Qed.

Section timeUnit_value.
Context `{Config}.

Lemma each_value_run (p : probe (option delta)) l iv i interval es e :
  results p ≫= lag = Some l →
  0 ≤ i → es !! Z.to_nat i = Some e → is_bucket e →
  each in_value p iv i interval es
  = (Ok (settle (mean l) iv i interval),
     <[Z.to_nat i := add_days (mean l / day)%js e]> es).
Proof.
  intros Hl Hi He Hb. destruct e as [[ms|] [ty d n|]]; try done.
  unfold each. rewrite Hl.
  rewrite (bind_Ok _ _ _ _ _ (get_value_run es i Days _ d Hi He eq_refl)).
  rewrite (bind_Ok _ _ _ _ _
             (set_value_run es i Days _ _ (Bucket ty _ n) Hi He eq_refl)).
  unfold settle, add_days. cbn [entry_modules entry_fields].
  destruct (found interval); [done|]. by destruct (jsle (mean l) iv.2).
Qed.

(** The loop of [timeUnit] on a sample with a lag: every record gets the
    lag added to its [days], and [interval] is what [scan] says. *)
Lemma forEach_each_lag (p : probe (option delta)) l (ivs : list (string * jsnum))
    (pre suf : list entry) interval :
  results p ≫= lag = Some l →
  Forall is_bucket suf → length suf = length ivs →
  forEach ivs (Z.of_nat (length pre)) (each in_value p) interval (pre ++ suf)
  = (Ok (scan (mean l) ivs (Z.of_nat (length pre)) interval),
     pre ++ (add_days (mean l / day)%js <$> suf)).
Proof.
  intros Hl. revert pre suf interval.
  induction ivs as [|iv ivs IH]; intros pre suf interval Hsuf Hlen.
  { by destruct suf. }
  destruct suf as [|e suf]; [done|].
  apply Forall_cons in Hsuf as [He Hsuf].
  cbn [forEach].
  rewrite (bind_Ok _ _ _ _ _
             (each_value_run p l iv (Z.of_nat (length pre)) interval
                (pre ++ e :: suf) e Hl
                ltac:(lia) ltac:(by rewrite Nat2Z.id; apply list_lookup_middle) He)).
  rewrite Nat2Z.id, insert_app_r_alt, Nat.sub_diag by lia. cbn [insert list_insert].
  replace (Z.of_nat (length pre) + 1)
    with (Z.of_nat (length (pre ++ [add_days (mean l / day)%js e]))).
  2:{ rewrite length_app. cbn. lia. }
  rewrite (cons_middle _ pre suf), app_assoc.
  rewrite IH by (done || (cbn in Hlen; lia)).
  rewrite <- app_assoc, length_app. cbn [scan length]. do 3 f_equal. lia.
Qed.

Lemma forEach_each_no_lag (p : probe (option delta))
    (ivs : list (string * jsnum)) i interval (es : list entry) :
  results p ≫= lag = None →
  forEach ivs i (each in_value p) interval es = (Ok interval, es).
Proof.
  intros Hl. revert i. induction ivs as [|iv ivs IH]; intros i; [done|].
  cbn [forEach].
  assert (each in_value p iv i interval = mret interval) as ->.
  { unfold each. by rewrite Hl. }
  rewrite (bind_Ok (mret interval) _ es interval es eq_refl). apply IH.
Qed.

Lemma scan_found mean ivs i interval :
  found interval = true → scan mean ivs i interval = interval.
Proof.
  revert i. induction ivs as [|iv ivs IH]; intros i Hf; [done|].
  cbn. unfold settle. rewrite Hf. by apply IH.
Qed.

(** [scan] leaves an index of the list, the [interval] it started from, or
    the first index. *)
Lemma scan_range mean ivs i interval j :
  0 ≤ i → scan mean ivs i interval = Some j →
  interval = Some j ∨ i ≤ j < i + Z.of_nat (length ivs).
Proof.
  revert i interval. induction ivs as [|iv ivs IH]; intros i interval Hi Hs.
  { by left. }
  cbn in Hs. apply IH in Hs; [|lia]. cbn [length]. destruct Hs as [Hs|Hs]; [|lia].
  unfold settle in Hs. destruct (found interval); [by left|].
  destruct (jsle mean iv.2); [|by left]. simplify_eq. lia.
Qed.

Lemma classified_range lg :
  intervals ≠ [] → 0 ≤ classified lg < Z.of_nat (length intervals).
Proof.
  intros Hne. unfold classified.
  assert (0 < Z.of_nat (length intervals)) by (destruct intervals; cbn; [done|lia]).
  destruct (found _) eqn:Hf; [|lia].
  destruct lg as [l|]; [|done].
  destruct (scan (mean l) intervals 0 None) as [j|] eqn:Hs; [|done].
  cbn. apply scan_range in Hs as [?|?]; [done|lia|lia].
Qed.

(** [timeUnit] on a day state of buckets, one for each interval. *)
Lemma timeUnit_value (p : probe (option delta)) r (es : list entry) :
  results p = Some r →
  intervals ≠ [] → Forall is_bucket es → length es = length intervals →
  timeUnit_body in_value p es
  = (Ok (),
     alter (counted (modules r)) (Z.to_nat (classified (lag r)))
       (match lag r with
        | Some l => add_days (mean l / day)%js <$> es
        | None => es
        end)).
Proof.
  intros Hr Hne Hes Hlen. unfold timeUnit_body.
  set (es1 := match lag r with
              | Some l => add_days (mean l / day)%js <$> es
              | None => es
              end).
  set (interval := match lag r with
                   | Some l => scan (mean l) intervals 0 None
                   | None => None
                   end).
  assert (forEach intervals 0 (each in_value p) None es = (Ok interval, es1))
    as Hloop.
  { unfold interval, es1. destruct (lag r) as [l|] eqn:Hl.
    - apply (forEach_each_lag p l intervals [] es None); [|done|done].
      by rewrite Hr.
    - apply forEach_each_no_lag. by rewrite Hr. }
  rewrite (bind_Ok _ _ _ _ _ Hloop). fold interval. fold (classified (lag r)).
  pose proof (classified_range (lag r) Hne) as Hc.
  assert (Forall is_bucket es1 ∧ length es1 = length es) as [Hes1 Hlen1].
  { unfold es1. destruct (lag r); [|done]. split; [|by rewrite length_fmap].
    apply Forall_fmap. eapply Forall_impl; [done|].
    by intros [[ms|] [ty d n|]]. }
  destruct (lookup_lt_is_Some_2 es1 (Z.to_nat (classified (lag r)))) as [e He];
    [lia|].
  pose proof (Forall_lookup_1 _ _ _ _ Hes1 He) as Hb.
  destruct e as [[ms|] [ty d n|]]; try done.
  rewrite (bind_Ok _ _ _ _ _
             (get_value_run es1 _ N _ n (proj1 Hc) He eq_refl)).
  rewrite (bind_Ok _ _ _ _ _
             (set_value_run es1 _ N _ _ (Bucket ty d _) (proj1 Hc) He eq_refl)).
  cbn [entry_modules]. rewrite Hr.
  set (e1 := Entry (Some ms) (Bucket ty d (Num (num_of n + of_Z 1)%js))).
  assert (<[Z.to_nat (classified (lag r)) := e1]> es1
            !! Z.to_nat (classified (lag r)) = Some e1) as He1.
  { apply list_lookup_insert_eq. by eapply lookup_lt_Some. }
  assert (alter (counted (modules r)) (Z.to_nat (classified (lag r))) es1
          = <[Z.to_nat (classified (lag r))
                := Entry (Some (ms ++ pushed (modules r) ms))
                         (Bucket ty d (Num (num_of n + of_Z 1)%js))]> es1)
    as ->.
  { apply list_eq. intros j.
    destruct (decide (j = Z.to_nat (classified (lag r)))) as [->|Hj].
    - rewrite list_lookup_alter_eq, He, list_lookup_insert_eq; [done|].
      by eapply lookup_lt_Some.
    - by rewrite list_lookup_alter_ne, list_lookup_insert_ne. }
  destruct (modules r) as [mods|] eqn:Hmods.
  - rewrite (bind_Ok _ _ _ _ _
               (modules_of_value_run _ _ e1 ms (proj1 Hc) He1 eq_refl)).
    rewrite (push_value_run _ _ e1 ms _ (proj1 Hc) He1 eq_refl).
    by rewrite list_insert_insert_eq.
  - cbn. by rewrite app_nil_r.
Qed.
End timeUnit_value.

Arguments jsgt : simpl never.
Arguments jsadd : simpl never.
Arguments jsmul : simpl never.
Arguments round : simpl never.

Ltac step_get :=
  erewrite bind_Ok;
    [|eapply get_value_run; [lia|reflexivity|reflexivity]].
Ltac step_set :=
  first
    [ erewrite bind_Ok;
        [|eapply set_value_run; [lia|reflexivity|reflexivity]]
    | erewrite set_value_run; [|lia|reflexivity|reflexivity] ];
  cbn [insert list_insert Z.to_nat Pos.to_nat Pos.iter_op Nat.add
       entry_modules entry_fields].

Section percentage_value.
Context `{Config}.

Lemma percentage_value_run now (p : probe publish) e0 e1 (es : list entry) :
  is_slot e0 → is_slot e1 →
  percentage_body in_value now p (e0 :: e1 :: es)
  = (Ok (), percentage_value now p (e0 :: e1 :: es)).
Proof.
  destruct e0 as [m0 [|ty0 p0 t0 n0 l0]], e1 as [m1 [|ty1 p1 t1 n1 l1]];
    try done.
  intros _ _. unfold percentage_body, percentage_value, percent.
  fold (expected now p). generalize (expected now p). intros done.
  destruct (published (results p)).
  - step_get. destruct (jsgt done (num_of t1)) eqn:Hg.
    + erewrite bind_Ok; [|by step_set; step_set].
      step_get. step_set. step_get. step_get. step_set. step_get. by step_set.
    + erewrite bind_Ok; [|done].
      step_get. step_set. step_get. step_get. step_set. step_get. by step_set.
  - step_get. destruct (jsgt done (num_of t0)) eqn:Hg.
    + erewrite bind_Ok; [|by step_set; step_set].
      step_get. step_set. step_get. step_get. step_set. step_get. by step_set.
    + erewrite bind_Ok; [|done].
      step_get. step_set. step_get. step_get. step_set. step_get. by step_set.
Qed.
End percentage_value.

(** ** Arithmetic of the percentage *)

Lemma Qfloor_Qc_le (x y : Qc) : (x ≤ y)%Qc → Qfloor x ≤ Qfloor y.
Proof. intros Hxy. by apply Qfloor_resp_le. Qed.

Lemma Qc_pos_nonzero (b : Qc) : (0 < b)%Qc → b ≠ 0%Qc.
Proof. intros Hb ->. by apply (irreflexivity Qclt) in Hb. Qed.

Lemma ratio_range (a b : Qc) :
  (0 ≤ a)%Qc → (a ≤ b)%Qc → (0 < b)%Qc →
  (0 ≤ a / b * Qc_of_Z 100)%Qc ∧ (a / b * Qc_of_Z 100 ≤ Qc_of_Z 100)%Qc.
Proof.
  intros Ha Hab Hb.
  assert (0 ≤ Qc_of_Z 100)%Qc as H100 by (by vm_compute).
  assert (0 ≤ / b)%Qc as Hinv by (by apply Qclt_le_weak, Qcinv_pos).
  split.
  - apply Qcmult_nonneg_nonneg; [|done]. by apply Qcmult_nonneg_nonneg.
  - rewrite <- (Qcmult_1_l (Qc_of_Z 100)) at 2.
    apply Qcmult_le_mono_nonneg_r; [done|].
    rewrite <- (Qcmult_inv_r b) by (by apply Qc_pos_nonzero).
    by apply Qcmult_le_mono_nonneg_r.
Qed.

Lemma ratio_mono (a a' b : Qc) :
  (a ≤ a')%Qc → (0 < b)%Qc →
  (a / b * Qc_of_Z 100 ≤ a' / b * Qc_of_Z 100)%Qc.
Proof.
  intros Ha Hb.
  apply Qcmult_le_mono_nonneg_r; [by vm_compute|].
  apply Qcmult_le_mono_nonneg_r; [|done].
  by apply Qclt_le_weak, Qcinv_pos.
Qed.

Lemma percent_fin (a b : Qc) :
  (0 < b)%Qc →
  percent (Num (Fin a)) (Num (Fin b))
  = Num (of_Z (Qfloor (a / b * Qc_of_Z 100 + half)%Qc)).
Proof.
  intros Hb. unfold percent, jsdiv. cbn [num_of].
  rewrite decide_False; [done|]. by apply Qc_pos_nonzero.
Qed.

Lemma percent_zero_total (a : Qc) :
  (0 < a)%Qc → percent (Num (Fin a)) (Num (Fin 0%Qc)) = Num PInf.
Proof.
  intros Ha. unfold percent, jsdiv. cbn [num_of].
  rewrite decide_True by done. unfold signed_inf.
  rewrite (proj1 (Qcgt_alt a 0) Ha). by vm_compute.
Qed.

(** The percentage of a slot is within [0, 100] when its [n] does not
    exceed its [total]. *)
Lemma percent_range (a b : Qc) :
  (0 ≤ a)%Qc → (a ≤ b)%Qc → (0 < b)%Qc →
  ∃ c : Z, percent (Num (Fin a)) (Num (Fin b)) = Num (of_Z c) ∧ 0 ≤ c ≤ 100.
Proof.
  intros Ha Hab Hb. rewrite percent_fin by done. eexists. split; [reflexivity|].
  destruct (ratio_range a b Ha Hab Hb) as [H0 H100]. split.
  - change 0 with (Qfloor (0%Qc)). apply Qfloor_Qc_le.
    apply Qcplus_nonneg_nonneg; [done|by vm_compute].
  - change 100 with (Qfloor (Qc_of_Z 100 + half)%Qc). apply Qfloor_Qc_le.
    by apply Qcplus_le_mono_r.
Qed.

Lemma percent_mono (a a' b : Qc) :
  (a ≤ a')%Qc → (0 < b)%Qc →
  ∃ c c' : Z, percent (Num (Fin a)) (Num (Fin b)) = Num (of_Z c)
              ∧ percent (Num (Fin a')) (Num (Fin b)) = Num (of_Z c')
              ∧ c ≤ c'.
Proof.
  intros Ha Hb. rewrite !percent_fin by done. eexists _, _.
  split; [reflexivity|]. split; [reflexivity|]. apply Qfloor_Qc_le.
  apply Qcplus_le_mono_r. by apply ratio_mono.
Qed.

Lemma jsle_of_Z x y : x ≤ y → jsle (of_Z x) (of_Z y) = true.
Proof.
  intros Hxy. cbn. apply bool_decide_eq_true.
  by apply (proj1 (Z2Qc_inj_le x y)).
Qed.

(** ** [timeUnit] and [percentage] on the store *)

Section accumulators_store.
Context `{Config}.

Lemma timeUnit_store (h : heap) memo es (p : probe (option delta)) r :
  view_day h memo = Some es → NoDup (day_locs h memo) →
  results p = Some r →
  intervals ≠ [] → Forall is_bucket es → length es = length intervals →
  ∃ h' : heap,
    timeUnit memo p h = (Ok memo, h')
    ∧ view_day h' memo
      = Some (alter (counted (modules r)) (Z.to_nat (classified (lag r)))
                (match lag r with
                 | Some l => add_days (mean l / day)%js <$> es
                 | None => es
                 end))
    ∧ day_locs h' memo = day_locs h memo
    ∧ length h' = length h
    ∧ ∀ l, l ∉ day_locs h memo → h' !! l = h !! l.
Proof.
  intros Hv Hnd Hr Hne Hes Hlen.
  destruct (sim_timeUnit memo p h es Hv Hnd) as (h' & Hrun & Hrest).
  rewrite seq_ret_run, (timeUnit_value p r es Hr Hne Hes Hlen) in Hrun, Hrest.
  by exists h'.
Qed.

Lemma percentage_store (h : heap) memo now (p : probe publish) e0 e1 es :
  view_day h memo = Some (e0 :: e1 :: es) → NoDup (day_locs h memo) →
  is_slot e0 → is_slot e1 →
  ∃ h' : heap,
    percentage now memo p h = (Ok memo, h')
    ∧ view_day h' memo = Some (percentage_value now p (e0 :: e1 :: es))
    ∧ day_locs h' memo = day_locs h memo
    ∧ length h' = length h
    ∧ ∀ l, l ∉ day_locs h memo → h' !! l = h !! l.
Proof.
  intros Hv Hnd H0 H1.
  destruct (sim_percentage memo now p h _ Hv Hnd) as (h' & Hrun & Hrest).
  rewrite seq_ret_run, (percentage_value_run now p e0 e1 es H0 H1) in Hrun, Hrest.
  by exists h'.
Qed.
End accumulators_store.

(** C2, amended: a sample with a lag adds [lag.mean / pagelet.day] to the
    [days] of every record of the day, and counts in one record only: the
    record at the classified index gets its [n] incremented by one and
    the sample's new modules pushed, the [n] and the modules of every
    other record are as before. *)
Theorem timeUnit_days_everywhere_count_once `{Config} (h : heap) memo es
    (p : probe (option delta)) r l :
  view_day h memo = Some es → NoDup (day_locs h memo) →
  intervals ≠ [] → Forall is_bucket es → length es = length intervals →
  results p = Some r → lag r = Some l →
  ∃ (h' : heap) es',
    timeUnit memo p h = (Ok memo, h')
    ∧ view_day h' memo = Some es'
    ∧ length es' = length es
    ∧ 0 ≤ classified (Some l) < Z.of_nat (length es)
    ∧ ∀ (i : nat) ms ty d n,
        es !! i = Some (Entry (Some ms) (Bucket ty d n)) →
        es' !! i
        = Some
            (if decide (Z.of_nat i = classified (Some l))
             then Entry (Some (ms ++ pushed (modules r) ms))
                        (Bucket ty (Num (num_of d + mean l / day)%js)
                                   (Num (num_of n + of_Z 1)%js))
             else Entry (Some ms)
                        (Bucket ty (Num (num_of d + mean l / day)%js) n)).
Proof.
  intros Hv Hnd Hne Hes Hlen Hr Hl.
  destruct (timeUnit_store h memo es p r Hv Hnd Hr Hne Hes Hlen)
    as (h' & Hrun & Hv' & _).
  rewrite Hl in Hv'. eexists h', _.
  split; [done|]. split; [done|]. split; [|split].
  - by rewrite length_alter, length_fmap.
  - rewrite Hlen. by apply classified_range.
  - intros i ms ty d n Hi.
    pose proof (classified_range (Some l) Hne). case_decide as Hc.
    + rewrite <- Hc, Nat2Z.id, list_lookup_alter_eq, list_lookup_fmap, Hi. done.
    + rewrite list_lookup_alter_ne, list_lookup_fmap, Hi; [done|]. lia.
Qed.

(** C3, amended: a sample whose results are there but lack a lag changes
    no [days] and throws nothing, yet it is counted: the last record of
    the day gets its [n] incremented by one and the sample's new modules
    pushed, and every other record is as before. A ping sample whose
    results are empty gets a point with empty values. *)
Theorem sample_without_lag_or_metrics `{Config} :
  (∀ (h : heap) memo es (p : probe (option delta)) r,
     view_day h memo = Some es → NoDup (day_locs h memo) →
     intervals ≠ [] → Forall is_bucket es → length es = length intervals →
     results p = Some r → lag r = None →
     ∃ (h' : heap) es',
       timeUnit memo p h = (Ok memo, h')
       ∧ view_day h' memo = Some es'
       ∧ length es' = length es
       ∧ ∀ (i : nat) ms ty d n,
           es !! i = Some (Entry (Some ms) (Bucket ty d n)) →
           es' !! i
           = Some
               (if decide (S i = length es)
                then Entry (Some (ms ++ pushed (modules r) ms))
                           (Bucket ty d (Num (num_of n + of_Z 1)%js))
                else Entry (Some ms) (Bucket ty d n)))
  ∧ (∀ n (data : list (probe metrics)) (i : nat) q,
       data !! i = Some q → results q = ∅ →
       values <$> movingAverage n data !! i = Some ∅).
Proof.
  split.
  - intros h memo es p r Hv Hnd Hne Hes Hlen Hr Hl.
    destruct (timeUnit_store h memo es p r Hv Hnd Hr Hne Hes Hlen)
      as (h' & Hrun & Hv' & _).
    rewrite Hl in Hv'. eexists h', _.
    split; [done|]. split; [done|]. split; [by rewrite length_alter|].
    intros i ms ty d n Hi.
    assert (classified None = Z.of_nat (length es) - 1) as ->.
    { unfold classified. cbn. by rewrite Hlen. }
    assert (0 < length es)%nat.
    { rewrite Hlen. destruct intervals; [done|cbn; lia]. }
    case_decide as Hc.
    + replace (Z.to_nat (Z.of_nat (length es) - 1)) with i by lia.
      by rewrite list_lookup_alter_eq, Hi.
    + rewrite list_lookup_alter_ne, Hi; [done|]. lia.
  - intros n data i q Hq Hres. unfold movingAverage.
    rewrite list_lookup_imap, Hq. cbn. f_equal. rewrite Hres.
    induction (window (steps n) (Z.of_nat i)) as [|k ks IH]; [done|].
    cbn. unfold for_in. by rewrite map_to_list_empty.
Qed.

(** ** The publish percentage *)

Lemma jsle_percent_mono (a a' b : Qc) :
  (a ≤ a')%Qc → (0 < b)%Qc →
  jsle (num_of (percent (Num (Fin a)) (Num (Fin b))))
       (num_of (percent (Num (Fin a')) (Num (Fin b)))) = true.
Proof.
  intros Ha Hb. destruct (percent_mono a a' b Ha Hb) as (c & c' & -> & -> & Hc).
  by apply jsle_of_Z.
Qed.

(** *** The fold of the samples of a day *)

Section percentage_fold.
Context `{Config} (now : Z).

Local Abbreviation folded := (foldl (λ s q, percentage_value now q s)).

Lemma percentage_value_slots (p : probe publish) e0 e1 es :
  is_slot e0 → is_slot e1 →
  ∃ e0' e1',
    percentage_value now p (e0 :: e1 :: es) = e0' :: e1' :: es
    ∧ is_slot e0' ∧ is_slot e1'.
Proof.
  destruct e0 as [m0 [|ty0 p0 t0 n0 l0]], e1 as [m1 [|ty1 p1 t1 n1 l1]];
    try done.
  intros _ _. unfold percentage_value.
  destruct (published (results p)); by eexists _, _.
Qed.

Lemma folded_slots (ps : list (probe publish)) e0 e1 es :
  is_slot e0 → is_slot e1 →
  ∃ e0' e1',
    folded (e0 :: e1 :: es) ps = e0' :: e1' :: es
    ∧ is_slot e0' ∧ is_slot e1'.
Proof.
  revert e0 e1. induction ps as [|p ps IH]; intros e0 e1 H0 H1.
  { by exists e0, e1. }
  destruct (percentage_value_slots p e0 e1 es H0 H1) as (x0 & x1 & Hx & ? & ?).
  cbn [foldl]. rewrite Hx. by apply IH.
Qed.

(** The fold of the samples [ps] into the day state [memo]. *)
Lemma reduce_percentage_store (ps : list (probe publish)) (h : heap) memo
    e0 e1 es :
  view_day h memo = Some (e0 :: e1 :: es) → NoDup (day_locs h memo) →
  is_slot e0 → is_slot e1 →
  ∃ h' : heap,
    reduce (percentage now) memo ps h = (Ok memo, h')
    ∧ view_day h' memo = Some (folded (e0 :: e1 :: es) ps).
Proof.
  revert h e0 e1. induction ps as [|p ps IH]; intros h e0 e1 Hv Hnd H0 H1.
  { by exists h. }
  destruct (percentage_store h memo now p e0 e1 es Hv Hnd H0 H1)
    as (h1 & Hrun & Hv1 & Hlocs & _).
  destruct (percentage_value_slots p e0 e1 es H0 H1) as (x0 & x1 & Hx & ? & ?).
  rewrite Hx in Hv1.
  destruct (IH h1 x0 x1) as (h' & Hrun' & Hv'); [done|by rewrite Hlocs|done..|].
  exists h'. rewrite reduce_cons, (bind_Ok _ _ _ _ _ Hrun).
  split; [done|]. cbn [foldl]. by rewrite Hx.
Qed.

Lemma slot_after_folded (ps : list (probe publish)) (h : heap) memo e0 e1 es i :
  view_day h memo = Some (e0 :: e1 :: es) → NoDup (day_locs h memo) →
  is_slot e0 → is_slot e1 →
  slot_after now ps h memo i = folded (e0 :: e1 :: es) ps !! i.
Proof.
  intros Hv Hnd H0 H1.
  destruct (reduce_percentage_store ps h memo e0 e1 es Hv Hnd H0 H1)
    as (h' & Hrun & Hv').
  unfold slot_after. rewrite Hrun. cbn [snd]. by rewrite Hv'.
Qed.

(** A sample leaves the percentage and the [n] of the records that it is
    not counted in as they are. *)
Lemma percentage_value_other (p : probe publish) e0 e1 es (i : nat) v :
  is_slot e0 → is_slot e1 → i ≠ state_of p →
  (e0 :: e1 :: es) !! i = Some v →
  ∃ v', percentage_value now p (e0 :: e1 :: es) !! i = Some v'
        ∧ slot_percentage v' = slot_percentage v
        ∧ slot_n v' = slot_n v.
Proof.
  destruct e0 as [m0 [|ty0 p0 t0 n0 l0]], e1 as [m1 [|ty1 p1 t1 n1 l1]];
    try done.
  intros _ _. unfold state_of, percentage_value.
  destruct (published (results p)); intros Hi Hv;
    destruct i as [|[|i]]; try done; cbn in Hv; simplify_eq; by eexists.
Qed.

(** The slot that counts a sample gets the percentage of its new [n] and
    [total]. *)
Lemma percentage_value_counted (p : probe publish) e0 e1 es u0 u :
  is_slot e0 → is_slot e1 →
  (e0 :: e1 :: es) !! state_of p = Some u0 →
  percentage_value now p (e0 :: e1 :: es) !! state_of p = Some u →
  slot_n u = Num (num_of (slot_n u0) + of_Z 1)%js
  ∧ slot_percentage u = percent (slot_n u) (slot_total u).
Proof.
  destruct e0 as [m0 [|ty0 p0 t0 n0 l0]], e1 as [m1 [|ty1 p1 t1 n1 l1]];
    try done.
  intros _ _. unfold state_of, percentage_value.
  destruct (published (results p)); cbn; by intros [= <-] [= <-].
Qed.

(** The [n] of a slot does not go down along the samples. *)
Lemma percentage_value_n (p : probe publish) e0 e1 es (i : nat) v (a : Qc) :
  is_slot e0 → is_slot e1 → (i < 2)%nat →
  (e0 :: e1 :: es) !! i = Some v → slot_n v = Num (Fin a) →
  ∃ v' a', percentage_value now p (e0 :: e1 :: es) !! i = Some v'
           ∧ slot_n v' = Num (Fin a') ∧ (a ≤ a')%Qc.
Proof.
  destruct e0 as [m0 [|ty0 p0 t0 n0 l0]], e1 as [m1 [|ty1 p1 t1 n1 l1]];
    try done.
  assert (a ≤ a + Qc_of_Z 1)%Qc as Hle.
  { rewrite <- (Qcplus_0_r a) at 1. apply Qcplus_le_mono_l. by vm_compute. }
  intros _ _ Hi. unfold percentage_value, slot_n.
  destruct (published (results p)); destruct i as [|[|i]]; try lia; cbn;
    intros [= <-]; cbn; intros ->; eexists _, _;
    (split; [reflexivity|]); cbn; (split; [reflexivity|]);
    done || apply Qcle_refl.
Qed.

Lemma folded_n (ps : list (probe publish)) e0 e1 es (i : nat) v (a : Qc) :
  is_slot e0 → is_slot e1 → (i < 2)%nat →
  (e0 :: e1 :: es) !! i = Some v → slot_n v = Num (Fin a) →
  ∃ v' a', folded (e0 :: e1 :: es) ps !! i = Some v'
           ∧ slot_n v' = Num (Fin a') ∧ (a ≤ a')%Qc.
Proof.
  revert e0 e1 v a. induction ps as [|p ps IH]; intros e0 e1 v a H0 H1 Hi Hv Hn.
  { exists v, a. split; [done|]. split; [done|]. apply Qcle_refl. }
  destruct (percentage_value_n p e0 e1 es i v a H0 H1 Hi Hv Hn)
    as (v1 & a1 & Hv1 & Hn1 & Ha1).
  destruct (percentage_value_slots p e0 e1 es H0 H1) as (x0 & x1 & Hx & ? & ?).
  cbn [foldl]. rewrite Hx in *.
  destruct (IH x0 x1 v1 a1) as (v' & a' & Hv' & Hn' & Ha'); try done.
  exists v', a'. split; [done|]. split; [done|]. by eapply Qcle_trans.
Qed.
End percentage_fold.

Lemma state_of_lt p : (state_of p < 2)%nat.
Proof. unfold state_of. destruct (published (results p)); lia. Qed.

(** C7, amended: along the samples folded into a day state of two slots,
    every call returns; a sample changes the percentage and the [n] of
    the slot it is counted in only, so the percentage of the other slot
    stays as it was, also when its total is raised; the percentage that
    the counting slot gets is a whole number within [0, 100] when that
    slot then has [0 <= n <= total] and [total > 0]; and of two samples
    counted in the same slot that leave it with the same total, the later
    one gives it a percentage that is at least that of the earlier. *)
Theorem percentage_range_and_growth `{Config} (h : heap) memo now e0 e1 es :
  view_day h memo = Some (e0 :: e1 :: es) → NoDup (day_locs h memo) →
  is_slot e0 → is_slot e1 →
  (∀ ps, (reduce (percentage now) memo ps h).1 = Ok memo)
  ∧ (∀ ps p i v,
       i ≠ state_of p →
       slot_after now ps h memo i = Some v →
       ∃ v', slot_after now (ps ++ [p]) h memo i = Some v'
             ∧ slot_percentage v' = slot_percentage v
             ∧ slot_n v' = slot_n v)
  ∧ (∀ ps p u (a b : Qc),
       slot_after now (ps ++ [p]) h memo (state_of p) = Some u →
       slot_n u = Num (Fin a) → slot_total u = Num (Fin b) →
       (0 ≤ a)%Qc → (a ≤ b)%Qc → (0 < b)%Qc →
       ∃ c : Z, slot_percentage u = Num (of_Z c) ∧ 0 ≤ c ≤ 100)
  ∧ (∀ ps p qs q u u' (a b : Qc),
       state_of q = state_of p →
       slot_after now (ps ++ [p]) h memo (state_of p) = Some u →
       slot_after now (ps ++ p :: qs ++ [q]) h memo (state_of p) = Some u' →
       slot_n u = Num (Fin a) → (0 < a)%Qc →
       slot_total u = Num (Fin b) → (0 ≤ b)%Qc →
       slot_total u' = slot_total u →
       jsle (num_of (slot_percentage u)) (num_of (slot_percentage u')) = true).
Proof.
  intros Hv Hnd H0 H1.
  pose proof (λ ps i, slot_after_folded now ps h memo e0 e1 es i Hv Hnd H0 H1)
    as Hafter.
  split_and!.
  - intros ps.
    destruct (reduce_percentage_store now ps h memo e0 e1 es Hv Hnd H0 H1)
      as (h' & -> & _). done.
  - intros ps p i v Hi. rewrite !Hafter, foldl_app. cbn [foldl].
    destruct (folded_slots now ps e0 e1 es H0 H1) as (x0 & x1 & -> & ? & ?).
    by apply percentage_value_other.
  - intros ps p u a b. rewrite Hafter, foldl_app. cbn [foldl].
    destruct (folded_slots now ps e0 e1 es H0 H1) as (x0 & x1 & -> & ? & ?).
    intros Hu Hn Ht Ha Hab Hb.
    destruct (lookup_lt_is_Some_2 (x0 :: x1 :: es) (state_of p)) as [u0 Hu0].
    { pose proof (state_of_lt p). cbn. lia. }
    destruct (percentage_value_counted now p x0 x1 es u0 u) as [_ ->]; try done.
    rewrite Hn, Ht. by apply percent_range.
  - intros ps p qs q u u' a b Hq. rewrite !Hafter.
    replace (ps ++ p :: qs ++ [q]) with ((ps ++ [p]) ++ qs ++ [q])
      by (by rewrite <- app_assoc).
    rewrite (foldl_app _ (ps ++ [p])), (foldl_app _ qs), (foldl_app _ ps).
    cbn [foldl].
    destruct (folded_slots now ps e0 e1 es H0 H1) as (x0 & x1 & -> & Hx0 & Hx1).
    destruct (percentage_value_slots now p x0 x1 es Hx0 Hx1)
      as (y0 & y1 & Hy & Hy0 & Hy1).
    destruct (lookup_lt_is_Some_2 (x0 :: x1 :: es) (state_of p)) as [u0 Hu0].
    { pose proof (state_of_lt p). cbn. lia. }
    intros Hu.
    destruct (percentage_value_counted now p x0 x1 es u0 u) as [_ Hp];
      try done.
    rewrite Hy in Hu |- *.
    destruct (folded_slots now qs y0 y1 es Hy0 Hy1)
      as (z0 & z1 & Hz & Hz0 & Hz1).
    intros Hu' Hn Ha Ht Hb Ht'.
    destruct (folded_n now qs y0 y1 es (state_of p) u a Hy0 Hy1
                (state_of_lt p) Hu Hn) as (w & a' & Hw & Hnw & Ha').
    rewrite Hz in Hu', Hw. rewrite <- Hq in Hu', Hw.
    destruct (percentage_value_counted now q z0 z1 es w u') as [Hn' Hp'];
      try done.
    rewrite Hp, Hp', Ht', Hn', Hnw, Hn, Ht.
    assert ((num_of (Num (Fin a')) + of_Z 1)%js = Fin (a' + Qc_of_Z 1)%Qc)
      as -> by done.
    assert (a ≤ a' + Qc_of_Z 1)%Qc as Hle.
    { eapply Qcle_trans; [exact Ha'|].
      rewrite <- (Qcplus_0_r a') at 1. apply Qcplus_le_mono_l. by vm_compute. }
    destruct (decide (b = 0%Qc)) as [->|Hne].
    + rewrite !percent_zero_total; [done|..|done].
      eapply Qclt_le_trans; [exact Ha|exact Hle].
    + apply jsle_percent_mono; [done|].
      apply Qcle_lt_or_eq in Hb as [|Heq]; [done|]. by destruct Hne.
Qed.

(** ** [groupPerDay] and the template *)

Lemma groupPerDay_from_copies `{Config} {R : Type}
    (categorize : loc → probe R → ST heap loc)
    (accumulate : probe R → ST (list entry) unit)
    (h : heap) base template (data : list (probe R)) :
  (∀ memo p, sim memo (categorize memo p) (accumulate p;; mret memo)) →
  view_day h base = Some template →
  from_copies h base template (groupPerDay categorize base data h)
    (groupPerDay_value accumulate template data).
Proof.
  intros Hcat Hbase.
  destruct (groupPerDay_sim categorize accumulate Hcat h base template Hbase
              data)
    as (h' & Hpre & Hrun).
  assert (view_day h' base = Some template
          ∧ day_locs h' base = day_locs h base) as [Hbase' Hlocs'].
  { destruct Hpre as [k ->]. by apply view_day_app. }
  destruct (groupPerDay_value accumulate template data) as [pts_v| |];
    [|rewrite Hrun; by split_and!..].
  destruct Hrun as (pts & -> & Hviews & Hnd & Hfresh). cbn [fst snd].
  split; [done|]. split; [done|]. split.
  - unfold observe. cbn [fst snd].
    replace (mapM (point_value h') pts) with (Some pts_v); [done|].
    symmetry. apply mapM_Some. eapply Forall2_impl; [apply Hviews|].
    intros p [tv ev] [Ht Hv]. unfold point_value. rewrite Hv. cbn in *.
    by rewrite Ht.
  - intros pts' [= <-]. split; [done|]. split; [done|].
    intros i p l c Hp Hl. cbn [fst snd] in *.
    assert (length h ≤ l)%nat as Hge.
    { apply Hfresh. apply list_elem_of_bind. exists p. split; [done|].
      by eapply list_elem_of_lookup_2. }
    split.
    + apply view_day_agree. intros l' Hl'. apply list_lookup_insert_ne.
      intros <-. rewrite Hlocs' in Hl'.
      pose proof (view_day_locs_valid _ _ _ Hbase _ Hl'). lia.
    + intros j q Hj Hq. apply view_unit_agree. intros l' Hl'.
      apply list_lookup_insert_ne. intros <-.
      by eapply (NoDup_bind_lookup (λ p, unit_locs h' (values p)) pts i j p q l).
Qed.

Lemma percentage_body_midnight `{Config} {S} (memo : accessors S) now now'
    (p : probe publish) :
  midnight now' = midnight now →
  percentage_body memo now' p = percentage_body memo now p.
Proof. intros Hm. unfold percentage_body. by rewrite Hm. Qed.

(** *** Records that a JSON text holds as they are *)

Lemma json_val_number v : json_number (json_val v).
Proof. by destruct v as [[]|]. Qed.

Lemma json_val_id v : json_number v → json_val v = v.
Proof. by destruct v as [[]|]. Qed.

Lemma json_entry_safe e : json_safe (json_entry e).
Proof.
  destruct e as [m [ty d n|ty p t n l]]; unfold json_safe; cbn;
    split_and!; apply json_val_number.
Qed.

Lemma json_entry_id e : json_safe e → json_entry e = e.
Proof.
  destruct e as [m [ty d n|ty p t n l]]; unfold json_safe, json_entry; cbn.
  - intros [??]. by rewrite !json_val_id.
  - intros (?&?&?&?). by rewrite !json_val_id.
Qed.

Lemma json_entries_id es : Forall json_safe es → json_entry <$> es = es.
Proof.
  induction 1 as [|e es He _ IH]; [done|]. cbn. by rewrite json_entry_id, IH.
Qed.

(** *** The days of a call *)

Lemma assign_fst {K A} `{EqDecision K} (o : list (K * A)) k v :
  (assign k v o).*1 = if decide (k ∈ o.*1) then o.*1 else o.*1 ++ [k].
Proof.
  destruct (property o k) as [w|] eqn:Hp.
  - rewrite (assign_fst_present o k w v Hp). rewrite decide_True; [done|].
    apply property_Some_elem in Hp. apply list_elem_of_fmap.
    by exists (k, w).
  - rewrite (assign_new o k v Hp), fmap_app.
    apply property_None in Hp. by rewrite decide_False.
Qed.

Lemma property_assign {K A} `{EqDecision K} (o : list (K * A)) k v k' :
  property (assign k v o) k' = if decide (k = k') then Some v else property o k'.
Proof.
  induction o as [|[k0 w] o IH]; cbn.
  - by repeat case_decide.
  - destruct (decide (k0 = k)) as [->|Hne]; cbn.
    + by repeat case_decide.
    + rewrite IH. repeat case_decide; by simplify_eq.
Qed.

Lemma elem_of_foldl_see (l acc : list Z) d :
  d ∈ foldl see acc l ↔ d ∈ acc ∨ d ∈ l.
Proof.
  revert acc. induction l as [|x l IH]; intros acc; cbn.
  - rewrite elem_of_nil. tauto.
  - rewrite IH, elem_of_cons. unfold see. case_decide as Hx.
    + split; [tauto|]. intros [?|[->|?]]; tauto.
    + rewrite elem_of_app, list_elem_of_singleton. tauto.
Qed.

Lemma NoDup_foldl_see (l acc : list Z) : NoDup acc → NoDup (foldl see acc l).
Proof.
  revert acc. induction l as [|x l IH]; intros acc Hacc; [done|]. cbn.
  apply IH. unfold see. case_decide as Hx; [done|].
  apply NoDup_app. split_and!; [done| |apply NoDup_singleton].
  intros y Hy ->%list_elem_of_singleton. done.
Qed.

Section day_keys.
Context `{Config} {R : Type}.

Lemma fst_days_seen (samples : list (probe R)) :
  ((λ d, (d, ())) <$> days_seen samples).*1 = days_seen samples.
Proof. rewrite <- list_fmap_compose. apply list_fmap_id. Qed.

Lemma day_keys_Permutation (samples : list (probe R)) :
  day_keys samples ≡ₚ days_seen samples.
Proof.
  unfold day_keys.
  rewrite (object_keys_Permutation ((λ d, (d, ())) <$> days_seen samples)).
  by rewrite fst_days_seen.
Qed.

Lemma elem_of_day_keys (samples : list (probe R)) d :
  d ∈ day_keys samples ↔ ∃ p, p ∈ samples ∧ midnight (start p) = d.
Proof.
  rewrite day_keys_Permutation. unfold days_seen.
  rewrite elem_of_foldl_see, elem_of_nil, list_elem_of_fmap.
  split; [intros [[]|(p & -> & Hin)]|intros (p & Hin & <-)]; eauto.
Qed.

Lemma NoDup_day_keys (samples : list (probe R)) : NoDup (day_keys samples).
Proof. rewrite day_keys_Permutation. by apply NoDup_foldl_see, NoDup_nil. Qed.

Lemma day_keys_nonempty (samples : list (probe R)) :
  samples ≠ [] → day_keys samples ≠ [].
Proof.
  intros Hne Hk. destruct samples as [|p samples]; [done|].
  pose proof (elem_of_day_keys (p :: samples) (midnight (start p))) as Hin.
  rewrite Hk in Hin. apply (elem_of_nil (midnight (start p))), Hin.
  exists p. split; [by left|done].
Qed.

(** A day in milliseconds is no array index from [2 ^ 32 - 1] on
    (20 February 1970), and [Object.keys] lists such keys in the order in
    which they were created. *)
Lemma day_keys_first_seen (samples : list (probe R)) :
  Forall (λ p, ¬ is_index (midnight (start p))) samples →
  day_keys samples = days_seen samples.
Proof.
  intros Hsamples. unfold day_keys, object_keys. rewrite fst_days_seen.
  assert (Forall (λ d, ¬ is_index d) (days_seen samples)) as Hall.
  { apply Forall_forall. intros d Hd. unfold days_seen in Hd.
    apply elem_of_foldl_see in Hd as [[]%elem_of_nil|Hd].
    apply list_elem_of_fmap in Hd as (p & -> & Hp).
    by apply (proj1 (Forall_forall _ _) Hsamples). }
  assert (filter is_index (days_seen samples) = []) as ->.
  { induction Hall as [|d ds Hd _ IH]; [done|].
    by rewrite filter_cons_False. }
  cbn. induction Hall as [|d ds Hd _ IH]; [done|].
  by rewrite filter_cons_True, IH.
Qed.
End day_keys.

(** *** The fold of [data.reduce] and the algorithm of section 4.3 *)

Section fold_partition.
Context `{Config} {R : Type}.
Context (accumulate : probe R → ST (list entry) unit) (template : list entry).

Local Abbreviation seed := (json_entry <$> template).
Local Abbreviation start_of memo d := (default seed (property memo d)).

Lemma samples_of_day_cons d p (samples : list (probe R)) :
  samples_of_day d (p :: samples)
  = if decide (midnight (start p) = d) then p :: samples_of_day d samples
    else samples_of_day d samples.
Proof. unfold samples_of_day. by rewrite filter_cons. Qed.

(** The fold of [data.reduce] gives every day the state that the fold of
    its own samples gives. *)
Lemma reduce_value_partition samples memo result :
  reduce_value accumulate template memo samples = Ok result →
  result.*1 = foldl see memo.*1 ((λ p, midnight (start p)) <$> samples)
  ∧ ∀ d, fold_day accumulate (start_of memo d) (samples_of_day d samples)
         = Some (start_of result d).
Proof.
  revert memo. induction samples as [|p samples IH]; intros memo.
  { by intros [= ->]. }
  cbn [reduce_value]. unfold per_day_value at 1.
  destruct (accumulate p _) as [[[]| |] es'] eqn:Hp; try done.
  intros [Hk Hd]%IH. split.
  - rewrite Hk, assign_fst. done.
  - intros d. specialize (Hd d). rewrite property_assign in Hd.
    rewrite samples_of_day_cons. case_decide as Hn.
    + subst d. cbn [fold_day]. rewrite Hp. exact Hd.
    + exact Hd.
Qed.

Lemma reduce_value_fails samples memo :
  returned (reduce_value accumulate template memo samples) = None →
  ∃ d, d ∈ foldl see memo.*1 ((λ p, midnight (start p)) <$> samples)
       ∧ fold_day accumulate (start_of memo d) (samples_of_day d samples) = None.
Proof.
  revert memo. induction samples as [|p samples IH]; intros memo; [done|].
  cbn [reduce_value]. unfold per_day_value at 1.
  destruct (accumulate p _) as [[[]| |] es'] eqn:Hp.
  - intros (d & Hin & Hd)%IH. exists d. rewrite assign_fst in Hin.
    split; [done|]. rewrite property_assign in Hd.
    rewrite samples_of_day_cons. case_decide as Hn.
    + subst d. cbn [fold_day]. by rewrite Hp.
    + done.
  - intros _. exists (midnight (start p)). split.
    + cbn. apply elem_of_foldl_see. left. unfold see.
      case_decide; [done|]. apply elem_of_app. right. by left.
    + rewrite samples_of_day_cons, decide_True by done. cbn. by rewrite Hp.
  - intros _. exists (midnight (start p)). split.
    + cbn. apply elem_of_foldl_see. left. unfold see.
      case_decide; [done|]. apply elem_of_app. right. by left.
    + rewrite samples_of_day_cons, decide_True by done. cbn. by rewrite Hp.
Qed.

(** [groupPerDay] on values returns what the algorithm of section 4.3
    gives from the value that [clone] has of the template, the days taken
    in the order of [Object.keys]. *)
Lemma groupPerDay_value_day_grouping (samples : list (probe R)) :
  returned (groupPerDay_value accumulate template samples)
  = day_grouping accumulate seed (day_keys samples) samples.
Proof.
  unfold groupPerDay_value, day_grouping.
  destruct (reduce_value accumulate template [] samples) as [result| |] eqn:Hr.
  - apply reduce_value_partition in Hr as [Hk Hd]. cbn [returned].
    assert (result.*1 = ((λ d, (d, ())) <$> days_seen samples).*1) as Hkeys.
    { by rewrite Hk, fst_days_seen. }
    unfold flatten_value, day_keys.
    rewrite <- (object_keys_ext result _ Hkeys).
    assert (∀ d, d ∈ object_keys result → d ∈ result.*1) as Hin.
    { intros d. by rewrite (object_keys_Permutation result). }
    assert (mapM (λ d, points_of_day accumulate seed d samples)
              (object_keys result)
            = Some ((λ d, Point d <$> default [] (property result d))
                      <$> object_keys result)) as ->.
    { apply mapM_Some, Forall2_fmap_r, Forall_Forall2_diag, Forall_forall.
      intros d Hdin. unfold points_of_day. specialize (Hd d). cbn in Hd.
      rewrite Hd. unfold compose. cbn beta.
      destruct (property result d) as [es|] eqn:Hprop; [done|].
      apply property_None in Hprop. destruct Hprop. by apply Hin. }
    clear Hin. f_equal.
    induction (object_keys result) as [|d ds IH]; [done|].
    rewrite bind_cons, fmap_cons, IH. done.
  - assert (mapM (λ d, points_of_day accumulate seed d samples)
              (day_keys samples) = None) as ->; [|done].
    apply eq_None_not_Some. rewrite mapM_is_Some. intros Hall.
    destruct (reduce_value_fails samples []) as (d & Hin & Hd);
      [by rewrite Hr|].
    assert (d ∈ day_keys samples) as Hdk by (by rewrite day_keys_Permutation).
    pose proof (proj1 (Forall_forall _ _) Hall d Hdk) as [x Hx].
    unfold points_of_day in Hx. cbn in Hd. by rewrite Hd in Hx.
  - assert (mapM (λ d, points_of_day accumulate seed d samples)
              (day_keys samples) = None) as ->; [|done].
    apply eq_None_not_Some. rewrite mapM_is_Some. intros Hall.
    destruct (reduce_value_fails samples []) as (d & Hin & Hd);
      [by rewrite Hr|].
    assert (d ∈ day_keys samples) as Hdk by (by rewrite day_keys_Permutation).
    pose proof (proj1 (Forall_forall _ _) Hall d Hdk) as [x Hx].
    unfold points_of_day in Hx. cbn in Hd. by rewrite Hd in Hx.
Qed.
End fold_partition.

Lemma groupPerDay_independent_copies `{Config} {R : Type}
    (categorize : loc → probe R → ST heap loc)
    (accumulate : probe R → ST (list entry) unit)
    (h : heap) base template (data : list (probe R)) :
  (∀ memo p, sim memo (categorize memo p) (accumulate p;; mret memo)) →
  view_day h base = Some template →
  independent_copies h base template (groupPerDay categorize base data h).
Proof.
  intros Hcat Hbase.
  by destruct (groupPerDay_from_copies categorize accumulate h base template
                 data Hcat Hbase) as (? & ? & _ & ?).
Qed.

Lemma groupPerDay_day_grouping `{Config} {R : Type}
    (categorize : loc → probe R → ST heap loc)
    (accumulate : probe R → ST (list entry) unit)
    (h : heap) base template (data : list (probe R)) :
  (∀ memo p, sim memo (categorize memo p) (accumulate p;; mret memo)) →
  view_day h base = Some template →
  Forall json_safe template →
  ∃ days,
    NoDup days
    ∧ (∀ d, d ∈ days ↔ ∃ p, p ∈ data ∧ midnight (start p) = d)
    ∧ returned (observe (groupPerDay categorize base data h))
      = day_grouping accumulate template days data.
Proof.
  intros Hcat Hbase Hsafe. exists (day_keys data).
  split; [apply NoDup_day_keys|]. split; [apply elem_of_day_keys|].
  destruct (groupPerDay_from_copies categorize accumulate h base template
              data Hcat Hbase) as (_ & _ & -> & _).
  by rewrite groupPerDay_value_day_grouping, json_entries_id.
Qed.

(** C9: [groupPerDay], as [transform] uses it, seeds the state of every
    day with a copy of the template that shares nothing with the template
    or with the state of another day. Whatever the samples and however
    the call ends, no cell that existed before the call is written to, so
    the template keeps its value for the calls to come, and the records of
    the points it returns are new objects: overwriting a cell of one of
    them changes neither another record nor the template. The copy has
    the value of the template when the template is one that JSON text can
    hold, as the two templates of [transform] are: then the call returns
    what the algorithm of section 4.3 returns from the template's value,
    the days being those of the samples, each once. *)
Theorem groupPerDay_seeds_independent_copies `{Config} (h : heap)
    delta_base publish_base buckets slots :
  view_day h delta_base = Some buckets →
  view_day h publish_base = Some slots →
  (∀ data,
     independent_copies h delta_base buckets
       (transform_delta delta_base data h)
     ∧ (Forall json_safe buckets →
        ∃ days,
          NoDup days
          ∧ (∀ d, d ∈ days ↔ ∃ p, p ∈ data ∧ midnight (start p) = d)
          ∧ returned (observe (transform_delta delta_base data h))
            = day_grouping (timeUnit_body in_value) buckets days data))
  ∧ (∀ now data,
       independent_copies h publish_base slots
         (transform_publish now publish_base data h)
       ∧ (Forall json_safe slots →
          ∃ days,
            NoDup days
            ∧ (∀ d, d ∈ days ↔ ∃ p, p ∈ data ∧ midnight (start p) = d)
            ∧ returned (observe (transform_publish now publish_base data h))
              = day_grouping (percentage_body in_value now) slots days data)).
Proof.
  intros Hdelta Hpublish. split.
  - intros data. split.
    + eapply groupPerDay_independent_copies; [|done].
      intros memo p. apply sim_timeUnit.
    + intros Hsafe. apply groupPerDay_day_grouping; [|done..].
      intros memo p. apply sim_timeUnit.
  - intros now data. split.
    + eapply groupPerDay_independent_copies; [|done].
      intros memo p. apply sim_percentage.
    + intros Hsafe. apply groupPerDay_day_grouping; [|done..].
      intros memo p. apply sim_percentage.
Qed.

(** *** Two runs on the same samples *)

Lemma groupPerDay_repeated `{Config} {R : Type}
    (categorize categorize' : loc → probe R → ST heap loc)
    (accumulate : probe R → ST (list entry) unit)
    (h : heap) base template (data : list (probe R)) :
  (∀ memo p, sim memo (categorize memo p) (accumulate p;; mret memo)) →
  (∀ memo p, sim memo (categorize' memo p) (accumulate p;; mret memo)) →
  view_day h base = Some template →
  repeated h base template (groupPerDay categorize base data h)
    (groupPerDay categorize' base data (groupPerDay categorize base data h).2).
Proof.
  intros Hcat Hcat' Hbase.
  destruct (groupPerDay_sim categorize accumulate Hcat h base template Hbase
              data) as (h1 & Hpre1 & Hrun1).
  assert (view_day h1 base = Some template) as Hbase1.
  { destruct Hpre1 as [k ->]. by apply view_day_app. }
  destruct (groupPerDay_sim categorize' accumulate Hcat' h1 base template
              Hbase1 data) as (h2 & Hpre2 & Hrun2).
  assert (view_day h2 base = Some template) as Hbase2.
  { destruct Hpre2 as [k ->]. by apply view_day_app. }
  assert (∀ (h' : heap) pts pts_v,
            Forall2 (λ p pv, t p = t pv
                             ∧ view_unit h' (values p) = Some (values pv))
                    pts pts_v →
            observe (Ok pts, h') = Ok pts_v) as Hobs.
  { intros h' pts pts_v Hviews. unfold observe. cbn [fst snd].
    replace (mapM (point_value h') pts) with (Some pts_v); [done|].
    symmetry. apply mapM_Some. eapply Forall2_impl; [apply Hviews|].
    intros p [tv ev] [Ht Hv]. unfold point_value. rewrite Hv. cbn in *.
    by rewrite Ht. }
  destruct (groupPerDay_value accumulate template data) as [pts_v| |].
  - destruct Hrun1 as (pts1 & -> & Hviews1 & _ & Hfresh1).
    destruct Hrun2 as (pts2 & Hrun2 & Hviews2 & _ & Hfresh2).
    cbn [fst snd] in *. rewrite Hrun2. cbn [fst snd].
    split_and!; try done.
    + by rewrite (Hobs _ _ _ Hviews1), (Hobs _ _ _ Hviews2).
    + rewrite (Hobs _ _ _ Hviews1). apply Hobs.
      eapply Forall2_impl; [apply Hviews1|].
      intros p pv [Ht Hv]. split; [done|].
      destruct Hpre2 as [k ->]. by apply view_unit_app.
    + intros pts [= <-] l Hl. split; [by apply Hfresh1|].
      apply list_elem_of_bind in Hl as (p & Hl & Hp).
      apply list_elem_of_lookup_1 in Hp as [i Hi].
      destruct (Forall2_lookup_l _ _ _ _ _ Hviews1 Hi) as (pv & _ & _ & Hv).
      by eapply view_unit_locs_valid.
    + by intros pts [= <-].
  - rewrite Hrun1. cbn [fst snd]. rewrite Hrun2. by split_and!.
  - rewrite Hrun1. cbn [fst snd]. rewrite Hrun2. by split_and!.
Qed.

(** C6, amended: the moving average writes nothing to the store and
    returns the same points whatever the store holds. A second run of the
    interval histogram on the same samples ends as the first, with points
    of the same values, and so does a second run of the publish percentage
    when the clock shows the same day as at the first run; neither run
    writes to a cell that was there before it, so the template and the
    points of the first run are, after the second run, as they were, and
    the records of the second run are not those of the first. *)
Theorem transforms_repeatable `{Config} (h : heap)
    delta_base publish_base buckets slots :
  view_day h delta_base = Some buckets →
  view_day h publish_base = Some slots →
  (∀ data (h1 h2 : heap),
     (transform_ping data h1).2 = h1
     ∧ (transform_ping data h2).1 = (transform_ping data h1).1)
  ∧ (∀ data,
       repeated h delta_base buckets
         (transform_delta delta_base data h)
         (transform_delta delta_base data
            (transform_delta delta_base data h).2))
  ∧ (∀ now now' data,
       midnight now' = midnight now →
       repeated h publish_base slots
         (transform_publish now publish_base data h)
         (transform_publish now' publish_base data
            (transform_publish now publish_base data h).2)).
Proof.
  intros Hdelta Hpublish. split; [done|]. split.
  - intros data. eapply groupPerDay_repeated; [..|done].
    + intros memo p. apply sim_timeUnit.
    + intros memo p. apply sim_timeUnit.
  - intros now now' data Hm.
    apply (groupPerDay_repeated (percentage now) (percentage now')
             (percentage_body in_value now)); [..|done].
    + intros memo p. apply sim_percentage.
    + intros memo p.
      rewrite <- (percentage_body_midnight in_value now now' p Hm).
      apply sim_percentage.
Qed.

(** ** Where [timeUnit] and the classifier of section 4.1 agree *)

Lemma scan_no_match x ivs i interval :
  first_match_from x ivs i = None → scan x ivs i interval = interval.
Proof.
  revert i interval. induction ivs as [|iv ivs IH]; intros i interval; [done|].
  cbn. destruct (jsle x iv.2) eqn:Hle; [done|]. intros Hnone.
  rewrite IH by done. unfold settle. rewrite Hle. by destruct (found interval).
Qed.

Lemma scan_first_match x ivs i j :
  first_match_from x ivs i = Some j → j ≠ 0 → scan x ivs i None = Some j.
Proof.
  revert i. induction ivs as [|iv ivs IH]; intros i; [done|].
  cbn. unfold settle. cbn. destruct (jsle x iv.2) eqn:Hle.
  - intros [= ->] Hj. apply scan_found. cbn. by apply bool_decide_eq_true.
  - intros Hfirst Hj. by apply IH.
Qed.

(** A first match at an index other than 0, or no match at all, is
    classified as section 4.1 says. *)
Lemma classified_first_match `{Config} (x : jsnum) :
  first_match x ≠ 0 → classified (Some (Lag x)) = first_match x.
Proof.
  unfold first_match, classified. cbn [mean].
  destruct (first_match_from x intervals 0) as [j|] eqn:Hfirst; cbn.
  - intros Hj. rewrite (scan_first_match _ _ _ _ Hfirst Hj). cbn.
    by rewrite bool_decide_true.
  - intros _. by rewrite scan_no_match.
Qed.

(** A lag that is at most the first two thresholds is classified at
    index 1. *)
Lemma classified_skips_first `{Config} (x : jsnum) iv0 iv1 ivs :
  intervals = iv0 :: iv1 :: ivs →
  jsle x iv0.2 = true → jsle x iv1.2 = true →
  first_match x = 0 ∧ classified (Some (Lag x)) = 1.
Proof.
  intros Hivs H0 H1. unfold first_match, classified. rewrite Hivs.
  cbn [first_match_from mean scan]. rewrite H0. split; [done|].
  assert (settle x iv0 0 None = Some 0) as ->.
  { unfold settle. cbn [found]. by rewrite H0. }
  assert (settle x iv1 (0 + 1) (Some 0) = Some 1) as ->.
  { unfold settle. change (found (Some 0)) with false. by rewrite H1. }
  by rewrite scan_found.
Qed.

(** ** The modules pushed by [timeUnit] *)

(** The names of the sample that the array does not hold, the empty name
    left out by [filter(Boolean)]. *)
Lemma pushed_filter (mods present : list string) :
  pushed (Some mods) present
  = filter (λ x, (x ∉ present) ∧ (x ≠ ""%string)) mods.
Proof.
  unfold pushed, filter_Boolean. induction mods as [|x mods IH]; [done|].
  rewrite fmap_cons. cbn [omap list_omap]. rewrite filter_cons, IH.
  destruct (decide (x ∈ present)) as [Hin|Hin].
  - rewrite decide_False; [done|]. by intros [].
  - destruct (decide (x = ""%string)) as [->|Hne].
    + rewrite decide_False; [done|]. by intros [].
    + by rewrite decide_True.
Qed.

(** Samples whose lists of modules have no duplicates keep the modules of
    a record free of duplicates. *)
Lemma pushed_NoDup (mods present : list string) :
  NoDup present → NoDup mods → NoDup (present ++ pushed (Some mods) present).
Proof.
  intros Hp Hm. rewrite pushed_filter. apply NoDup_app. split_and!.
  - done.
  - intros x Hx [[Hnot _] _]%list_elem_of_filter. done.
  - by apply NoDup_filter.
Qed.

(** ** The code on concrete samples *)

Ltac evaluate := apply (bool_decide_unpack _); vm_compute; exact I.

Section examples.
#[local] Existing Instance example_config.

Lemma example_load : load [] = (Ok (6%nat, 9%nat), example_store).
Proof. reflexivity. Qed.

(** C1: a lag of one second is at most the first threshold (one minute),
    so section 4.1 classifies it at index 0; in [timeUnit] the test
    [if (interval) return] takes the index 0 for "nothing found yet", the
    next threshold matches as well, and the sample is counted in the record
    at index 1. *)
Theorem timeUnit_first_interval_skipped :
  first_match (of_Z 1000) = 0
  ∧ classified (Some (Lag (of_Z 1000))) = 1
  ∧ (timeUnit 6 (delta_sample 1000 None) example_store).1 = Ok 6%nat
  ∧ view_day (timeUnit 6 (delta_sample 1000 None) example_store).2 6
    = Some [bucket "minute" [] (Q2Qc (1 # 86400)) 0%Qc;
            bucket "hour" [] (Q2Qc (1 # 86400)) 1%Qc;
            bucket "day" [] (Q2Qc (1 # 86400)) 0%Qc].
Proof. split_and!; evaluate. Qed.

(** C2 fails as stated: a lag of 100 seconds is classified at index 1, and
    the record at index 0 is changed all the same, its [days] going from 0
    to 1/864. *)
Lemma timeUnit_changes_every_bucket :
  classified (Some (Lag (of_Z 100000))) = 1
  ∧ view_day example_store 6
    = Some [bucket "minute" [] 0%Qc 0%Qc; bucket "hour" [] 0%Qc 0%Qc;
            bucket "day" [] 0%Qc 0%Qc]
  ∧ view_day (timeUnit 6 (delta_sample 100000 None) example_store).2 6
    = Some [bucket "minute" [] (Q2Qc (1 # 864)) 0%Qc;
            bucket "hour" [] (Q2Qc (1 # 864)) 1%Qc;
            bucket "day" [] (Q2Qc (1 # 864)) 0%Qc]
  ∧ view_day (timeUnit 6 (delta_sample 100000 None) example_store).2 6
      ≫= (.!! 0%nat)
    ≠ view_day example_store 6 ≫= (.!! 0%nat).
Proof. split_and!; evaluate. Qed.

Lemma timeUnit_days_everywhere_count_once_witness :
  ∃ (h' : heap) es',
    timeUnit 6 (delta_sample 100000 (Some ["a"%string])) example_store
    = (Ok 6%nat, h')
    ∧ view_day h' 6 = Some es'
    ∧ length es' = length delta_template
    ∧ 0 ≤ classified (Some (Lag (of_Z 100000)))
        < Z.of_nat (length delta_template)
    ∧ ∀ (i : nat) ms ty d n,
        delta_template !! i = Some (Entry (Some ms) (Bucket ty d n)) →
        es' !! i
        = Some
            (if decide (Z.of_nat i = classified (Some (Lag (of_Z 100000))))
             then Entry (Some (ms ++ pushed (Some ["a"%string]) ms))
                        (Bucket ty (Num (num_of d + of_Z 100000 / day)%js)
                                   (Num (num_of n + of_Z 1)%js))
             else Entry (Some ms)
                        (Bucket ty (Num (num_of d + of_Z 100000 / day)%js) n)).
Proof.
  apply (timeUnit_days_everywhere_count_once example_store 6 delta_template
           (delta_sample 100000 (Some ["a"%string]))
           (Delta (Some (Lag (of_Z 100000))) (Some ["a"%string]))
           (Lag (of_Z 100000))).
  - reflexivity.
  - apply (bool_decide_unpack _). vm_compute. exact I.
  - discriminate.
  - repeat constructor.
  - reflexivity.
  - reflexivity.
  - reflexivity.
Defined.

(** C3 fails as stated: a sample without a lag is counted in the last
    record and its module is pushed there; a sample without results makes
    [timeUnit] throw; and the moving average of a metric that the previous
    sample lacks is NaN. *)
Lemma sample_without_lag_is_counted :
  view_day
    (timeUnit 6 (Probe 1000 (Some (Delta None (Some ["x"%string]))))
       example_store).2 6
  = Some [bucket "minute" [] 0%Qc 0%Qc; bucket "hour" [] 0%Qc 0%Qc;
          bucket "day" ["x"%string] 0%Qc 1%Qc]
  ∧ view_day
      (timeUnit 6 (Probe 1000 (Some (Delta None (Some ["x"%string]))))
         example_store).2 6
    ≠ view_day example_store 6
  ∧ (timeUnit 6 (Probe 1000 None) example_store).1 = Throw
  ∧ movingAverage 2 [Probe 0 ∅; Probe 1 (latency 1)] !! 1%nat
      ≫= (λ pt, values pt !! "latency"%string)
    = Some NaN.
Proof. split_and!; evaluate. Qed.

Lemma sample_without_lag_or_metrics_witness :
  (∃ (h' : heap) es',
     timeUnit 6 (Probe 1000 (Some (Delta None (Some ["x"%string]))))
       example_store
     = (Ok 6%nat, h')
     ∧ view_day h' 6 = Some es'
     ∧ length es' = length delta_template
     ∧ ∀ (i : nat) ms ty d n,
         delta_template !! i = Some (Entry (Some ms) (Bucket ty d n)) →
         es' !! i
         = Some
             (if decide (S i = length delta_template)
              then Entry (Some (ms ++ pushed (Some ["x"%string]) ms))
                         (Bucket ty d (Num (num_of n + of_Z 1)%js))
              else Entry (Some ms) (Bucket ty d n)))
  ∧ values <$> movingAverage 2 [Probe 0 ∅; Probe 1 (latency 1)] !! 0%nat
    = Some ∅.
Proof.
  split.
  - apply (proj1 sample_without_lag_or_metrics example_store 6%nat
             delta_template
             (Probe 1000 (Some (Delta None (Some ["x"%string]))))
             (Delta None (Some ["x"%string]))).
    + reflexivity.
    + apply (bool_decide_unpack _). vm_compute. exact I.
    + discriminate.
    + repeat constructor.
    + reflexivity.
    + reflexivity.
    + reflexivity.
  - apply (proj2 sample_without_lag_or_metrics 2
             [Probe 0 ∅; Probe 1 (latency 1)] 0%nat (Probe 0 ∅));
      reflexivity.
Defined.

(** C8: the membership test of [timeUnit] looks at the array as it was
    before the sample, so a name that comes twice in the [modules] of one
    sample is pushed twice; across two samples it is pushed once. *)
Theorem timeUnit_pushes_duplicates_of_one_sample :
  view_day
    (timeUnit 6 (delta_sample 100000 (Some ["a"; "a"]%string))
       example_store).2 6
  = Some [bucket "minute" [] (Q2Qc (1 # 864)) 0%Qc;
          bucket "hour" ["a"; "a"]%string (Q2Qc (1 # 864)) 1%Qc;
          bucket "day" [] (Q2Qc (1 # 864)) 0%Qc]
  ∧ view_day
      (timeUnit 6 (delta_sample 100000 (Some ["a"]%string))
         (timeUnit 6 (delta_sample 100000 (Some ["a"]%string))
            example_store).2).2 6
    = Some [bucket "minute" [] (Q2Qc (1 # 432)) 0%Qc;
            bucket "hour" ["a"]%string (Q2Qc (1 # 432)) (1 + 1)%Qc;
            bucket "day" [] (Q2Qc (1 # 432)) 0%Qc].
Proof. split_and!; evaluate. Qed.

(** C7 fails as stated: two successful publishes in the first ten minutes
    after the first expected one give the success slot 200 percent, and a
    publish before the first expected one divides by a total of 0. *)
Lemma percentage_exceeds_100 :
  observe
    (transform_publish 700000 9
       [publish_sample 600000 true; publish_sample 600001 true] example_store)
  = Ok [Point 0 (slot "failure" (of_Z 0) (of_Z 1) (of_Z 0) (of_Z 200));
        Point 0 (slot "success" (of_Z 200) (of_Z 1) (of_Z 2) (of_Z 0))]
  ∧ jsle (of_Z 200) (of_Z 100) = false
  ∧ observe (transform_publish 700000 9 [publish_sample 1 true] example_store)
    = Ok [Point 0 (slot "failure" (of_Z 0) (of_Z 0) (of_Z 0) PInf);
          Point 0 (slot "success" PInf (of_Z 0) (of_Z 1) (of_Z 0))].
Proof. split_and!; evaluate. Qed.

(** The percentage of a slot is out of date once the other slot has raised
    the totals: the failure slot keeps its 100 percent while its total
    goes from 1 to 100, and its next sample brings it down to 2 percent. *)
Lemma percentage_out_of_date :
  slot_after 700000
    [publish_sample 600000 false; publish_sample 60000000 true] example_store
    9 0
  = Some (slot "failure" (of_Z 100) (of_Z 100) (of_Z 1) (of_Z 1))
  ∧ slot_after 700000
      [publish_sample 600000 false; publish_sample 60000000 true;
       publish_sample 600001 false] example_store 9 0
    = Some (slot "failure" (of_Z 2) (of_Z 100) (of_Z 2) (of_Z 1)).
Proof. split_and!; evaluate. Qed.

Lemma percentage_range_and_growth_witness :
  (reduce (percentage 700000) 9%nat
     [publish_sample 600000 true; publish_sample 600001 false]
     example_store).1
  = Ok 9%nat
  ∧ (∃ v',
       slot_after 700000
         ([publish_sample 600000 false] ++ [publish_sample 60000000 true])
         example_store 9 0
       = Some v'
       ∧ slot_percentage v'
         = slot_percentage (slot "failure" (of_Z 100) (of_Z 1) (of_Z 1) (of_Z 0))
       ∧ slot_n v'
         = slot_n (slot "failure" (of_Z 100) (of_Z 1) (of_Z 1) (of_Z 0)))
  ∧ (∃ c : Z,
       slot_percentage (slot "success" (of_Z 100) (of_Z 1) (of_Z 1) (of_Z 0))
       = Num (of_Z c)
       ∧ 0 ≤ c ≤ 100)
  ∧ jsle
      (num_of
         (slot_percentage (slot "success" (of_Z 50) (of_Z 2) (of_Z 1) (of_Z 0))))
      (num_of
         (slot_percentage (slot "success" (of_Z 100) (of_Z 2) (of_Z 2) (of_Z 0))))
    = true.
Proof.
  assert (NoDup (day_locs example_store 9)) as Hnd by evaluate.
  destruct (percentage_range_and_growth example_store 9 700000
              (slot "failure" (of_Z 0) (of_Z 0) (of_Z 0) (of_Z 0))
              (slot "success" (of_Z 0) (of_Z 0) (of_Z 0) (of_Z 0)) []
              eq_refl Hnd I I)
    as (Hreturns & Hother & Hrange & Hgrowth).
  split_and!.
  - apply Hreturns.
  - apply (Hother [publish_sample 600000 false]
             (publish_sample 60000000 true) 0%nat).
    + discriminate.
    + evaluate.
  - apply (Hrange [] (publish_sample 600000 true) _ (Qc_of_Z 1) (Qc_of_Z 1)).
    + evaluate.
    + reflexivity.
    + reflexivity.
    + by vm_compute.
    + by vm_compute.
    + reflexivity.
  - apply (Hgrowth [] (publish_sample 1200000 true)
             [publish_sample 600000 false] (publish_sample 1200001 true)
             _ _ (Qc_of_Z 1) (Qc_of_Z 2)).
    + reflexivity.
    + evaluate.
    + evaluate.
    + reflexivity.
    + reflexivity.
    + reflexivity.
    + by vm_compute.
    + reflexivity.
Defined.

(** C6 fails as stated: the same publish sample on the same store gives a
    success of 100 percent when the transform runs on the day of the
    sample and of 1 percent when it runs on the next day. *)
Lemma transform_publish_depends_on_the_clock :
  observe (transform_publish 700000 9 [publish_sample 600000 true] example_store)
  = Ok [Point 0 (slot "failure" (of_Z 0) (of_Z 1) (of_Z 0) (of_Z 100));
        Point 0 (slot "success" (of_Z 100) (of_Z 1) (of_Z 1) (of_Z 0))]
  ∧ observe
      (transform_publish 87100000 9 [publish_sample 600000 true]
         (transform_publish 700000 9 [publish_sample 600000 true]
            example_store).2)
    = Ok [Point 0 (slot "failure" (of_Z 0) (of_Z 144) (of_Z 0) (of_Z 1));
          Point 0 (slot "success" (of_Z 1) (of_Z 144) (of_Z 1) (of_Z 0))]
  ∧ observe
      (transform_publish 87100000 9 [publish_sample 600000 true]
         (transform_publish 700000 9 [publish_sample 600000 true]
            example_store).2)
    ≠ observe
        (transform_publish 700000 9 [publish_sample 600000 true] example_store).
Proof. split_and!; evaluate. Qed.

Lemma transforms_repeatable_witness :
  (∀ data (h1 h2 : heap),
     (transform_ping data h1).2 = h1
     ∧ (transform_ping data h2).1 = (transform_ping data h1).1)
  ∧ (∀ data,
       repeated example_store 6 delta_template
         (transform_delta 6 data example_store)
         (transform_delta 6 data (transform_delta 6 data example_store).2))
  ∧ (∀ data,
       repeated example_store 9 publish_template
         (transform_publish 700000 9 data example_store)
         (transform_publish 800000 9 data
            (transform_publish 700000 9 data example_store).2)).
Proof.
  assert (view_day example_store 6 = Some delta_template) as H6
    by reflexivity.
  assert (view_day example_store 9 = Some publish_template) as H9
    by reflexivity.
  destruct (transforms_repeatable example_store 6 9 delta_template
              publish_template H6 H9)
    as (Hping & Hdelta & Hpublish).
  split_and!.
  - apply Hping.
  - apply Hdelta.
  - intros data. apply (Hpublish 700000 800000 data). reflexivity.
Defined.

Lemma groupPerDay_seeds_independent_copies_witness :
  (∀ data,
     independent_copies example_store 6 delta_template
       (transform_delta 6 data example_store)
     ∧ ∃ days,
         NoDup days
         ∧ (∀ d, d ∈ days ↔ ∃ p, p ∈ data ∧ midnight (start p) = d)
         ∧ returned (observe (transform_delta 6 data example_store))
           = day_grouping (timeUnit_body in_value) delta_template days data)
  ∧ (∀ now data,
       independent_copies example_store 9 publish_template
         (transform_publish now 9 data example_store)
       ∧ ∃ days,
           NoDup days
           ∧ (∀ d, d ∈ days ↔ ∃ p, p ∈ data ∧ midnight (start p) = d)
           ∧ returned (observe (transform_publish now 9 data example_store))
             = day_grouping (percentage_body in_value now) publish_template
                 days data).
Proof.
  assert (view_day example_store 6 = Some delta_template) as H6
    by reflexivity.
  assert (view_day example_store 9 = Some publish_template) as H9
    by reflexivity.
  destruct (groupPerDay_seeds_independent_copies example_store 6 9
              delta_template publish_template H6 H9)
    as (Hdelta & Hpublish).
  split.
  - intros data. destruct (Hdelta data) as [Hframe Hseed].
    split; [exact Hframe|]. apply Hseed. repeat constructor.
  - intros now data. destruct (Hpublish now data) as [Hframe Hseed].
    split; [exact Hframe|]. apply Hseed. repeat constructor.
Defined.

(** Two days of delta samples through [transform.delta]. *)
Lemma transform_delta_two_days :
  observe
    (transform_delta 6
       [delta_sample 100000 (Some ["a"%string]);
        Probe 86400001 (Some (Delta (Some (Lag (of_Z 86400000)))
                                (Some ["b"%string])))]
       example_store)
  = Ok [Point 0 (bucket "minute" [] (Q2Qc (1 # 864)) 0%Qc);
        Point 0 (bucket "hour" ["a"%string] (Q2Qc (1 # 864)) 1%Qc);
        Point 0 (bucket "day" [] (Q2Qc (1 # 864)) 0%Qc);
        Point 86400000 (bucket "minute" [] 1%Qc 0%Qc);
        Point 86400000 (bucket "hour" [] 1%Qc 0%Qc);
        Point 86400000 (bucket "day" ["b"%string] 1%Qc 1%Qc)].
Proof. evaluate. Qed.
End examples.

(** * Further properties *)

(** ** [movingAverage]: keys, short windows and locality *)

Lemma foldl_key_step_is_Some n original key x v ks :
  ks ≠ [] ∨ is_Some v →
  is_Some (foldl (key_step n original key x) v ks).
Proof.
  revert v. induction ks as [|k ks IH]; intros v [Hne|Hv]; try done.
  - cbn. apply IH. right. by eexists.
  - cbn. apply IH. right. by eexists.
Qed.

Lemma window_nonempty n i : 2 ≤ n → window n i ≠ [].
Proof.
  intros Hn Hw. apply (f_equal length) in Hw. unfold window in Hw.
  rewrite length_seqZ in Hw. cbn in Hw. lia.
Qed.

Lemma window_snoc n i :
  2 ≤ n → window n i = seqZ (i - n + 1) (n - 2) ++ [i - 1].
Proof.
  intros Hn. unfold window. replace (n - 1) with (n - 2 + 1) at 1 by lia.
  rewrite seqZ_app by lia. f_equal.
  replace (i - n + 1 + (n - 2)) with (i - 1) by lia. done.
Qed.

(** X1: with a window of at least two steps, the i-th point has a value
    for exactly the metrics of the i-th sample, whatever the other samples
    of the window hold. *)
Theorem movingAverage_keys (n : Z) (samples : list (probe metrics)) (i : nat) p :
  2 ≤ steps n → samples !! i = Some p →
  ∃ pt, movingAverage n samples !! i = Some pt
        ∧ dom (values pt) = dom (results p).
Proof.
  intros Hn Hp. unfold movingAverage. rewrite list_lookup_imap, Hp. cbn.
  eexists. split; [done|].
  apply set_eq. intros key. rewrite !elem_of_dom.
  destruct (results p !! key) as [x|] eqn:Hx.
  - rewrite (average_lookup _ _ _ _ _ _ Hx). split; [by eexists|]. intros _.
    apply foldl_key_step_is_Some. left. by apply window_nonempty.
  - rewrite (average_lookup_absent _ _ _ _ _ Hx). done.
Qed.

(** X2: a window of one step or of a negative number of steps leaves
    every point without values: the loop [while (++k < i)] starts at or
    beyond [i]. *)
Theorem movingAverage_short_window (n : Z) (samples : list (probe metrics)) :
  n ≠ 0 → n ≤ 1 →
  movingAverage n samples = (λ p, Point (start p) ∅) <$> samples.
Proof.
  intros Hn0 Hn1. unfold movingAverage. rewrite <- imap_const.
  apply imap_ext. intros i p _. unfold average, window, steps.
  rewrite decide_False by done.
  replace (seqZ _ _) with (@nil Z); [done|].
  unfold seqZ. replace (Z.to_nat (n - 1)) with 0%nat by lia. done.
Qed.

(** X3: NaN comes from the sample before: when sample [i - 1] lacks a
    metric that sample [i] has, the last pass of the loop adds
    [undefined / n], and the i-th value of that metric is NaN. *)
Theorem movingAverage_missing_previous (n : Z) (samples : list (probe metrics))
    (i : nat) p (key : string) x :
  2 ≤ steps n → samples !! i = Some p → results p !! key = Some x →
  metric_at samples (Z.of_nat i - 1) key = None →
  movingAverage n samples !! i ≫= (λ pt, values pt !! key) = Some NaN.
Proof.
  intros Hn Hp Hx Hprev. unfold movingAverage.
  rewrite list_lookup_imap, Hp.
  cbn [fmap option_fmap option_map mbind option_bind].
  rewrite (average_lookup _ _ _ _ _ _ Hx), window_snoc by done.
  rewrite foldl_app. cbn [foldl]. unfold key_step at 1. rewrite Hprev. cbn.
  f_equal. by destruct (match foldl _ _ _ with Some _ => _ | None => _ end).
Qed.

Lemma accumulate_ext n original original' k k' vals key x :
  metric_at original k key = metric_at original' k' key →
  accumulate n original k vals key x = accumulate n original' k' vals key x.
Proof. intros Hm. unfold accumulate. by rewrite Hm. Qed.

Lemma for_in_ext n original original' k k' res vals :
  (∀ key, metric_at original k key = metric_at original' k' key) →
  for_in n original k res vals = for_in n original' k' res vals.
Proof.
  intros Hm. unfold for_in. revert vals.
  induction (map_to_list res) as [|[key x] l IH]; intros vals; [done|].
  cbn. rewrite IH. f_equal. by apply accumulate_ext.
Qed.

(** The point of a sample depends only on the samples of its window. *)
Lemma average_shift n original original' (i i' : nat) p :
  (∀ k key, k ∈ window n (Z.of_nat i) →
     metric_at original k key
     = metric_at original' (Z.of_nat i' - Z.of_nat i + k) key) →
  average n original i p = average n original' i' p.
Proof.
  intros Hm. unfold average. f_equal. unfold window in *.
  replace (Z.of_nat i' - n + 1)
    with ((Z.of_nat i' - Z.of_nat i) + (Z.of_nat i - n + 1)) by lia.
  rewrite <- (fmap_add_seqZ (Z.of_nat i' - Z.of_nat i) (Z.of_nat i - n + 1)).
  revert Hm. generalize (∅ : metrics).
  induction (seqZ (Z.of_nat i - n + 1) (n - 1)) as [|k ks IH]; intros vals Hm;
    [done|].
  cbn. rewrite <- IH.
  - f_equal. apply for_in_ext. intros key. apply Hm. by left.
  - intros k' key Hk'. apply Hm. by right.
Qed.

Lemma metric_at_app original more (i : nat) n k key :
  (i < length original)%nat → k ∈ window n (Z.of_nat i) →
  metric_at (original ++ more) k key = metric_at original k key.
Proof.
  intros Hi Hk. unfold metric_at. rewrite lookup_app_l; [done|].
  apply clamp_lt in Hk. lia.
Qed.

Lemma movingAverage_app (n : Z) (samples more : list (probe metrics)) :
  movingAverage n (samples ++ more)
  = movingAverage n samples
    ++ imap (average (steps n) (samples ++ more) ∘ Nat.add (length samples))
            more.
Proof.
  unfold movingAverage. rewrite imap_app. f_equal.
  apply imap_ext. intros i p Hp.
  apply average_shift. intros k key Hk.
  replace (Z.of_nat i - Z.of_nat i + k) with k by lia.
  eapply metric_at_app; [|done]. by eapply lookup_lt_Some.
Qed.

(** X5: the points of the samples seen so far do not change when more
    samples follow. *)
Theorem movingAverage_prefix (n : Z) (samples more : list (probe metrics)) :
  movingAverage n samples `prefix_of` movingAverage n (samples ++ more)
  ∧ take (length samples) (movingAverage n (samples ++ more))
    = movingAverage n samples.
Proof.
  rewrite movingAverage_app. split; [by eexists|].
  rewrite take_app_length'; [done|].
  unfold movingAverage. by rewrite length_imap.
Qed.

Lemma last_imap {A B} (f : nat → A → B) (l : list A) :
  last (imap f l) = f (pred (length l)) <$> last l.
Proof.
  destruct l as [|x l] using rev_ind; [done|].
  rewrite imap_app. cbn. rewrite !last_snoc, length_app. cbn.
  f_equal. f_equal. lia.
Qed.

Lemma length_slice_from_end {A} m (l : list A) :
  length (slice_from_end m l) = (length l `min` m)%nat.
Proof. unfold slice_from_end. rewrite length_drop. lia. Qed.

Lemma last_slice_from_end {A} m (l : list A) :
  (0 < m)%nat → last (slice_from_end m l) = last l.
Proof.
  intros Hm. unfold slice_from_end.
  destruct l as [|x l] using rev_ind; [done|].
  rewrite length_app. cbn. rewrite drop_app_le by lia. by rewrite !last_snoc.
Qed.

Lemma slice_from_end_snoc_nonempty {A} m (l : list A) x :
  (0 < m)%nat → slice_from_end m (l ++ [x]) ≠ [].
Proof.
  intros Hm Hnil. apply (f_equal length) in Hnil.
  rewrite length_slice_from_end, length_app in Hnil. cbn in Hnil. lia.
Qed.

(** The window of the last sample lies within the last [m] samples when it
    has at most [m] steps. *)
Lemma average_last_of_slice n (m : nat) (samples : list (probe metrics)) p :
  n ≤ Z.of_nat m → (0 < length samples)%nat →
  average n (slice_from_end m samples) (pred (length samples `min` m)) p
  = average n samples (pred (length samples)) p.
Proof.
  intros Hn Hlen. apply average_shift. intros k key Hk.
  unfold metric_at, slice_from_end. rewrite lookup_drop. do 2 f_equal.
  unfold window in Hk. apply elem_of_seqZ in Hk. unfold clamp.
  destruct (decide (length samples ≤ m)%nat).
  - replace (Z.of_nat (pred (length samples))
             - Z.of_nat (pred (length samples `min` m)) + k) with k by lia.
    lia.
  - repeat case_decide; lia.
Qed.

(** X6: [slice(-m)] before the moving average loses nothing of the last
    point when the window has at most [m] steps: the last point of the
    average of the last [m] samples is the last point of the average of
    all samples. *)
Theorem movingAverage_last_of_slice (n : Z) (m : nat)
    (samples : list (probe metrics)) :
  (0 < m)%nat → steps n ≤ Z.of_nat m →
  pop (movingAverage n (slice_from_end m samples))
  = pop (movingAverage n samples).
Proof.
  intros Hm Hn. unfold pop, movingAverage. rewrite !last_imap.
  rewrite last_slice_from_end by done.
  destruct (last samples) as [p|] eqn:Hp; [|done]. cbn. f_equal.
  rewrite length_slice_from_end. apply average_last_of_slice; [done|].
  destruct samples; [done|cbn; lia].
Qed.

(** ** [clone] *)

Lemma type_of_json_entry e : type_of (json_entry e) = type_of e.
Proof. by destruct e as [m [|]]. Qed.

Lemma is_bucket_json_entry e : is_bucket e → is_bucket (json_entry e).
Proof. by destruct e as [[ms|] [|]]. Qed.

Lemma is_slot_json_entry e : is_slot e → is_slot (json_entry e).
Proof. by destruct e as [m [|]]. Qed.

(** X7: [clone] of an array of records returns an array of new objects
    that hold what the JSON text of the input holds; the input keeps its
    value, and no cell of the copy is a cell of the input or of anything
    else that existed before. *)
Theorem clone_fresh_copy (h : heap) input es :
  view_day h input = Some es →
  ∃ copy (new : heap),
    clone input h = (Ok copy, h ++ new)
    ∧ view_day (h ++ new) copy = Some (json_entry <$> es)
    ∧ view_day (h ++ new) input = Some es
    ∧ NoDup (day_locs (h ++ new) copy)
    ∧ ∀ l, l ∈ day_locs (h ++ new) copy →
        (length h ≤ l)%nat ∧ l ∉ day_locs (h ++ new) input.
Proof.
  intros Hv.
  destruct (clone_spec h input es Hv) as (copy & new & Hrun & Hc & Hnd & Hfresh).
  destruct (view_day_app h new input es Hv) as [Hv' Hlocs].
  exists copy, new. split_and!; try done.
  intros l Hl. apply Hfresh in Hl. split; [lia|].
  rewrite Hlocs. intros Hin.
  pose proof (view_day_locs_valid h input es Hv l Hin). lia.
Qed.

(** X8: the JSON round trip of [clone] is lossless on records whose
    numbers are finite, and a copy of a copy has the value of the copy:
    what the first round trip loses (NaN and the infinities, which become
    [null]) is all that is ever lost. *)
Theorem clone_round_trip (h : heap) input es :
  view_day h input = Some es →
  ∃ copy (h1 : heap) again (h2 : heap),
    clone input h = (Ok copy, h1)
    ∧ clone copy h1 = (Ok again, h2)
    ∧ view_day h2 again = view_day h1 copy
    ∧ (Forall json_safe es → view_day h1 copy = Some es).
Proof.
  intros Hv. destruct (clone_spec h input es Hv) as (copy & new & Hrun & Hc & _).
  destruct (clone_spec _ copy _ Hc) as (again & new' & Hrun' & Hc' & _).
  exists copy, (h ++ new), again, ((h ++ new) ++ new').
  split_and!; try done.
  - rewrite Hc, Hc'. f_equal. rewrite <- list_fmap_compose.
    apply list_fmap_ext. intros i e _. cbn. apply json_entry_id, json_entry_safe.
  - intros Hsafe. by rewrite Hc, json_entries_id.
Qed.

(** ** [timeUnit]: what a sample changes *)

Lemma Qcsum_alter (f : Qc → Qc) (c : nat) (qs : list Qc) q :
  qs !! c = Some q →
  Qcsum (alter f c qs) = (Qcsum qs + (f q - q))%Qc.
Proof.
  revert c. induction qs as [|q' qs IH]; intros [|c] Hc; try done.
  - cbn in *. simplify_eq. ring.
  - cbn [alter list_alter lookup list_lookup] in *.
    rewrite !Qcsum_cons, (IH c Hc). ring.
Qed.

Lemma first_match_from_range x ivs i j :
  first_match_from x ivs i = Some j → i ≤ j < i + Z.of_nat (length ivs).
Proof.
  revert i. induction ivs as [|iv ivs IH]; intros i; [done|]. cbn.
  destruct (jsle x iv.2).
  - intros [= ->]. lia.
  - intros Hj%IH. lia.
Qed.

Section timeUnit_changes.
Context `{Config}.

Lemma scan_from_second x ivs i interval (last : Z) :
  0 < i → found interval = false →
  (let s := scan x ivs i interval in
   if found s then default 0 s else last)
  = default last (first_match_from x ivs i).
Proof.
  revert i interval. induction ivs as [|iv ivs IH]; intros i interval Hi Hf; cbn.
  { by rewrite Hf. }
  unfold settle. rewrite Hf. destruct (jsle x iv.2).
  - rewrite scan_found; cbn; rewrite bool_decide_true by lia; done.
  - apply IH; [lia|done].
Qed.

(** The classified index is the first index from 1 on whose threshold is
    at least the lag, and the last index when there is none. *)
Lemma classified_from_second (x : jsnum) iv0 ivs :
  intervals = iv0 :: ivs →
  classified (Some (Lag x))
  = default (Z.of_nat (length intervals) - 1) (first_match_from x ivs 1).
Proof.
  intros Hivs. unfold classified. rewrite Hivs. cbn [mean scan].
  change (0 + 1) with 1. apply scan_from_second; [lia|].
  unfold settle. cbn. by destruct (jsle x iv0.2).
Qed.

Lemma classified_positive lg :
  (2 ≤ length intervals)%nat → 1 ≤ classified lg.
Proof.
  intros Hlen. unfold classified.
  destruct (found _) eqn:Hf; [|lia].
  destruct lg as [l|]; [|done].
  destruct (scan (mean l) intervals 0 None) as [j|] eqn:Hs; [|done].
  cbn in *. apply bool_decide_eq_true in Hf.
  apply scan_range in Hs as [?|?]; [done|lia|lia].
Qed.

(** X9: [timeUnit] counts a sample with a lag in the record at the first
    index from 1 on whose threshold is at least the lag, and in the last
    record when there is none; the [n] of every other record is as
    before. The first threshold never decides, because the test
    [if (interval) return] does not hold on to a match at index 0. *)
Theorem timeUnit_counts_from_second (h : heap) memo es
    (p : probe (option delta)) r l iv0 ivs :
  view_day h memo = Some es → NoDup (day_locs h memo) →
  Forall is_bucket es → length es = length intervals →
  intervals = iv0 :: ivs →
  results p = Some r → lag r = Some l →
  ∃ (h' : heap) es',
    timeUnit memo p h = (Ok memo, h')
    ∧ view_day h' memo = Some es'
    ∧ ∀ (i : nat) ms ty d n,
        es !! i = Some (Entry (Some ms) (Bucket ty d n)) →
        ∃ ms' d',
          es' !! i
          = Some (Entry (Some ms')
                    (Bucket ty d'
                       (if decide (Z.of_nat i
                                   = default (Z.of_nat (length ivs))
                                       (first_match_from (mean l) ivs 1))
                        then Num (num_of n + of_Z 1)%js
                        else n))).
Proof.
  intros Hv Hnd Hes Hlen Hivs Hr Hl.
  assert (intervals ≠ []) as Hne by (by rewrite Hivs).
  destruct (timeUnit_store h memo es p r Hv Hnd Hr Hne Hes Hlen)
    as (h' & Hrun & Hv' & _).
  rewrite Hl in Hv'. eexists h', _.
  split; [done|]. split; [done|].
  intros i ms ty d n Hi.
  pose proof (classified_range (Some l) Hne) as Hrange.
  assert (classified (Some l)
          = default (Z.of_nat (length ivs)) (first_match_from (mean l) ivs 1))
    as Hc.
  { destruct l as [x]. rewrite (classified_from_second x iv0 ivs Hivs).
    rewrite Hivs. cbn [length]. by rewrite Nat2Z.inj_succ, Z.sub_1_r, Z.pred_succ. }
  rewrite <- Hc. case_decide as Hi'.
  - rewrite <- Hi', Nat2Z.id, list_lookup_alter_eq, list_lookup_fmap, Hi.
    cbn. by eexists _, _.
  - rewrite list_lookup_alter_ne, list_lookup_fmap, Hi by lia.
    cbn. by eexists _, _.
Qed.
(** X10: with two intervals or more, no sample is ever counted in the
    first record of a day: its [n] and its [modules] stay as they are. *)
Theorem timeUnit_first_record_not_counted (h : heap) memo es
    (p : probe (option delta)) r e0 :
  view_day h memo = Some es → NoDup (day_locs h memo) →
  Forall is_bucket es → length es = length intervals →
  (2 ≤ length intervals)%nat →
  results p = Some r → es !! 0%nat = Some e0 →
  ∃ (h' : heap) es' e0',
    timeUnit memo p h = (Ok memo, h')
    ∧ view_day h' memo = Some es'
    ∧ es' !! 0%nat = Some e0'
    ∧ entry_modules e0' = entry_modules e0
    ∧ get_field N (entry_fields e0') = get_field N (entry_fields e0).
Proof.
  intros Hv Hnd Hes Hlen H2 Hr H0.
  assert (intervals ≠ []) as Hne.
  { intros Hnil. rewrite Hnil in H2. cbn in H2. lia. }
  destruct (timeUnit_store h memo es p r Hv Hnd Hr Hne Hes Hlen)
    as (h' & Hrun & Hv' & _).
  pose proof (classified_positive (lag r) H2) as Hc.
  destruct (lag r) as [l|]; eexists h', _, _; (split; [done|]);
    (split; [done|]); rewrite list_lookup_alter_ne by lia.
  - rewrite list_lookup_fmap, H0. cbn. split; [reflexivity|].
    by destruct e0 as [m [ty d n|]].
  - rewrite H0. by split.
Qed.

(** X11: the records of a day keep the same [days]: when they all hold
    [d] before a sample, they all hold [d + lag.mean / pagelet.day] after
    it, and [d] when the sample has no lag. *)
Theorem timeUnit_days_uniform (h : heap) memo es (p : probe (option delta)) r d :
  view_day h memo = Some es → NoDup (day_locs h memo) →
  intervals ≠ [] → Forall is_bucket es → length es = length intervals →
  results p = Some r →
  Forall (λ e, get_field Days (entry_fields e) = Some d) es →
  ∃ (h' : heap) es',
    timeUnit memo p h = (Ok memo, h')
    ∧ view_day h' memo = Some es'
    ∧ Forall (λ e, get_field Days (entry_fields e)
                   = Some (match lag r with
                           | Some l => Num (num_of d + mean l / day)%js
                           | None => d
                           end)) es'.
Proof.
  intros Hv Hnd Hne Hes Hlen Hr Hd.
  destruct (timeUnit_store h memo es p r Hv Hnd Hr Hne Hes Hlen)
    as (h' & Hrun & Hv' & _).
  destruct (lag r) as [l|] eqn:Hl; eexists h', _; (split; [done|]);
    (split; [done|]); apply Forall_alter.
  - apply Forall_fmap.
    eapply Forall_impl; [apply Forall_and; split; [exact Hes|exact Hd]|].
    intros [[ms|] [ty d' n|]] [Hb Hd']; try done. cbn in *. by simplify_eq.
  - intros [[ms|] [ty d' n|]]; done.
  - done.
  - intros [[ms|] [ty d' n|]]; done.
Qed.
End timeUnit_changes.

Section timeUnit_invariants.
Context `{Config}.

Lemma count_of_add_days x e : count_of (add_days x e) = count_of e.
Proof. by destruct e as [m [ty d n|]]. Qed.

Lemma countable_add_days x e : countable e → countable (add_days x e).
Proof. by destruct e as [m [ty d n|]]. Qed.

Lemma count_of_counted mods e :
  is_bucket e → countable e →
  countable (counted mods e)
  ∧ count_of (counted mods e) = (count_of e + 1)%Qc.
Proof.
  destruct e as [[ms|] [ty d n|]]; try done. intros _.
  unfold countable, count_of. cbn.
  by destruct n as [[q| | |]|].
Qed.

Lemma timeUnit_value_total r es :
  intervals ≠ [] → Forall is_bucket es → length es = length intervals →
  Forall countable es →
  let es' := alter (counted (modules r)) (Z.to_nat (classified (lag r)))
               (match lag r with
                | Some l => add_days (mean l / day)%js <$> es
                | None => es
                end) in
  Forall countable es' ∧ total_count es' = (total_count es + 1)%Qc.
Proof.
  intros Hne Hes Hlen Hc.
  set (es1 := match lag r with
              | Some l => add_days (mean l / day)%js <$> es
              | None => es
              end) in *.
  assert (Forall is_bucket es1 ∧ Forall countable es1
          ∧ count_of <$> es1 = count_of <$> es ∧ length es1 = length es)
    as (Hes1 & Hc1 & Hcount & Hlen1).
  { unfold es1. destruct (lag r) as [l|]; [|done]. split_and!.
    - apply Forall_fmap. eapply Forall_impl; [exact Hes|].
      by intros [[ms|] [ty d n|]].
    - apply Forall_fmap. eapply Forall_impl; [exact Hc|].
      intros e. apply countable_add_days.
    - rewrite <- list_fmap_compose. apply list_fmap_ext. intros i e _.
      apply count_of_add_days.
    - by rewrite length_fmap. }
  pose proof (classified_range (lag r) Hne) as Hrange.
  destruct (lookup_lt_is_Some_2 es1 (Z.to_nat (classified (lag r)))) as [e He];
    [lia|].
  pose proof (proj1 (Forall_lookup _ _) Hes1 _ _ He) as Hbe.
  pose proof (proj1 (Forall_lookup _ _) Hc1 _ _ He) as Hce.
  destruct (count_of_counted (modules r) e Hbe Hce) as [Hce' Hcount'].
  cbn zeta. split.
  - apply Forall_alter; [done|]. intros e' He'.
    rewrite He in He'. by simplify_eq.
  - unfold total_count. rewrite <- Hcount.
    rewrite (list_fmap_alter count_of (counted (modules r))
               (λ q, q + 1)%Qc es1).
    + erewrite Qcsum_alter; [|by rewrite list_lookup_fmap, He]. ring.
    + eapply Forall_impl; [apply Forall_and; split; [exact Hes1|exact Hc1]|].
      intros e' [Hb' Hc']. by apply count_of_counted.
Qed.

(** X12: every sample with results is counted once: the sum of the [n] of
    the records of the day goes up by one. *)
Theorem timeUnit_counts_one (h : heap) memo es (p : probe (option delta)) r :
  view_day h memo = Some es → NoDup (day_locs h memo) →
  intervals ≠ [] → Forall is_bucket es → length es = length intervals →
  results p = Some r → Forall countable es →
  ∃ (h' : heap) es',
    timeUnit memo p h = (Ok memo, h')
    ∧ view_day h' memo = Some es'
    ∧ Forall countable es'
    ∧ total_count es' = (total_count es + 1)%Qc.
Proof.
  intros Hv Hnd Hne Hes Hlen Hr Hc.
  destruct (timeUnit_store h memo es p r Hv Hnd Hr Hne Hes Hlen)
    as (h' & Hrun & Hv' & _).
  destruct (timeUnit_value_total r es Hne Hes Hlen Hc) as [Hc' Htotal].
  eexists h', _. split; [done|]. split; [done|]. by split.
Qed.

(** X13: samples whose [modules] name no module twice keep the [modules]
    of every record free of duplicates, and [filter(Boolean)] keeps the
    empty name out. *)
Theorem timeUnit_modules_distinct (h : heap) memo es
    (p : probe (option delta)) r :
  view_day h memo = Some es → NoDup (day_locs h memo) →
  intervals ≠ [] → Forall is_bucket es → length es = length intervals →
  results p = Some r →
  (∀ mods, modules r = Some mods → NoDup mods) →
  Forall distinct_names es →
  ∃ (h' : heap) es',
    timeUnit memo p h = (Ok memo, h')
    ∧ view_day h' memo = Some es'
    ∧ Forall distinct_names es'.
Proof.
  intros Hv Hnd Hne Hes Hlen Hr Hmods Hd.
  destruct (timeUnit_store h memo es p r Hv Hnd Hr Hne Hes Hlen)
    as (h' & Hrun & Hv' & _).
  eexists h', _. split; [done|]. split; [done|].
  apply Forall_alter.
  - destruct (lag r) as [l|]; [|done]. apply Forall_fmap.
    eapply Forall_impl; [exact Hd|]. by intros [[ms|] [ty d n|]].
  - intros e He.
    assert (distinct_names e) as Hde.
    { destruct (lag r) as [l|].
      - rewrite list_lookup_fmap in He.
        destruct (es !! _) as [e'|] eqn:He'; [|done]. cbn in He. simplify_eq.
        pose proof (proj1 (Forall_lookup _ _) Hd _ _ He').
        by destruct e' as [[ms|] [ty d n|]].
      - by apply (proj1 (Forall_lookup _ _) Hd _ _ He). }
    destruct e as [[ms|] [ty d n|]]; try done.
    unfold distinct_names in *. cbn in *. destruct Hde as [Hnd' Hempty].
    destruct (modules r) as [mods|] eqn:Hm.
    + split.
      * apply pushed_NoDup; [done|]. by apply Hmods.
      * rewrite pushed_filter. intros [?|Hin]%elem_of_app; [done|].
        apply list_elem_of_filter in Hin as [[_ Hin] _]. done.
    + cbn. by rewrite app_nil_r.
Qed.

Lemma timeUnit_value_no_results (p : probe (option delta)) (es : list entry) :
  results p = None → intervals ≠ [] → length es = length intervals →
  timeUnit_body in_value p es
  = (Throw, alter count_up (pred (length es)) es).
Proof.
  intros Hr Hne Hlen. unfold timeUnit_body.
  rewrite (bind_Ok _ _ _ _ _
             (forEach_each_no_lag p intervals 0 None es ltac:(by rewrite Hr))).
  cbn [found]. rewrite <- Hlen.
  assert (0 < length es)%nat as Hpos.
  { rewrite Hlen. destruct intervals; [done|cbn; lia]. }
  assert (Z.to_nat (Z.of_nat (length es) - 1) = pred (length es)) as Hidx by lia.
  destruct (lookup_lt_is_Some_2 es (pred (length es))) as [e He]; [lia|].
  rewrite <- Hidx in He.
  assert (∀ e', entry_fields e' = entry_fields (count_up e) →
                entry_modules e' = entry_modules e →
                <[pred (length es) := e']> es
                = alter count_up (pred (length es)) es) as Hupd.
  { intros e' Hf Hm. apply list_eq. intros j. rewrite Hidx in He.
    destruct (decide (j = pred (length es))) as [->|Hj].
    - rewrite list_lookup_alter_eq, He, list_lookup_insert_eq by lia.
      cbn. f_equal. destruct e', e as [m [|]]; cbn in *; by simplify_eq.
    - by rewrite list_lookup_alter_ne, list_lookup_insert_ne. }
  destruct e as [m [ty d n|ty pc t n l]].
  - rewrite (bind_Ok _ _ _ _ _
               (get_value_run es (Z.of_nat (length es) - 1) N _ n
                  ltac:(lia) He eq_refl)).
    rewrite (bind_Ok _ _ _ _ _
               (set_value_run es (Z.of_nat (length es) - 1) N _ _
                  (Bucket ty d _) ltac:(lia) He eq_refl)).
    rewrite Hr, Hidx. unfold throw. f_equal. by apply Hupd.
  - rewrite (bind_Ok _ _ _ _ _
               (get_value_run es (Z.of_nat (length es) - 1) N _ n
                  ltac:(lia) He eq_refl)).
    rewrite (bind_Ok _ _ _ _ _
               (set_value_run es (Z.of_nat (length es) - 1) N _ _
                  (Slot ty pc t _ l) ltac:(lia) He eq_refl)).
    rewrite Hr, Hidx. unfold throw. f_equal. by apply Hupd.
Qed.

(** X14: a sample without a [results] object makes [timeUnit] throw at
    [probe.results.modules], after it has counted the sample in the last
    record: the day state is left with that count. *)
Theorem timeUnit_without_results (h : heap) memo es (p : probe (option delta)) :
  view_day h memo = Some es → NoDup (day_locs h memo) →
  intervals ≠ [] → length es = length intervals →
  results p = None →
  ∃ h' : heap,
    timeUnit memo p h = (Throw, h')
    ∧ view_day h' memo = Some (alter count_up (pred (length es)) es)
    ∧ ∀ l, l ∉ day_locs h memo → h' !! l = h !! l.
Proof.
  intros Hv Hnd Hne Hlen Hr.
  destruct (sim_timeUnit memo p h es Hv Hnd)
    as (h' & Hrun & Hv' & _ & _ & Hframe).
  rewrite seq_ret_run, (timeUnit_value_no_results p es Hr Hne Hlen)
    in Hrun, Hv'.
  by exists h'.
Qed.
End timeUnit_invariants.

(** ** [percentage]: totals and counts *)

Section percentage_changes.
Context `{Config}.

(** X15: the two slots share their total: when their totals are equal
    before a sample they are equal after it, and the total is [done]
    where that is greater and the total of before otherwise. *)
Theorem percentage_totals_agree (h : heap) memo now (p : probe publish)
    e0 e1 es :
  view_day h memo = Some (e0 :: e1 :: es) → NoDup (day_locs h memo) →
  is_slot e0 → is_slot e1 →
  slot_total e0 = slot_total e1 →
  ∃ (h' : heap) e0' e1',
    percentage now memo p h = (Ok memo, h')
    ∧ view_day h' memo = Some (e0' :: e1' :: es)
    ∧ slot_total e0' = slot_total e1'
    ∧ slot_total e1'
      = if jsgt (expected now p) (num_of (slot_total e1))
        then Num (expected now p) else slot_total e1.
Proof.
  intros Hv Hnd H0 H1 Ht.
  destruct (percentage_store h memo now p e0 e1 es Hv Hnd H0 H1)
    as (h' & Hrun & Hv' & _).
  destruct e0 as [m0 [|ty0 p0 t0 n0 l0]], e1 as [m1 [|ty1 p1 t1 n1 l1]];
    try done.
  unfold slot_total in *. cbn in Ht. subst t1.
  unfold percentage_value in Hv'.
  destruct (published (results p)); eexists h', _, _;
    (split; [exact Hrun|]); (split; [exact Hv'|]); cbn;
    by destruct (jsgt _ _).
Qed.

(** X16: a publish sample is counted in one slot, the success slot when
    it was published and the failure slot otherwise; the [n] and the
    [percentage] of the other slot stay as they are, the [lower] of the
    failure slot is the [percentage] of the success slot, the [lower] of
    the success slot is never written, and the types are kept. *)
Theorem percentage_counts_one (h : heap) memo now (p : probe publish)
    e0 e1 es :
  view_day h memo = Some (e0 :: e1 :: es) → NoDup (day_locs h memo) →
  is_slot e0 → is_slot e1 →
  ∃ (h' : heap) e0' e1',
    percentage now memo p h = (Ok memo, h')
    ∧ view_day h' memo = Some (e0' :: e1' :: es)
    ∧ (let '(u, u', o, o') :=
         if published (results p) then (e1, e1', e0, e0')
         else (e0, e0', e1, e1') in
       slot_n u' = Num (num_of (slot_n u) + of_Z 1)%js
       ∧ slot_n o' = slot_n o
       ∧ slot_percentage o' = slot_percentage o)
    ∧ slot_lower e0' = slot_percentage e1'
    ∧ slot_lower e1' = slot_lower e1
    ∧ type_of e0' = type_of e0 ∧ type_of e1' = type_of e1.
Proof.
  intros Hv Hnd H0 H1.
  destruct (percentage_store h memo now p e0 e1 es Hv Hnd H0 H1)
    as (h' & Hrun & Hv' & _).
  destruct e0 as [m0 [|ty0 p0 t0 n0 l0]], e1 as [m1 [|ty1 p1 t1 n1 l1]];
    try done.
  unfold percentage_value in Hv'.
  destruct (published (results p)); eexists h', _, _;
    (split; [exact Hrun|]); (split; [exact Hv'|]); done.
Qed.
End percentage_changes.

(** ** [groupPerDay]: the days and the points of a call *)

Lemma Forall_assign {K A} `{EqDecision K} (P : A → Prop) (o : list (K * A)) k v :
  Forall (λ x, P x.2) o → P v → Forall (λ x, P x.2) (assign k v o).
Proof.
  intros Ho Hv. induction Ho as [|[k' w] o Hw Ho IH]; cbn.
  - by repeat constructor.
  - case_decide; constructor; done.
Qed.

Lemma fmap_bind_list {A B C} (f : B → C) (g : A → list B) (l : list A) :
  f <$> (l ≫= g) = l ≫= λ x, f <$> g x.
Proof.
  induction l as [|x l IH]; [done|]. cbn. by rewrite fmap_app, IH.
Qed.

(** The fold of [groupPerDay] on values when the accumulator keeps the
    property [P] of a day state and does not throw on the samples that
    are [good]. *)
Section fold_value.
Context `{Config} {R : Type}.
Context (accumulate : probe R → ST (list entry) unit) (template : list entry).
Context (P : list entry → Prop) (good : probe R → Prop).
Context (Hstep : ∀ p es, P es → good p →
           ∃ es', accumulate p es = (Ok (), es') ∧ P es').
Context (Htemplate : P (json_entry <$> template)).

Lemma per_day_value_good memo p :
  Forall (λ x, P x.2) memo → good p →
  ∃ memo',
    per_day_value accumulate template memo p = Ok memo'
    ∧ Forall (λ x, P x.2) memo'
    ∧ memo'.*1 = see memo.*1 (midnight (start p)).
Proof.
  intros Hmemo Hp. unfold per_day_value.
  set (n := midnight (start p)).
  assert (P (default (json_entry <$> template) (property memo n))) as Hes.
  { destruct (property memo n) as [es|] eqn:Hn; [|done].
    apply property_Some_elem in Hn.
    by apply (proj1 (Forall_forall _ _) Hmemo (n, es)). }
  destruct (Hstep p _ Hes Hp) as (es' & -> & Hes').
  eexists. split; [done|]. split.
  - by apply Forall_assign.
  - apply assign_fst.
Qed.

Lemma reduce_value_good samples memo :
  Forall (λ x, P x.2) memo → Forall good samples →
  ∃ result,
    reduce_value accumulate template memo samples = Ok result
    ∧ Forall (λ x, P x.2) result
    ∧ result.*1 = foldl see memo.*1 ((λ p, midnight (start p)) <$> samples).
Proof.
  revert memo. induction samples as [|p samples IH]; intros memo Hmemo Hgood.
  { by exists memo. }
  apply Forall_cons in Hgood as [Hp Hgood].
  destruct (per_day_value_good memo p Hmemo Hp) as (memo' & Hrun & Hmemo' & Hk).
  destruct (IH memo' Hmemo' Hgood) as (result & Hrun' & Hres & Hk').
  exists result. cbn. rewrite Hrun. split; [done|]. split; [done|].
  by rewrite Hk', Hk.
Qed.

(** The points of the fold: for every day, in the order of [Object.keys],
    one point for each record of the template. *)
Lemma groupPerDay_value_good samples (types : list string) :
  (∀ es, P es → type_of <$> es = types) →
  Forall good samples →
  ∃ pts,
    groupPerDay_value accumulate template samples = Ok pts
    ∧ (λ pt, (t pt, type_of (values pt))) <$> pts
      = day_keys samples ≫= λ d, pair d <$> types.
Proof.
  intros Htypes Hgood.
  destruct (reduce_value_good samples [] ltac:(constructor) Hgood)
    as (result & Hrun & Hres & Hk).
  unfold groupPerDay_value. rewrite Hrun. eexists. split; [done|].
  assert (result.*1 = ((λ d, (d, ())) <$> days_seen samples).*1) as Hkeys.
  { by rewrite Hk, fst_days_seen. }
  unfold flatten_value, day_keys.
  rewrite (object_keys_ext result _ Hkeys).
  rewrite fmap_bind_list. apply bind_ext_elem.
  intros d Hd. rewrite <- list_fmap_compose.
  assert (d ∈ result.*1) as Hin.
  { by rewrite <- (object_keys_Permutation result),
      (object_keys_ext result _ Hkeys). }
  destruct (property result d) as [es|] eqn:Hprop.
  2:{ by apply property_None in Hprop. }
  cbn. apply property_Some_elem in Hprop.
  pose proof (proj1 (Forall_forall _ _) Hres _ Hprop) as Hes. cbn in Hes.
  rewrite <- (Htypes es Hes), <- list_fmap_compose. done.
Qed.
End fold_value.

(** What the store holds after the fold, from what the fold gives on
    values. *)
Section fold_store.
Context `{Config} {R : Type}.
Context (categorize : loc → probe R → ST heap loc).
Context (accumulate : probe R → ST (list entry) unit).
Context (Hcat : ∀ memo p, sim memo (categorize memo p) (accumulate p;; mret memo)).

Lemma groupPerDay_points (h : heap) base template (samples : list (probe R))
    pts_v :
  view_day h base = Some template →
  groupPerDay_value accumulate template samples = Ok pts_v →
  ∃ refs (h' : heap),
    groupPerDay categorize base samples h = (Ok refs, h')
    ∧ h `prefix_of` h'
    ∧ view_day h' base = Some template
    ∧ mapM (point_value h') refs = Some pts_v.
Proof.
  intros Hbase Hval.
  destruct (groupPerDay_from_copies categorize accumulate h base template
              samples Hcat Hbase) as (Hpre & Hbase' & Hobs & _).
  rewrite Hval in Hobs. unfold observe in Hobs.
  destruct (groupPerDay categorize base samples h) as [[refs| |] h'];
    cbn [fst snd] in *; try done.
  destruct (mapM (point_value h') refs) as [pts|] eqn:Hm; [|done].
  exists refs, h'. by simplify_eq.
Qed.

Lemma groupPerDay_throws (h : heap) base template (samples : list (probe R)) :
  view_day h base = Some template →
  groupPerDay_value accumulate template samples = Throw →
  ∃ h' : heap,
    groupPerDay categorize base samples h = (Throw, h')
    ∧ h `prefix_of` h'
    ∧ view_day h' base = Some template.
Proof.
  intros Hbase Hval.
  destruct (groupPerDay_from_copies categorize accumulate h base template
              samples Hcat Hbase) as (Hpre & Hbase' & Hobs & _).
  rewrite Hval in Hobs. unfold observe in Hobs.
  destruct (groupPerDay categorize base samples h) as [[refs| |] h'];
    cbn [fst snd] in *; try done.
  - by destruct (mapM (point_value h') refs).
  - by exists h'.
Qed.
End fold_store.

Section day_states.
Context `{Config}.

Lemma delta_state_length es : delta_state es → length es = length intervals.
Proof.
  intros [_ Hty]. apply (f_equal length) in Hty. by rewrite !length_fmap in Hty.
Qed.

Lemma delta_state_json es : delta_state es → delta_state (json_entry <$> es).
Proof.
  intros [Hb Hty]. split.
  - apply Forall_fmap. eapply Forall_impl; [exact Hb|]. apply is_bucket_json_entry.
  - rewrite <- Hty, <- list_fmap_compose. apply list_fmap_ext.
    intros i e _. apply type_of_json_entry.
Qed.

Lemma delta_state_step (p : probe (option delta)) es :
  intervals ≠ [] → delta_state es → is_Some (results p) →
  ∃ es', timeUnit_body in_value p es = (Ok (), es') ∧ delta_state es'.
Proof.
  intros Hne Hes [r Hr]. pose proof (delta_state_length es Hes) as Hlen.
  destruct Hes as [Hb Hty].
  rewrite (timeUnit_value p r es Hr Hne Hb Hlen). eexists. split; [done|].
  assert (delta_state (match lag r with
                       | Some l => add_days (mean l / day)%js <$> es
                       | None => es
                       end)) as [Hb1 Hty1].
  { destruct (lag r) as [l|]; [|done]. split.
    - apply Forall_fmap. eapply Forall_impl; [exact Hb|].
      by intros [[ms|] [ty d n|]].
    - rewrite <- Hty, <- list_fmap_compose. apply list_fmap_ext.
      by intros i [m [|]] _. }
  split.
  - apply Forall_alter; [done|]. by intros [[ms|] [ty d n|]].
  - rewrite <- Hty1. erewrite list_fmap_alter; [apply list_alter_id|]; [done|].
    apply Forall_forall. by intros [[ms|] [ty d n|]].
Qed.

Lemma publish_state_json types es :
  publish_state types es → publish_state types (json_entry <$> es).
Proof.
  intros (Hlen & Hs & Hty). split_and!.
  - by rewrite length_fmap.
  - apply Forall_fmap. eapply Forall_impl; [exact Hs|]. apply is_slot_json_entry.
  - rewrite <- Hty, <- list_fmap_compose. apply list_fmap_ext.
    intros i e _. apply type_of_json_entry.
Qed.

Lemma publish_state_step types now (p : probe publish) es :
  publish_state types es →
  ∃ es', percentage_body in_value now p es = (Ok (), es')
         ∧ publish_state types es'.
Proof.
  intros (Hlen & Hs & Hty).
  destruct es as [|e0 [|e1 [|]]]; try done.
  apply Forall_cons in Hs as [H0 Hs]. apply Forall_cons in Hs as [H1 _].
  rewrite (percentage_value_run now p e0 e1 [] H0 H1).
  eexists. split; [done|].
  destruct e0 as [m0 [|ty0 p0 t0 n0 l0]], e1 as [m1 [|ty1 p1 t1 n1 l1]];
    try done.
  subst types.
  unfold percentage_value. destruct (published (results p)); split_and!;
    try done; by apply Forall_cons; split; [|apply Forall_singleton].
Qed.

Lemma delta_value_points buckets (samples : list (probe (option delta))) :
  intervals ≠ [] → Forall is_bucket buckets →
  type_of <$> buckets = intervals.*1 →
  Forall (λ p, is_Some (results p)) samples →
  ∃ pts,
    groupPerDay_value (timeUnit_body in_value) buckets samples = Ok pts
    ∧ (λ pt, (t pt, type_of (values pt))) <$> pts
      = day_keys samples ≫= λ d, pair d <$> intervals.*1.
Proof.
  intros Hne Hb Hty Hgood.
  apply (groupPerDay_value_good (timeUnit_body in_value) buckets
           delta_state (λ p, is_Some (results p))
           (λ p es, delta_state_step p es Hne)
           (delta_state_json buckets (conj Hb Hty))
           samples intervals.*1 (λ es Hes, proj2 Hes) Hgood).
Qed.

Lemma publish_value_points e0 e1 now (samples : list (probe publish)) :
  is_slot e0 → is_slot e1 →
  ∃ pts,
    groupPerDay_value (percentage_body in_value now) [e0; e1] samples = Ok pts
    ∧ (λ pt, (t pt, type_of (values pt))) <$> pts
      = day_keys samples ≫= λ d, pair d <$> [type_of e0; type_of e1].
Proof.
  intros H0 H1.
  apply (groupPerDay_value_good (percentage_body in_value now) [e0; e1]
           (publish_state [type_of e0; type_of e1]) (λ _, True)
           (λ p es Hes _, publish_state_step _ now p es Hes)
           (publish_state_json _ [e0; e1]
              ltac:(by split_and!; [|repeat constructor|]))
           samples [type_of e0; type_of e1]
           (λ es Hes, proj2 (proj2 Hes))
           ltac:(by apply Forall_forall)).
Qed.

Lemma delta_value_throws buckets (samples : list (probe (option delta))) p0 :
  intervals ≠ [] → Forall is_bucket buckets →
  type_of <$> buckets = intervals.*1 →
  p0 ∈ samples → results p0 = None →
  groupPerDay_value (timeUnit_body in_value) buckets samples = Throw.
Proof.
  intros Hne Hb Hty Hin Hr. unfold groupPerDay_value.
  pose proof (delta_state_json buckets (conj Hb Hty)) as Htemplate.
  assert (∀ memo, Forall (λ x, delta_state x.2) memo →
            reduce_value (timeUnit_body in_value) buckets memo samples = Throw)
    as ->; [|done|by constructor].
  induction samples as [|p samples IH]; intros memo Hmemo.
  { by apply elem_of_nil in Hin. }
  cbn. destruct (results p) as [r|] eqn:Hrp.
  - destruct (per_day_value_good (timeUnit_body in_value) buckets delta_state
                (λ p, is_Some (results p))
                (λ p es, delta_state_step p es Hne) Htemplate memo p Hmemo
                (ex_intro _ r Hrp))
      as (memo' & -> & Hmemo' & _).
    apply IH; [|done].
    apply elem_of_cons in Hin as [->|Hin]; [|done]. by rewrite Hr in Hrp.
  - unfold per_day_value.
    set (es := default _ _).
    assert (delta_state es) as Hes.
    { unfold es. destruct (property memo _) as [es'|] eqn:Hn; [|done].
      apply property_Some_elem in Hn.
      by apply (proj1 (Forall_forall _ _) Hmemo (midnight (start p), es')). }
    by rewrite (timeUnit_value_no_results p es Hrp Hne
                  (delta_state_length es Hes)).
Qed.

Lemma transform_publish_day_keys (h : heap) base e0 e1 now
    (samples : list (probe publish)) :
  view_day h base = Some [e0; e1] → is_slot e0 → is_slot e1 →
  ∃ pts,
    observe (transform_publish now base samples h) = Ok pts
    ∧ t <$> pts = day_keys samples ≫= λ d, [d; d].
Proof.
  intros Hbase H0 H1.
  destruct (groupPerDay_from_copies (percentage now)
              (percentage_body in_value now) h base
              [e0; e1] samples (λ memo p, sim_percentage memo now p) Hbase)
    as (_ & _ & Hobs & _).
  destruct (publish_value_points e0 e1 now samples H0 H1)
    as (pts & Hrun & Hshape).
  exists pts. split; [unfold transform_publish; by rewrite Hobs|].
  apply (f_equal (fmap fst)) in Hshape.
  rewrite <- list_fmap_compose, fmap_bind_list in Hshape. exact Hshape.
Qed.

(** X17: the points of [transform.publish] come day by day, two for each
    day: the days are the local midnights of the samples, and no day
    comes twice. *)
Theorem transform_publish_days_once (h : heap) base e0 e1 now
    (samples : list (probe publish)) :
  view_day h base = Some [e0; e1] → is_slot e0 → is_slot e1 →
  ∃ pts days,
    observe (transform_publish now base samples h) = Ok pts
    ∧ t <$> pts = days ≫= (λ d, [d; d])
    ∧ NoDup days
    ∧ ∀ d, d ∈ days ↔ ∃ p, p ∈ samples ∧ midnight (start p) = d.
Proof.
  intros Hbase H0 H1.
  destruct (transform_publish_day_keys h base e0 e1 now samples Hbase H0 H1)
    as (pts & Hrun & Hdays).
  exists pts, (day_keys samples). split; [done|]. split; [done|].
  split; [apply NoDup_day_keys|apply elem_of_day_keys].
Qed.

(** X18: when no sample's day is an array index (a day in milliseconds is
    none from 20 February 1970 on), the days of the points of
    [transform.publish] come in the order in which the samples first reach
    them, not in the order of time: samples that are not sorted give days
    that are not sorted. *)
Theorem transform_publish_days_first_seen (h : heap) base e0 e1 now
    (samples : list (probe publish)) :
  view_day h base = Some [e0; e1] → is_slot e0 → is_slot e1 →
  Forall (λ p, ¬ is_index (midnight (start p))) samples →
  ∃ pts,
    observe (transform_publish now base samples h) = Ok pts
    ∧ t <$> pts = days_seen samples ≫= (λ d, [d; d]).
Proof.
  intros Hbase H0 H1 Hsamples.
  destruct (transform_publish_day_keys h base e0 e1 now samples Hbase H0 H1)
    as (pts & Hrun & Hdays).
  exists pts. split; [done|]. by rewrite Hdays, day_keys_first_seen.
Qed.
(** X19: [transform.delta] on samples that all have results returns, for
    every day in the order of [Object.keys], one point for each interval
    in the order of the intervals. *)
Theorem transform_delta_shape (h : heap) base buckets
    (samples : list (probe (option delta))) :
  view_day h base = Some buckets →
  intervals ≠ [] → Forall is_bucket buckets →
  type_of <$> buckets = intervals.*1 →
  Forall (λ p, is_Some (results p)) samples →
  ∃ pts,
    observe (transform_delta base samples h) = Ok pts
    ∧ (λ pt, (t pt, type_of (values pt))) <$> pts
      = day_keys samples ≫= λ d, pair d <$> intervals.*1.
Proof.
  intros Hbase Hne Hb Hty Hgood.
  destruct (groupPerDay_from_copies timeUnit (timeUnit_body in_value) h base
              buckets samples (λ memo p, sim_timeUnit memo p) Hbase)
    as (_ & _ & Hobs & _).
  destruct (delta_value_points buckets samples Hne Hb Hty Hgood)
    as (pts & Hrun & Hshape).
  exists pts. split; [|done]. unfold transform_delta. by rewrite Hobs.
Qed.

(** X20: [transform.publish] returns on every sequence of samples: for
    every day in the order of [Object.keys], the point of the failure
    slot and then the point of the success slot. *)
Theorem transform_publish_shape (h : heap) base e0 e1 now
    (samples : list (probe publish)) :
  view_day h base = Some [e0; e1] → is_slot e0 → is_slot e1 →
  ∃ pts,
    observe (transform_publish now base samples h) = Ok pts
    ∧ (λ pt, (t pt, type_of (values pt))) <$> pts
      = day_keys samples ≫= λ d, [(d, type_of e0); (d, type_of e1)].
Proof.
  intros Hbase H0 H1.
  destruct (groupPerDay_from_copies (percentage now)
              (percentage_body in_value now) h base
              [e0; e1] samples (λ memo p, sim_percentage memo now p) Hbase)
    as (_ & _ & Hobs & _).
  destruct (publish_value_points e0 e1 now samples H0 H1)
    as (pts & Hrun & Hshape).
  exists pts. split; [|done]. unfold transform_publish. by rewrite Hobs.
Qed.

(** X21: one sample without a [results] object makes [transform.delta]
    throw for the whole sequence, wherever the sample stands; the
    template is as before. *)
Theorem transform_delta_throws (h : heap) base buckets
    (samples : list (probe (option delta))) p :
  view_day h base = Some buckets →
  intervals ≠ [] → Forall is_bucket buckets →
  type_of <$> buckets = intervals.*1 →
  p ∈ samples → results p = None →
  (transform_delta base samples h).1 = Throw
  ∧ view_day (transform_delta base samples h).2 base = Some buckets.
Proof.
  intros Hbase Hne Hb Hty Hin Hr.
  destruct (groupPerDay_throws timeUnit (timeUnit_body in_value)
              (λ memo p, sim_timeUnit memo p) h base buckets samples Hbase
              (delta_value_throws buckets samples p Hne Hb Hty Hin Hr))
    as (h' & Hrun & _ & Hbase').
  unfold transform_delta. by rewrite Hrun.
Qed.
End day_states.

(** ** [groupPerDay]: the samples of a day are counted once *)

Lemma filter_bind_key {A} (f : Z → list A) (ks : list Z) d :
  NoDup ks →
  filter (λ pt, t pt = d) (ks ≫= λ k, Point k <$> f k)
  = if decide (d ∈ ks) then Point d <$> f d else [].
Proof.
  assert (∀ k l, filter (λ pt : point A, t pt = d) (Point k <$> l)
                 = if decide (k = d) then Point k <$> l else []) as Hone.
  { intros k l. induction l as [|x l IH]; [by case_decide|].
    rewrite fmap_cons, filter_cons, IH. cbn. by case_decide. }
  induction 1 as [|k ks Hk Hnd IH]; [done|].
  cbn. rewrite filter_app, IH, Hone.
  destruct (decide (k = d)) as [->|Hne].
  - rewrite (decide_False (P := d ∈ ks)) by done.
    rewrite (decide_True (P := d ∈ d :: ks)) by (by left).
    by rewrite app_nil_r.
  - cbn. destruct (decide (d ∈ ks)) as [Hin|Hin].
    + rewrite decide_True; [done|by right].
    + rewrite decide_False; [done|]. intros [?|?]%elem_of_cons; by simplify_eq.
Qed.

Section fold_counts.
Context `{Config} {R : Type}.
Context (accumulate : probe R → ST (list entry) unit) (template : list entry).
Context (P : list entry → Prop) (good : probe R → Prop).
Context (Hstep : ∀ p es, P es → good p →
           ∃ es', accumulate p es = (Ok (), es') ∧ P es'
                  ∧ total_count es' = (total_count es + 1)%Qc).
Context (Htemplate : P (json_entry <$> template)).
Context (Hzero : total_count (json_entry <$> template) = 0%Qc).

Lemma samples_of_cons d p (samples : list (probe R)) :
  samples_of d (p :: samples)
  = ((if decide (midnight (start p) = d) then 1 else 0) + samples_of d samples)%Qc.
Proof.
  unfold samples_of. rewrite filter_cons. case_decide.
  - cbn [length]. rewrite Nat2Z.inj_succ, <- Z.add_1_l, Z2Qc_inj_add. done.
  - ring.
Qed.

Lemma reduce_value_counts samples memo :
  Forall (λ x, P x.2) memo → NoDup memo.*1 →
  Forall good samples →
  ∃ result,
    reduce_value accumulate template memo samples = Ok result
    ∧ NoDup result.*1
    ∧ ∀ d, counted_in result d = (counted_in memo d + samples_of d samples)%Qc.
Proof.
  revert memo.
  induction samples as [|p samples IH]; intros memo Hmemo Hnd Hgood.
  { exists memo. split; [done|]. split; [done|]. intros d. unfold samples_of.
    rewrite filter_nil. change (Z.of_nat (length [])) with 0.
    rewrite Z2Qc_inj_0. ring. }
  apply Forall_cons in Hgood as [Hp Hgood]. cbn [reduce_value].
  unfold per_day_value. set (n := midnight (start p)).
  assert (P (default (json_entry <$> template) (property memo n))
          ∧ total_count (default (json_entry <$> template) (property memo n))
            = counted_in memo n) as [Hes Hcount].
  { unfold counted_in. destruct (property memo n) as [es|] eqn:Hn; [|done].
    split; [|done]. apply property_Some_elem in Hn.
    by apply (proj1 (Forall_forall _ _) Hmemo (n, es)). }
  destruct (Hstep p _ Hes Hp) as (es' & -> & Hes' & Htotal).
  destruct (IH (assign n es' memo)) as (result & -> & Hnd' & Hres); [| |done|].
  { by apply Forall_assign. }
  { rewrite assign_fst. case_decide; [done|].
    apply NoDup_app. split_and!; [done| |apply NoDup_singleton].
    by intros k Hk ->%list_elem_of_singleton. }
  exists result. split; [done|]. split; [done|]. intros d.
  rewrite Hres, samples_of_cons. fold n. unfold counted_in at 1.
  rewrite property_assign. case_decide as Hd.
  - subst d. rewrite Htotal, Hcount. ring.
  - fold (counted_in memo d). ring.
Qed.

Lemma groupPerDay_value_counts samples :
  Forall good samples →
  ∃ pts,
    groupPerDay_value accumulate template samples = Ok pts
    ∧ ∀ d, total_count (values <$> filter (λ pt, t pt = d) pts)
           = samples_of d samples.
Proof.
  intros Hgood.
  destruct (reduce_value_counts samples [] ltac:(constructor)
              ltac:(constructor) Hgood) as (result & Hrun & Hnd & Hcount).
  unfold groupPerDay_value. rewrite Hrun. eexists. split; [done|].
  intros d. specialize (Hcount d). unfold counted_in at 2 in Hcount.
  cbn in Hcount. rewrite Qcplus_0_l in Hcount. rewrite <- Hcount.
  unfold flatten_value. rewrite filter_bind_key.
  2:{ by rewrite (object_keys_Permutation result). }
  unfold counted_in. case_decide as Hd.
  - rewrite (object_keys_Permutation result) in Hd.
    destruct (property result d) as [es|] eqn:Hes.
    2:{ by apply property_None in Hes. }
    change (default [] (Some es)) with es.
    rewrite <- list_fmap_compose. f_equal. apply list_fmap_id.
  - rewrite (object_keys_Permutation result) in Hd.
    apply property_None in Hd. by rewrite Hd.
Qed.
End fold_counts.

Lemma countable_json_entry e : countable (json_entry e).
Proof. by destruct e as [m [ty d [[]|]|ty p t [[]|] l]]. Qed.

Lemma total_count_zero es :
  Forall (λ e, get_field N (entry_fields e) = Some (Num (of_Z 0))) es →
  total_count (json_entry <$> es) = 0%Qc.
Proof.
  induction 1 as [|e es He _ IH]; [done|].
  unfold total_count in *. rewrite !fmap_cons, Qcsum_cons, IH.
  destruct e as [m [ty d n|ty p t n l]]; cbn in He; simplify_eq; by vm_compute.
Qed.

Section counts.
Context `{Config}.

Lemma delta_count_step (p : probe (option delta)) es :
  intervals ≠ [] →
  delta_state es ∧ Forall countable es → is_Some (results p) →
  ∃ es', timeUnit_body in_value p es = (Ok (), es')
         ∧ (delta_state es' ∧ Forall countable es')
         ∧ total_count es' = (total_count es + 1)%Qc.
Proof.
  intros Hne [Hes Hc] Hp.
  destruct (delta_state_step p es Hne Hes Hp) as (es' & Hrun & Hes').
  exists es'. split; [done|]. destruct Hp as [r Hr].
  pose proof (delta_state_length es Hes) as Hlen. destruct Hes as [Hb Hty].
  rewrite (timeUnit_value p r es Hr Hne Hb Hlen) in Hrun.
  injection Hrun as <-.
  destruct (timeUnit_value_total r es Hne Hb Hlen Hc) as [Hc' Htotal].
  by split.
Qed.

Lemma count_of_count_up e :
  countable e →
  countable (count_up e) ∧ count_of (count_up e) = (count_of e + 1)%Qc.
Proof. by destruct e as [m [ty d [[]|]|ty p t [[]|] l]]. Qed.

Lemma percentage_value_total now (p : probe publish) e0 e1 :
  is_slot e0 → is_slot e1 → countable e0 → countable e1 →
  Forall countable (percentage_value now p [e0; e1])
  ∧ total_count (percentage_value now p [e0; e1])
    = (total_count [e0; e1] + 1)%Qc.
Proof.
  destruct e0 as [m0 [|ty0 p0 t0 n0 l0]], e1 as [m1 [|ty1 p1 t1 n1 l1]];
    try done.
  intros _ _ Hc0 Hc1. unfold percentage_value, total_count.
  destruct (published (results p)).
  - destruct (count_of_count_up _ Hc1) as [Hc1' Hn1]. split.
    + by repeat constructor.
    + rewrite !fmap_cons, !Qcsum_cons. unfold count_of in *. cbn in *.
      rewrite Hn1. ring.
  - destruct (count_of_count_up _ Hc0) as [Hc0' Hn0]. split.
    + by repeat constructor.
    + rewrite !fmap_cons, !Qcsum_cons. unfold count_of in *. cbn in *.
      rewrite Hn0. ring.
Qed.

Lemma publish_count_step types now (p : probe publish) es :
  publish_state types es ∧ Forall countable es →
  ∃ es', percentage_body in_value now p es = (Ok (), es')
         ∧ (publish_state types es' ∧ Forall countable es')
         ∧ total_count es' = (total_count es + 1)%Qc.
Proof.
  intros [Hes Hc].
  destruct (publish_state_step types now p es Hes) as (es' & Hrun & Hes').
  exists es'. split; [done|].
  destruct Hes as (Hlen & Hs & Hty).
  destruct es as [|e0 [|e1 [|]]]; try done.
  apply Forall_cons in Hs as [H0 Hs]. apply Forall_cons in Hs as [H1 _].
  rewrite (percentage_value_run now p e0 e1 [] H0 H1) in Hrun.
  injection Hrun as <-.
  apply Forall_cons in Hc as [Hc0 Hc]. apply Forall_cons in Hc as [Hc1 _].
  destruct (percentage_value_total now p e0 e1 H0 H1 Hc0 Hc1) as [Hc' Htotal].
  by split.
Qed.
End counts.

Section count_theorems.
Context `{Config}.

Lemma Forall_countable_json es : Forall countable (json_entry <$> es).
Proof. apply Forall_fmap, Forall_forall. intros e _. apply countable_json_entry. Qed.

(** X22: [transform.delta] loses no sample and counts none twice: the [n]
    of the points of a day add up to the number of the samples of that
    day. *)
Theorem transform_delta_counts (h : heap) base buckets
    (samples : list (probe (option delta))) :
  view_day h base = Some buckets →
  intervals ≠ [] → Forall is_bucket buckets →
  type_of <$> buckets = intervals.*1 →
  Forall (λ e, get_field N (entry_fields e) = Some (Num (of_Z 0))) buckets →
  Forall (λ p, is_Some (results p)) samples →
  ∃ pts,
    observe (transform_delta base samples h) = Ok pts
    ∧ ∀ d, total_count (values <$> filter (λ pt, t pt = d) pts)
           = samples_of d samples.
Proof.
  intros Hbase Hne Hb Hty Hzero Hgood.
  destruct (groupPerDay_from_copies timeUnit (timeUnit_body in_value) h base
              buckets samples (λ memo p, sim_timeUnit memo p) Hbase)
    as (_ & _ & Hobs & _).
  destruct (groupPerDay_value_counts (timeUnit_body in_value) buckets
              (λ es, delta_state es ∧ Forall countable es)
              (λ p, is_Some (results p))
              (λ p es, delta_count_step p es Hne)
              (conj (delta_state_json buckets (conj Hb Hty))
                    (Forall_countable_json buckets))
              (total_count_zero buckets Hzero) samples Hgood)
    as (pts & Hrun & Hcount).
  exists pts. split; [|done]. unfold transform_delta. by rewrite Hobs.
Qed.

(** X23: [transform.publish] loses no sample and counts none twice: the
    [n] of the failure slot and of the success slot of a day add up to the
    number of the samples of that day. *)
Theorem transform_publish_counts (h : heap) base e0 e1 now
    (samples : list (probe publish)) :
  view_day h base = Some [e0; e1] → is_slot e0 → is_slot e1 →
  slot_n e0 = Num (of_Z 0) → slot_n e1 = Num (of_Z 0) →
  ∃ pts,
    observe (transform_publish now base samples h) = Ok pts
    ∧ ∀ d, total_count (values <$> filter (λ pt, t pt = d) pts)
           = samples_of d samples.
Proof.
  intros Hbase H0 H1 Hn0 Hn1.
  destruct (groupPerDay_from_copies (percentage now)
              (percentage_body in_value now) h base
              [e0; e1] samples (λ memo p, sim_percentage memo now p) Hbase)
    as (_ & _ & Hobs & _).
  assert (Forall (λ e, get_field N (entry_fields e) = Some (Num (of_Z 0)))
            [e0; e1]) as Hzero.
  { destruct e0 as [m0 [|ty0 p0 t0 n0 l0]], e1 as [m1 [|ty1 p1 t1 n1 l1]];
      try done.
    unfold slot_n in *. cbn in *. subst. by repeat constructor. }
  destruct (groupPerDay_value_counts (percentage_body in_value now) [e0; e1]
              (λ es, publish_state [type_of e0; type_of e1] es
                     ∧ Forall countable es)
              (λ _, True)
              (λ p es Hes _, publish_count_step _ now p es Hes)
              (conj (publish_state_json _ [e0; e1]
                       ltac:(by split_and!; [|repeat constructor|]))
                    (Forall_countable_json [e0; e1]))
              (total_count_zero [e0; e1] Hzero) samples
              ltac:(by apply Forall_forall))
    as (pts & Hrun & Hcount).
  exists pts. split; [|done]. unfold transform_publish. by rewrite Hobs.
Qed.
End count_theorems.

(** ** The server: [fetched] and [ran] on pings *)

Lemma call_transform_ping input (s : served metrics (point metrics)) :
  call_transform transform_ping input s = (Ok (movingAverage 3 input), s).
Proof. by destruct s. Qed.

Lemma fetched_ping_loop (pre suf : list (string * list (probe metrics))) w h :
  NoDup (pre ++ suf).*1 →
  reduce (process transform_ping) () suf.*1
    (Served (pre ++ suf)
       ((λ x, (x.1, Some <$> movingAverage 3 x.2)) <$> pre) w h)
  = (Ok (), Served (pre ++ suf)
              ((λ x, (x.1, Some <$> movingAverage 3 x.2)) <$> (pre ++ suf)) w h).
Proof.
  revert pre. induction suf as [|[k l] suf IH]; intros pre Hnd.
  { by rewrite app_nil_r. }
  cbn [fmap list_fmap fst]. rewrite reduce_cons.
  erewrite bind_Ok.
  2:{ unfold process. erewrite bind_Ok.
      2:{ unfold cache_of. cbn [cache].
          rewrite (property_elem (pre ++ (k, l) :: suf) k l Hnd); [done|].
          apply elem_of_app. right. by left. }
      rewrite (bind_Ok _ _ _ _ _ (call_transform_ping _ _)).
      unfold set_data. cbn [cache data written store]. reflexivity. }
  rewrite assign_new.
  2:{ apply property_None. rewrite <- list_fmap_compose. cbn.
      rewrite fmap_app in Hnd. apply NoDup_app in Hnd as (_ & Hnd & _).
      intros Hk. apply (Hnd k Hk). by left. }
  specialize (IH (pre ++ [(k, l)])). rewrite <- !app_assoc in IH.
  cbn [app] in IH.
  rewrite (fmap_app (λ x, (x.1, Some <$> movingAverage 3 x.2)) pre [(k, l)])
    in IH.
  by apply IH.
Qed.

(** X24: [fetched] gives [data.ping] the registries of the cache, in the
    same order, each with the moving average of its whole cache; the
    cache is not touched and nothing is written. *)
Theorem fetched_ping (s : served metrics (point metrics)) :
  NoDup (cache s).*1 →
  ∃ s',
    fetched transform_ping false s = (Ok (), s')
    ∧ cache s' = cache s ∧ written s' = written s ∧ store s' = store s
    ∧ data s' = (λ x, (x.1, Some <$> movingAverage 3 x.2)) <$> cache s
    ∧ ping_data_current s'.
Proof.
  intros Hnd. eexists. split.
  - unfold fetched. apply (fetched_ping_loop [] (cache s)). done.
  - split_and!; try done. intros registry l Hl. cbn in *.
    apply property_Some_elem in Hl. apply property_elem.
    + rewrite <- list_fmap_compose. done.
    + apply list_elem_of_fmap. by exists (registry, l).
Qed.

(** X25: a ping probe that ran: the point that is pushed onto the data of
    its registry and written out, computed from the ten most recent
    probes, is the point that the moving average of the whole cache ends
    with; the data stay the moving average of the cache, for every
    registry. *)
Theorem ran_ping_keeps_data_current (s : served metrics (point metrics))
    registry l (p : probe metrics) :
  ping_data_current s → property (cache s) registry = Some l →
  ∃ s',
    ran transform_ping false registry p s = (Ok (), s')
    ∧ ping_data_current s'
    ∧ cache s' = assign registry (l ++ [p]) (cache s)
    ∧ written s'
      = written s ++ [Probe (start p) (pop (movingAverage 3 (l ++ [p])))]
    ∧ store s' = store s.
Proof.
  intros Hcur Hl. pose proof (Hcur registry l Hl) as Hd.
  destruct s as [c d w h]. cbn [cache data written store] in *.
  assert (pop (movingAverage 3 (slice_from_end 10 (l ++ [p])))
          = pop (movingAverage 3 (l ++ [p]))) as Hpop.
  { unfold pop, movingAverage.
    rewrite !last_imap, last_slice_from_end, length_slice_from_end by lia.
    rewrite last_snoc. cbn [fmap option_fmap option_map]. f_equal.
    apply average_last_of_slice; [done|]. rewrite length_app. cbn. lia. }
  eexists. split.
  - unfold ran.
    erewrite bind_Ok; [|by unfold cache_of; cbn; rewrite Hl].
    erewrite bind_Ok; [|done].
    erewrite bind_Ok.
    2:{ unfold cache_of. cbn. rewrite property_assign, decide_True; done. }
    rewrite (bind_Ok _ _ _ _ _ (call_transform_ping _ _)).
    erewrite bind_Ok; [|by unfold data_of; cbn; rewrite Hd].
    erewrite bind_Ok; [|done]. done.
  - cbn [cache data written store]. rewrite Hpop.
    split_and!; try done.
    intros registry' l'. cbn. rewrite !property_assign. case_decide as Hk.
    + intros [= <-]. unfold pop. rewrite movingAverage_app. cbn [imap].
      by rewrite last_snoc, fmap_app.
    + apply Hcur.
Qed.

(** ** The server: [ran] on the day-grouped transforms *)

Lemma mapM_last {A B} (f : A → option B) (l : list A) (k : list B) :
  mapM f l = Some k →
  match last l with
  | Some x => ∃ y, f x = Some y ∧ last k = Some y
  | None => k = []
  end.
Proof.
  intros Hm%mapM_Some. induction Hm as [|x y l k Hxy Hm IH]; [done|].
  destruct Hm as [|x' y' l k Hxy' Hm]; [by exists y|].
  change (last (x :: x' :: l)) with (last (x' :: l)).
  change (last (y :: y' :: k)) with (last (y' :: k)).
  destruct (last (x' :: l)); [exact IH|done].
Qed.

Lemma last_bind_pair {A B} (ds : list A) (tys : list B) :
  tys ≠ [] →
  last (ds ≫= λ d, pair d <$> tys)
  = d ← last ds; ty ← last tys; Some (d, ty).
Proof.
  intros Hne. induction ds as [|d ds IH] using rev_ind; [done|].
  rewrite bind_app, last_snoc. cbn. rewrite app_nil_r.
  destruct tys as [|ty tys _] using rev_ind; [done|].
  rewrite fmap_app, app_assoc. cbn [fmap list_fmap]. by rewrite !last_snoc.
Qed.

(** The point that [ran] keeps of the points of a day-grouped transform:
    the one of the last record of the last day. *)
Lemma pop_points `{Config} {R} (h : heap) refs pts (input : list (probe R))
    (types : list string) :
  mapM (point_value h) refs = Some pts →
  (λ pt, (t pt, type_of (values pt))) <$> pts
  = day_keys input ≫= (λ d, pair d <$> types) →
  input ≠ [] → types ≠ [] →
  ∃ pt pv d ty,
    pop refs = Some pt ∧ point_value h pt = Some pv
    ∧ last (day_keys input) = Some d ∧ last types = Some ty
    ∧ t pv = d ∧ type_of (values pv) = ty.
Proof.
  intros Hm Hshape Hin Hty.
  apply (f_equal last) in Hshape. rewrite last_bind_pair in Hshape by done.
  rewrite fmap_last in Hshape.
  destruct (last (day_keys input)) as [d|] eqn:Hd.
  2:{ apply last_None in Hd. by apply day_keys_nonempty in Hd. }
  destruct (last types) as [ty|] eqn:Hlty.
  2:{ by apply last_None in Hlty. }
  cbn in Hshape. apply mapM_last in Hm. unfold pop.
  destruct (last refs) as [pt|].
  - destruct Hm as (pv & Hpv & Hlast). rewrite Hlast in Hshape. cbn in Hshape.
    exists pt, pv, d, ty. by simplify_eq.
  - subst pts. done.
Qed.

Section ran_run.
Context {R V : Type} (transform : list (probe R) → ST heap (list V)).

Lemma ran_until_transform (s : served R V) registry l (p : probe R) :
  property (cache s) registry = Some l →
  ran transform false registry p s
  = (call_transform transform (slice_from_end 10 (l ++ [p])) ≫= λ points,
     let results := pop points in
     d ← data_of registry;
     set_data registry (d ++ [results]);;
     write_part (Probe (start p) results))
      (Served (assign registry (l ++ [p]) (cache s)) (data s) (written s)
              (store s)).
Proof.
  intros Hl. unfold ran.
  erewrite bind_Ok; [|by unfold cache_of; rewrite Hl].
  erewrite bind_Ok; [|done].
  erewrite bind_Ok; [done|].
  unfold cache_of. cbn. by rewrite property_assign, decide_True.
Qed.

Lemma ran_returns (s : served R V) registry l d (p : probe R) points h' :
  property (cache s) registry = Some l →
  property (data s) registry = Some d →
  transform (slice_from_end 10 (l ++ [p])) (store s) = (Ok points, h') →
  ran transform false registry p s
  = (Ok (), Served (assign registry (l ++ [p]) (cache s))
                   (assign registry (d ++ [pop points]) (data s))
                   (written s ++ [Probe (start p) (pop points)]) h').
Proof.
  intros Hl Hd Hrun. rewrite (ran_until_transform s registry l p Hl).
  erewrite bind_Ok; [|by unfold call_transform; cbn; rewrite Hrun].
  cbn zeta.
  erewrite bind_Ok; [|by unfold data_of; cbn; rewrite Hd].
  erewrite bind_Ok; [|done]. done.
Qed.

Lemma ran_throws (s : served R V) registry l (p : probe R) h' :
  property (cache s) registry = Some l →
  transform (slice_from_end 10 (l ++ [p])) (store s) = (Throw, h') →
  ran transform false registry p s
  = (Throw, Served (assign registry (l ++ [p]) (cache s)) (data s)
                   (written s) h').
Proof.
  intros Hl Hrun. rewrite (ran_until_transform s registry l p Hl).
  apply bind_Throw. unfold call_transform. cbn. by rewrite Hrun.
Qed.
End ran_run.

Section ran_grouped.
Context `{Config}.

(** X26: a publish probe that ran: the transform returns two points for
    every day of the ten most recent probes, and only the last of them is
    pushed onto the data and written out, the success slot of the last
    day. *)
Theorem ran_publish_keeps_success (s : served publish (point loc)) now base
    e0 e1 registry l d (p : probe publish) :
  view_day (store s) base = Some [e0; e1] → is_slot e0 → is_slot e1 →
  property (cache s) registry = Some l →
  property (data s) registry = Some d →
  ∃ s' pt pv,
    ran (transform_publish now base) false registry p s = (Ok (), s')
    ∧ cache s' = assign registry (l ++ [p]) (cache s)
    ∧ data s' = assign registry (d ++ [Some pt]) (data s)
    ∧ written s' = written s ++ [Probe (start p) (Some pt)]
    ∧ view_day (store s') base = Some [e0; e1]
    ∧ point_value (store s') pt = Some pv
    ∧ type_of (values pv) = type_of e1
    ∧ last (day_keys (slice_from_end 10 (l ++ [p]))) = Some (t pv).
Proof.
  intros Hbase H0 H1 Hl Hd.
  set (input := slice_from_end 10 (l ++ [p])).
  destruct (publish_value_points e0 e1 now input H0 H1) as (pts & Hval & Hshape).
  destruct (groupPerDay_points (percentage now) (percentage_body in_value now)
              (λ memo p, sim_percentage memo now p)
              (store s) base [e0; e1] input pts Hbase Hval)
    as (refs & h' & Hrun & _ & Hbase' & Hm).
  destruct (pop_points h' refs pts input [type_of e0; type_of e1] Hm Hshape)
    as (pt & pv & day' & ty & Hpop & Hpv & Hday & Hty & Ht & Htype);
    [apply slice_from_end_snoc_nonempty; lia|done|].
  eexists _, pt, pv. split.
  - apply (ran_returns (transform_publish now base) s registry l d p refs h'
             Hl Hd).
    exact Hrun.
  - cbn [cache data written store]. rewrite Hpop, Hday.
    cbn in Hty. by simplify_eq.
Qed.

(** X27: a delta probe that ran, the ten most recent probes all having
    results: of the points of the transform, one for every interval of
    every day, only the last is pushed onto the data and written out, the
    record of the last interval of the last day. *)
Theorem ran_delta_keeps_last_interval (s : served (option delta) (point loc))
    base buckets registry l d (p : probe (option delta)) :
  view_day (store s) base = Some buckets →
  intervals ≠ [] → Forall is_bucket buckets →
  type_of <$> buckets = intervals.*1 →
  property (cache s) registry = Some l →
  property (data s) registry = Some d →
  Forall (λ q, is_Some (results q)) (slice_from_end 10 (l ++ [p])) →
  ∃ s' pt pv,
    ran (transform_delta base) false registry p s = (Ok (), s')
    ∧ cache s' = assign registry (l ++ [p]) (cache s)
    ∧ data s' = assign registry (d ++ [Some pt]) (data s)
    ∧ written s' = written s ++ [Probe (start p) (Some pt)]
    ∧ view_day (store s') base = Some buckets
    ∧ point_value (store s') pt = Some pv
    ∧ Some (type_of (values pv)) = last intervals.*1
    ∧ last (day_keys (slice_from_end 10 (l ++ [p]))) = Some (t pv).
Proof.
  intros Hbase Hne Hb Hty Hl Hd Hres.
  set (input := slice_from_end 10 (l ++ [p])) in *.
  destruct (delta_value_points buckets input Hne Hb Hty Hres)
    as (pts & Hval & Hshape).
  destruct (groupPerDay_points timeUnit (timeUnit_body in_value)
              (λ memo p, sim_timeUnit memo p)
              (store s) base buckets input pts Hbase Hval)
    as (refs & h' & Hrun & _ & Hbase' & Hm).
  destruct (pop_points h' refs pts input intervals.*1 Hm Hshape)
    as (pt & pv & day' & ty & Hpop & Hpv & Hday & Hlty & Ht & Htype).
  { apply slice_from_end_snoc_nonempty. lia. }
  { intros Hnil%fmap_nil_inv. done. }
  eexists _, pt, pv. split.
  - apply (ran_returns (transform_delta base) s registry l d p refs h' Hl Hd).
    exact Hrun.
  - cbn [cache data written store]. rewrite Hpop, Hday, Hlty.
    by simplify_eq.
Qed.

(** X28: a delta probe without a [results] object among the ten most
    recent ones of its registry, the probe that ran included: the probe
    that ran stays in the cache, the listener throws, and nothing is
    added to the data or written out. The same holds for every probe of
    that registry that runs while the probe without results is among the
    ten most recent ones. *)
Theorem ran_delta_without_results (s : served (option delta) (point loc))
    base buckets registry l (p q : probe (option delta)) :
  view_day (store s) base = Some buckets →
  intervals ≠ [] → Forall is_bucket buckets →
  type_of <$> buckets = intervals.*1 →
  property (cache s) registry = Some l →
  q ∈ slice_from_end 10 (l ++ [p]) → results q = None →
  ∃ s',
    ran (transform_delta base) false registry p s = (Throw, s')
    ∧ cache s' = assign registry (l ++ [p]) (cache s)
    ∧ data s' = data s
    ∧ written s' = written s
    ∧ view_day (store s') base = Some buckets.
Proof.
  intros Hbase Hne Hb Hty Hl Hq Hr.
  set (input := slice_from_end 10 (l ++ [p])) in *.
  destruct (groupPerDay_throws timeUnit (timeUnit_body in_value)
              (λ memo p, sim_timeUnit memo p)
              (store s) base buckets input Hbase
              (delta_value_throws buckets input q Hne Hb Hty Hq Hr))
    as (h' & Hrun & _ & Hbase').
  eexists. split.
  - apply (ran_throws (transform_delta base) s registry l p h' Hl). exact Hrun.
  - done.
Qed.
End ran_grouped.

(** ** The further properties on concrete inputs *)

Section more_examples.
#[local] Existing Instance example_config.

Lemma movingAverage_keys_witness :
  ∃ pt, movingAverage 2 three_pings !! 1%nat = Some pt
        ∧ dom (values pt) = dom (results (Probe 2000 (latency 20))).
Proof.
  apply (movingAverage_keys 2 three_pings 1 (Probe 2000 (latency 20))).
  - vm_compute. discriminate.
  - reflexivity.
Defined.

Lemma movingAverage_short_window_witness :
  movingAverage (-1) three_pings = (λ p, Point (start p) ∅) <$> three_pings.
Proof. apply (movingAverage_short_window (-1) three_pings); lia. Defined.

Lemma movingAverage_missing_previous_witness :
  movingAverage 2 [Probe 0 ∅; Probe 1 (latency 1)] !! 1%nat
    ≫= (λ pt, values pt !! "latency"%string)
  = Some NaN.
Proof.
  apply (movingAverage_missing_previous 2 [Probe 0 ∅; Probe 1 (latency 1)] 1
           (Probe 1 (latency 1)) "latency" (of_Z 1)).
  - vm_compute. discriminate.
  - reflexivity.
  - reflexivity.
  - reflexivity.
Defined.

Lemma movingAverage_last_of_slice_witness :
  pop (movingAverage 3 (slice_from_end 10 three_pings))
  = pop (movingAverage 3 three_pings).
Proof.
  apply (movingAverage_last_of_slice 3 10 three_pings).
  - lia.
  - vm_compute. discriminate.
Defined.

Lemma clone_fresh_copy_witness :
  ∃ copy (new : heap),
    clone 6%nat example_store = (Ok copy, example_store ++ new)
    ∧ view_day (example_store ++ new) copy = Some (json_entry <$> delta_template)
    ∧ view_day (example_store ++ new) 6 = Some delta_template
    ∧ NoDup (day_locs (example_store ++ new) copy)
    ∧ ∀ l, l ∈ day_locs (example_store ++ new) copy →
        (length example_store ≤ l)%nat
        ∧ l ∉ day_locs (example_store ++ new) 6.
Proof.
  apply (clone_fresh_copy example_store 6 delta_template). reflexivity.
Defined.

Lemma clone_round_trip_witness :
  ∃ copy (h1 : heap) again (h2 : heap),
    clone 6%nat example_store = (Ok copy, h1)
    ∧ clone copy h1 = (Ok again, h2)
    ∧ view_day h2 again = view_day h1 copy
    ∧ (Forall json_safe delta_template → view_day h1 copy = Some delta_template).
Proof.
  apply (clone_round_trip example_store 6 delta_template). reflexivity.
Defined.

Lemma timeUnit_counts_from_second_witness :
  ∃ (h' : heap) es',
    timeUnit 6 (delta_sample 1000 None) example_store = (Ok 6%nat, h')
    ∧ view_day h' 6 = Some es'
    ∧ ∀ (i : nat) ms ty d n,
        delta_template !! i = Some (Entry (Some ms) (Bucket ty d n)) →
        ∃ ms' d',
          es' !! i
          = Some (Entry (Some ms')
                    (Bucket ty d'
                       (if decide (Z.of_nat i
                                   = default 2
                                       (first_match_from (of_Z 1000)
                                          [("hour"%string, of_Z 3600000);
                                           ("day"%string, of_Z 86400000)] 1))
                        then Num (num_of n + of_Z 1)%js
                        else n))).
Proof.
  apply (timeUnit_counts_from_second example_store 6 delta_template
           (delta_sample 1000 None) (Delta (Some (Lag (of_Z 1000))) None)
           (Lag (of_Z 1000)) ("minute"%string, of_Z 60000)
           [("hour"%string, of_Z 3600000); ("day"%string, of_Z 86400000)]).
  - reflexivity.
  - apply (bool_decide_unpack _). vm_compute. exact I.
  - repeat constructor.
  - reflexivity.
  - reflexivity.
  - reflexivity.
  - reflexivity.
Defined.

Lemma timeUnit_first_record_not_counted_witness :
  ∃ (h' : heap) es' e0',
    timeUnit 6 (delta_sample 1000 None) example_store = (Ok 6%nat, h')
    ∧ view_day h' 6 = Some es'
    ∧ es' !! 0%nat = Some e0'
    ∧ entry_modules e0' = Some []
    ∧ get_field N (entry_fields e0') = Some (Num (of_Z 0)).
Proof.
  apply (timeUnit_first_record_not_counted example_store 6 delta_template
           (delta_sample 1000 None) (Delta (Some (Lag (of_Z 1000))) None)
           (Entry (Some []) (Bucket "minute" (Num (of_Z 0)) (Num (of_Z 0))))).
  - reflexivity.
  - apply (bool_decide_unpack _). vm_compute. exact I.
  - repeat constructor.
  - reflexivity.
  - cbn. lia.
  - reflexivity.
  - reflexivity.
Defined.

Lemma timeUnit_days_uniform_witness :
  ∃ (h' : heap) es',
    timeUnit 6 (delta_sample 1000 None) example_store = (Ok 6%nat, h')
    ∧ view_day h' 6 = Some es'
    ∧ Forall (λ e, get_field Days (entry_fields e)
                   = Some (Num (num_of (Num (of_Z 0)) + of_Z 1000 / day)%js))
             es'.
Proof.
  apply (timeUnit_days_uniform example_store 6 delta_template
           (delta_sample 1000 None) (Delta (Some (Lag (of_Z 1000))) None)
           (Num (of_Z 0))).
  - reflexivity.
  - apply (bool_decide_unpack _). vm_compute. exact I.
  - discriminate.
  - repeat constructor.
  - reflexivity.
  - reflexivity.
  - repeat constructor.
Defined.

Lemma timeUnit_counts_one_witness :
  ∃ (h' : heap) es',
    timeUnit 6 (delta_sample 1000 None) example_store = (Ok 6%nat, h')
    ∧ view_day h' 6 = Some es'
    ∧ Forall countable es'
    ∧ total_count es' = (total_count delta_template + 1)%Qc.
Proof.
  apply (timeUnit_counts_one example_store 6 delta_template
           (delta_sample 1000 None) (Delta (Some (Lag (of_Z 1000))) None)).
  - reflexivity.
  - apply (bool_decide_unpack _). vm_compute. exact I.
  - discriminate.
  - repeat constructor.
  - reflexivity.
  - reflexivity.
  - repeat constructor.
Defined.

Lemma timeUnit_modules_distinct_witness :
  ∃ (h' : heap) es',
    timeUnit 6 (delta_sample 1000 (Some ["a"; "b"]%string)) example_store
    = (Ok 6%nat, h')
    ∧ view_day h' 6 = Some es'
    ∧ Forall distinct_names es'.
Proof.
  apply (timeUnit_modules_distinct example_store 6 delta_template
           (delta_sample 1000 (Some ["a"; "b"]%string))
           (Delta (Some (Lag (of_Z 1000))) (Some ["a"; "b"]%string))).
  - reflexivity.
  - apply (bool_decide_unpack _). vm_compute. exact I.
  - discriminate.
  - repeat constructor.
  - reflexivity.
  - reflexivity.
  - intros mods [= <-]. apply (bool_decide_unpack _). vm_compute. exact I.
  - repeat constructor; by intros ?%elem_of_nil.
Defined.

Lemma timeUnit_without_results_witness :
  ∃ h' : heap,
    timeUnit 6 (Probe 1000 None) example_store = (Throw, h')
    ∧ view_day h' 6
      = Some (alter count_up (pred (length delta_template)) delta_template)
    ∧ ∀ l, l ∉ day_locs example_store 6 → h' !! l = example_store !! l.
Proof.
  apply (timeUnit_without_results example_store 6 delta_template
           (Probe 1000 None)).
  - reflexivity.
  - apply (bool_decide_unpack _). vm_compute. exact I.
  - discriminate.
  - reflexivity.
  - reflexivity.
Defined.

Lemma percentage_totals_agree_witness :
  ∃ (h' : heap) e0' e1',
    percentage 700000 9 (publish_sample 600000 true) example_store
    = (Ok 9%nat, h')
    ∧ view_day h' 9 = Some [e0'; e1']
    ∧ slot_total e0' = slot_total e1'
    ∧ slot_total e1'
      = if jsgt (expected 700000 (publish_sample 600000 true))
                (num_of (Num (of_Z 0)))
        then Num (expected 700000 (publish_sample 600000 true))
        else Num (of_Z 0).
Proof.
  apply (percentage_totals_agree example_store 9 700000
           (publish_sample 600000 true)
           (slot "failure" (of_Z 0) (of_Z 0) (of_Z 0) (of_Z 0))
           (slot "success" (of_Z 0) (of_Z 0) (of_Z 0) (of_Z 0)) []).
  - reflexivity.
  - apply (bool_decide_unpack _). vm_compute. exact I.
  - exact I.
  - exact I.
  - reflexivity.
Defined.

Lemma percentage_counts_one_witness :
  ∃ (h' : heap) e0' e1',
    percentage 700000 9 (publish_sample 600000 true) example_store
    = (Ok 9%nat, h')
    ∧ view_day h' 9 = Some [e0'; e1']
    ∧ (slot_n e1' = Num (num_of (Num (of_Z 0)) + of_Z 1)%js
       ∧ slot_n e0' = Num (of_Z 0)
       ∧ slot_percentage e0' = Num (of_Z 0))
    ∧ slot_lower e0' = slot_percentage e1'
    ∧ slot_lower e1' = Num (of_Z 0)
    ∧ type_of e0' = "failure"%string ∧ type_of e1' = "success"%string.
Proof.
  apply (percentage_counts_one example_store 9 700000
           (publish_sample 600000 true)
           (slot "failure" (of_Z 0) (of_Z 0) (of_Z 0) (of_Z 0))
           (slot "success" (of_Z 0) (of_Z 0) (of_Z 0) (of_Z 0)) []).
  - reflexivity.
  - apply (bool_decide_unpack _). vm_compute. exact I.
  - exact I.
  - exact I.
Defined.

Lemma transform_publish_days_once_witness :
  ∃ pts days,
    observe (transform_publish 700000 9
               [publish_sample 600000 true; publish_sample 86400001 false;
                publish_sample 600001 false] example_store) = Ok pts
    ∧ t <$> pts = days ≫= (λ d, [d; d])
    ∧ NoDup days
    ∧ ∀ d, d ∈ days
           ↔ ∃ p, p ∈ [publish_sample 600000 true;
                       publish_sample 86400001 false;
                       publish_sample 600001 false]
                  ∧ midnight (start p) = d.
Proof.
  apply (transform_publish_days_once example_store 9
           (slot "failure" (of_Z 0) (of_Z 0) (of_Z 0) (of_Z 0))
           (slot "success" (of_Z 0) (of_Z 0) (of_Z 0) (of_Z 0))
           700000
           [publish_sample 600000 true; publish_sample 86400001 false;
            publish_sample 600001 false]).
  - reflexivity.
  - exact I.
  - exact I.
Defined.

Lemma transform_publish_days_first_seen_witness :
  ∃ pts,
    observe (transform_publish 1700100000000 9
               [publish_sample 1700100000000 true;
                publish_sample 1700000000000 true] example_store) = Ok pts
    ∧ t <$> pts
      = days_seen [publish_sample 1700100000000 true;
                   publish_sample 1700000000000 true]
          ≫= (λ d, [d; d]).
Proof.
  apply (transform_publish_days_first_seen example_store 9
           (slot "failure" (of_Z 0) (of_Z 0) (of_Z 0) (of_Z 0))
           (slot "success" (of_Z 0) (of_Z 0) (of_Z 0) (of_Z 0))
           1700100000000
           [publish_sample 1700100000000 true;
            publish_sample 1700000000000 true]).
  - reflexivity.
  - exact I.
  - exact I.
  - apply (bool_decide_unpack _). vm_compute. exact I.
Defined.

(** Samples that are not sorted: the later day comes first. *)
Lemma transform_publish_days_not_sorted :
  t <$> default []
          (returned
             (observe
                (transform_publish 1700100000000 9
                   [publish_sample 1700100000000 true;
                    publish_sample 1700000000000 true] example_store)))
  = [1700092800000; 1700092800000; 1699920000000; 1699920000000].
Proof. evaluate. Qed.

Lemma transform_delta_shape_witness :
  ∃ pts,
    observe (transform_delta 6 [delta_sample 1000 None] example_store) = Ok pts
    ∧ (λ pt, (t pt, type_of (values pt))) <$> pts
      = day_keys [delta_sample 1000 None] ≫= λ d, pair d <$> intervals.*1.
Proof.
  apply (transform_delta_shape example_store 6 delta_template
           [delta_sample 1000 None]).
  - reflexivity.
  - discriminate.
  - repeat constructor.
  - reflexivity.
  - repeat constructor. by eexists.
Defined.

Lemma transform_publish_shape_witness :
  ∃ pts,
    observe (transform_publish 700000 9 [publish_sample 600000 true]
               example_store) = Ok pts
    ∧ (λ pt, (t pt, type_of (values pt))) <$> pts
      = day_keys [publish_sample 600000 true]
          ≫= λ d, [(d, "failure"%string); (d, "success"%string)].
Proof.
  apply (transform_publish_shape example_store 9
           (slot "failure" (of_Z 0) (of_Z 0) (of_Z 0) (of_Z 0))
           (slot "success" (of_Z 0) (of_Z 0) (of_Z 0) (of_Z 0))
           700000 [publish_sample 600000 true]).
  - reflexivity.
  - exact I.
  - exact I.
Defined.

Lemma transform_delta_throws_witness :
  (transform_delta 6 [delta_sample 1000 None; Probe 2000 None] example_store).1
  = Throw
  ∧ view_day
      (transform_delta 6 [delta_sample 1000 None; Probe 2000 None]
         example_store).2 6
    = Some delta_template.
Proof.
  apply (transform_delta_throws example_store 6 delta_template
           [delta_sample 1000 None; Probe 2000 None] (Probe 2000 None)).
  - reflexivity.
  - discriminate.
  - repeat constructor.
  - reflexivity.
  - apply (list_elem_of_lookup_2 _ 1%nat). reflexivity.
  - reflexivity.
Defined.

Lemma fetched_ping_witness :
  ∃ s',
    fetched transform_ping false example_pings = (Ok (), s')
    ∧ cache s' = cache example_pings ∧ written s' = written example_pings
    ∧ store s' = store example_pings
    ∧ data s'
      = (λ x, (x.1, Some <$> movingAverage 3 x.2)) <$> cache example_pings
    ∧ ping_data_current s'.
Proof.
  apply (fetched_ping example_pings).
  apply (bool_decide_unpack _). vm_compute. exact I.
Defined.

Lemma ran_ping_keeps_data_current_witness :
  ∃ s',
    ran transform_ping false "npm" (Probe 4000 (latency 40)) example_pings
    = (Ok (), s')
    ∧ ping_data_current s'
    ∧ cache s'
      = assign "npm"%string (three_pings ++ [Probe 4000 (latency 40)])
          (cache example_pings)
    ∧ written s'
      = written example_pings
        ++ [Probe 4000
              (pop (movingAverage 3
                      (three_pings ++ [Probe 4000 (latency 40)])))]
    ∧ store s' = store example_pings.
Proof.
  apply (ran_ping_keeps_data_current example_pings "npm" three_pings
           (Probe 4000 (latency 40))).
  - intros registry l. cbn. case_decide; [|done]. by intros [= <-].
  - reflexivity.
Defined.

Lemma ran_publish_keeps_success_witness :
  ∃ s' pt pv,
    ran (transform_publish 700000 9) false "npm" (publish_sample 600001 false)
      example_publishes
    = (Ok (), s')
    ∧ cache s'
      = assign "npm"%string
          ([publish_sample 600000 true] ++ [publish_sample 600001 false])
          (cache example_publishes)
    ∧ data s' = assign "npm"%string ([] ++ [Some pt]) (data example_publishes)
    ∧ written s'
      = written example_publishes ++ [Probe 600001 (Some pt)]
    ∧ view_day (store s') 9
      = Some [slot "failure" (of_Z 0) (of_Z 0) (of_Z 0) (of_Z 0);
              slot "success" (of_Z 0) (of_Z 0) (of_Z 0) (of_Z 0)]
    ∧ point_value (store s') pt = Some pv
    ∧ type_of (values pv) = "success"%string
    ∧ last (day_keys
              (slice_from_end 10
                 ([publish_sample 600000 true] ++ [publish_sample 600001 false])))
      = Some (t pv).
Proof.
  apply (ran_publish_keeps_success example_publishes 700000 9
           (slot "failure" (of_Z 0) (of_Z 0) (of_Z 0) (of_Z 0))
           (slot "success" (of_Z 0) (of_Z 0) (of_Z 0) (of_Z 0))
           "npm" [publish_sample 600000 true] []
           (publish_sample 600001 false)).
  - reflexivity.
  - exact I.
  - exact I.
  - reflexivity.
  - reflexivity.
Defined.

Lemma ran_delta_keeps_last_interval_witness :
  ∃ s' pt pv,
    ran (transform_delta 6) false "npm" (delta_sample 1000 None) example_deltas
    = (Ok (), s')
    ∧ cache s'
      = assign "npm"%string
          ([delta_sample 100000 (Some ["a"%string])] ++ [delta_sample 1000 None])
          (cache example_deltas)
    ∧ data s' = assign "npm"%string ([] ++ [Some pt]) (data example_deltas)
    ∧ written s' = written example_deltas ++ [Probe 1000 (Some pt)]
    ∧ view_day (store s') 6 = Some delta_template
    ∧ point_value (store s') pt = Some pv
    ∧ Some (type_of (values pv)) = last intervals.*1
    ∧ last (day_keys
              (slice_from_end 10
                 ([delta_sample 100000 (Some ["a"%string])]
                  ++ [delta_sample 1000 None])))
      = Some (t pv).
Proof.
  apply (ran_delta_keeps_last_interval example_deltas 6 delta_template "npm"
           [delta_sample 100000 (Some ["a"%string])] []
           (delta_sample 1000 None)).
  - reflexivity.
  - discriminate.
  - repeat constructor.
  - reflexivity.
  - reflexivity.
  - reflexivity.
  - repeat constructor; by eexists.
Defined.

Lemma ran_delta_without_results_witness :
  ∃ s',
    ran (transform_delta 6) false "npm" (delta_sample 1000 None)
      (Served [("npm"%string, [Probe 500 None])] [("npm"%string, [])] []
              example_store)
    = (Throw, s')
    ∧ cache s'
      = assign "npm"%string ([Probe 500 None] ++ [delta_sample 1000 None])
          [("npm"%string, [Probe 500 None])]
    ∧ data s' = [("npm"%string, [])]
    ∧ written s' = []
    ∧ view_day (store s') 6 = Some delta_template.
Proof.
  apply (ran_delta_without_results
           (Served [("npm"%string, [Probe 500 None])] [("npm"%string, [])] []
                   example_store)
           6 delta_template "npm" [Probe 500 None]
           (delta_sample 1000 None) (Probe 500 None)).
  - reflexivity.
  - discriminate.
  - repeat constructor.
  - reflexivity.
  - reflexivity.
  - apply (list_elem_of_lookup_2 _ 0%nat). reflexivity.
  - reflexivity.
Defined.
Lemma transform_delta_counts_witness :
  ∃ pts,
    observe (transform_delta 6 [delta_sample 1000 None] example_store) = Ok pts
    ∧ ∀ d, total_count (values <$> filter (λ pt, t pt = d) pts)
           = samples_of d [delta_sample 1000 None].
Proof.
  apply (transform_delta_counts example_store 6 delta_template
           [delta_sample 1000 None]).
  - reflexivity.
  - discriminate.
  - repeat constructor.
  - reflexivity.
  - repeat constructor.
  - repeat constructor. by eexists.
Defined.

Lemma transform_publish_counts_witness :
  ∃ pts,
    observe (transform_publish 700000 9 [publish_sample 600000 true]
               example_store) = Ok pts
    ∧ ∀ d, total_count (values <$> filter (λ pt, t pt = d) pts)
           = samples_of d [publish_sample 600000 true].
Proof.
  apply (transform_publish_counts example_store 9
           (slot "failure" (of_Z 0) (of_Z 0) (of_Z 0) (of_Z 0))
           (slot "success" (of_Z 0) (of_Z 0) (of_Z 0) (of_Z 0))
           700000 [publish_sample 600000 true]).
  - reflexivity.
  - exact I.
  - exact I.
  - reflexivity.
  - reflexivity.
Defined.
End more_examples.
